(** * polite-retry: retry, circuit breaker, adaptive retry budget, backpressure

    A shallow embedding of the TypeScript sources of [polite-retry]
    ([backoff.ts], [circuit-breaker.ts], [adaptive-budget.ts],
    [backpressure.ts], [retry.ts]) and the properties checked against them.

    Conventions of the embedding.
    - A JavaScript [number] that holds a quantity (a delay, a budget, a rate,
      a timestamp) is a rational [Q]: arithmetic is exact, and equalities
      between computed numbers are stated with [==].  Counters are [nat] or
      [Z].  Where a number can be [NaN] (the result of [parseFloat]) the type
      [number] below is used.
    - [Math.random()] reads the next element of a stream of draws ([Rng]).
    - [Date.now()] reads a clock that is passed to the method ([now]), or is
      a field of the [World] in which an orchestrated call runs.
    - An observer callback ([onStateChange], [onBudgetChange], [onRetry]) is
      modelled by the list of its invocations. *)

From Stdlib Require Import QArith Qminmax Qabs Qround Qpower Lqa ZArith Lia List Bool Ascii String.
From stdpp Require Import base option gmap strings.

Local Open Scope Q_scope.

(* ===================================================================== *)
(** * Part I: the program                                                 *)
(* ===================================================================== *)

(** ** JavaScript runtime pieces *)

Module Js.

(** A stream of [Math.random()] results and the number of draws taken. *)
Record Rng := { draws : nat -> Q; used : nat }.

(** [Math.random()] *)
Definition mathRandom (g : Rng) : Q * Rng :=
  (draws g (used g), {| draws := draws g; used := S (used g) |}).

(** A draw of [Math.random()] lies in [0, 1). *)
Definition unitDraw (r : Q) : Prop := 0 <= r /\ r < 1.

(** An [Error] object, by its [name] and [message].  [timeoutError t] is
    [new Error(`Operation timed out after ${t}ms`)]. *)
Inductive Error :=
| mkError (name message : string)
| timeoutError (timeoutMs : Q).

(** [new Error(message)] *)
Definition newError (message : string) : Error := mkError "Error" message.

(** A thrown value: an [Error] object, or another value, of which only
    [String(value)] is observed. *)
Inductive Thrown :=
| ThrownError (e : Error)
| ThrownValue (asString : string).

(** [error instanceof Error ? error : new Error(String(error))] *)
Definition toError (error : Thrown) : Error :=
  match error with
  | ThrownError e => e
  | ThrownValue asString => newError asString
  end.

(** [x !== undefined] *)
Definition defined {A : Type} (x : option A) : bool :=
  match x with Some _ => true | None => false end.

(** [Math.abs] *)
Definition mathAbs (x : Q) : Q := Qabs x.

(** [x <= y] and [x < y] as booleans *)
Definition leb (x y : Q) : bool := Qle_bool x y.
Definition ltb (x y : Q) : bool := negb (Qle_bool y x).

End Js.

(** ** backoff.ts *)

Module Backoff.
Import Js.

(** [type JitterStrategy = 'none' | 'full' | 'equal' | 'decorrelated'].
    The [default:] arm of the [switch] is unreachable for a value of this
    type and is not represented. *)
Inductive JitterStrategy := none | full | equal | decorrelated.

(** [calculateBackoff(attempt, initialDelayMs, maxDelayMs, multiplier = 2,
    jitter = 'full', previousDelay?)].  The two defaulted parameters and
    the optional one are [option]s; [None] is [undefined]. *)
Definition calculateBackoff
    (attempt : Z) (initialDelayMs maxDelayMs : Q)
    (multiplier : option Q) (jitter : option JitterStrategy)
    (previousDelay : option Q) (g : Rng) : Q * Rng :=
  let multiplier := default 2 multiplier in
  let jitter := default full jitter in
  let exponentialDelay := initialDelayMs * Qpower multiplier attempt in
  let cappedDelay := Qmin exponentialDelay maxDelayMs in
  match jitter with
  | none => (cappedDelay, g)
  | full =>
      let '(r, g) := mathRandom g in
      (r * cappedDelay, g)
  | equal =>
      let '(r, g) := mathRandom g in
      ((cappedDelay / 2) + (r * cappedDelay / 2), g)
  | decorrelated =>
      let prev := default initialDelayMs previousDelay in
      let '(r, g) := mathRandom g in
      let decorrelated := r * (prev * 3 - initialDelayMs) + initialDelayMs in
      (Qmin decorrelated maxDelayMs, g)
  end.

(** [createBackoffCalculator(options)]: the closure it returns, by the
    options it captured and its variable [previousDelay]. *)
Record BackoffCalculator := {
  calc_initialDelayMs : Q;
  calc_maxDelayMs : Q;
  calc_multiplier : Q;
  calc_jitter : JitterStrategy;
  previousDelay : Q
}.

Definition createBackoffCalculator (initialDelayMs maxDelayMs : Q)
    (multiplier : option Q) (jitter : option JitterStrategy) : BackoffCalculator :=
  {| calc_initialDelayMs := initialDelayMs;
     calc_maxDelayMs := maxDelayMs;
     calc_multiplier := default 2 multiplier;
     calc_jitter := default full jitter;
     previousDelay := initialDelayMs |}.

(** A call [backoff(attempt)] of the returned closure. *)
Definition callCalculator (attempt : Z) (c : BackoffCalculator) (g : Rng)
  : Q * BackoffCalculator * Rng :=
  let '(delay, g) :=
    calculateBackoff attempt (calc_initialDelayMs c) (calc_maxDelayMs c)
      (Some (calc_multiplier c)) (Some (calc_jitter c)) (Some (previousDelay c)) g in
  (delay,
   {| calc_initialDelayMs := calc_initialDelayMs c;
      calc_maxDelayMs := calc_maxDelayMs c;
      calc_multiplier := calc_multiplier c;
      calc_jitter := calc_jitter c;
      previousDelay := delay |},
   g).

(** Successive calls of the closure, one for each of the given attempt
    numbers: the delays it returns. *)
Fixpoint callCalculator_calls (attempts : list Z) (c : BackoffCalculator) (g : Rng)
  : list Q :=
  match attempts with
  | [] => []
  | attempt :: attempts =>
      let '(delay, c, g) := callCalculator attempt c g in
      delay :: callCalculator_calls attempts c g
  end.

End Backoff.

(** ** circuit-breaker.ts *)

Module Breaker.
Import Js.

(** [type CircuitState = 'closed' | 'open' | 'half-open'] *)
Inductive CircuitState := closed | open | half_open.

Definition CircuitState_eqb (a b : CircuitState) : bool :=
  match a, b with
  | closed, closed | open, open | half_open, half_open => true
  | _, _ => false
  end.

(** [CircuitBreakerOptions]; [windowSize] is a number of requests.  The
    observer [onStateChange] is the log [stateChanges] of the breaker. *)
Record CircuitBreakerOptions := {
  opt_failureThreshold : option Q;
  opt_windowSize : option nat;
  opt_resetTimeoutMs : option Q
}.

(** The private fields of [class CircuitBreaker]. *)
Record CircuitBreaker := {
  state : CircuitState;
  failures : list bool;
  lastFailureTime : Q;
  halfOpenAttempts : nat;
  failureThreshold : Q;
  windowSize : nat;
  resetTimeoutMs : Q;
  stateChanges : list CircuitState
}.

Definition set_state (v : CircuitState) (cb : CircuitBreaker) :=
  {| state := v; failures := failures cb; lastFailureTime := lastFailureTime cb;
     halfOpenAttempts := halfOpenAttempts cb; failureThreshold := failureThreshold cb;
     windowSize := windowSize cb; resetTimeoutMs := resetTimeoutMs cb;
     stateChanges := stateChanges cb |}.

Definition set_failures (v : list bool) (cb : CircuitBreaker) :=
  {| state := state cb; failures := v; lastFailureTime := lastFailureTime cb;
     halfOpenAttempts := halfOpenAttempts cb; failureThreshold := failureThreshold cb;
     windowSize := windowSize cb; resetTimeoutMs := resetTimeoutMs cb;
     stateChanges := stateChanges cb |}.

Definition set_lastFailureTime (v : Q) (cb : CircuitBreaker) :=
  {| state := state cb; failures := failures cb; lastFailureTime := v;
     halfOpenAttempts := halfOpenAttempts cb; failureThreshold := failureThreshold cb;
     windowSize := windowSize cb; resetTimeoutMs := resetTimeoutMs cb;
     stateChanges := stateChanges cb |}.

Definition set_halfOpenAttempts (v : nat) (cb : CircuitBreaker) :=
  {| state := state cb; failures := failures cb; lastFailureTime := lastFailureTime cb;
     halfOpenAttempts := v; failureThreshold := failureThreshold cb;
     windowSize := windowSize cb; resetTimeoutMs := resetTimeoutMs cb;
     stateChanges := stateChanges cb |}.

Definition notify_onStateChange (v : CircuitState) (cb : CircuitBreaker) :=
  {| state := state cb; failures := failures cb; lastFailureTime := lastFailureTime cb;
     halfOpenAttempts := halfOpenAttempts cb; failureThreshold := failureThreshold cb;
     windowSize := windowSize cb; resetTimeoutMs := resetTimeoutMs cb;
     stateChanges := stateChanges cb ++ [v] |}.

(** [constructor(options = {})] *)
Definition new (options : CircuitBreakerOptions) : CircuitBreaker :=
  {| state := closed; failures := []; lastFailureTime := 0; halfOpenAttempts := 0;
     failureThreshold := default (1 # 2) (opt_failureThreshold options);
     windowSize := default 10%nat (opt_windowSize options);
     resetTimeoutMs := default 30000 (opt_resetTimeoutMs options);
     stateChanges := [] |}.

(** [private transition(newState)] *)
Definition transition (newState : CircuitState) (cb : CircuitBreaker) : CircuitBreaker :=
  if negb (CircuitState_eqb (state cb) newState) then
    notify_onStateChange newState
      (set_halfOpenAttempts 0 (set_state newState cb))
  else cb.

(** [private trimWindow()]: [shift()] while the window is too long. *)
Fixpoint trimWindow_loop (windowSize : nat) (failures : list bool) : list bool :=
  match failures with
  | [] => []
  | _ :: rest =>
      if (windowSize <? length failures)%nat
      then trimWindow_loop windowSize rest
      else failures
  end.

Definition trimWindow (cb : CircuitBreaker) : CircuitBreaker :=
  set_failures (trimWindow_loop (windowSize cb) (failures cb)) cb.

(** [getState()], with [now] the value of [Date.now()] *)
Definition getState (now : Q) (cb : CircuitBreaker) : CircuitState * CircuitBreaker :=
  let cb :=
    if CircuitState_eqb (state cb) open then
      let timeSinceFailure := now - lastFailureTime cb in
      if leb (resetTimeoutMs cb) timeSinceFailure
      then transition half_open cb
      else cb
    else cb in
  (state cb, cb).

(** [isAllowed()] *)
Definition isAllowed (now : Q) (cb : CircuitBreaker) : bool * CircuitBreaker :=
  let '(currentState, cb) := getState now cb in
  match currentState with
  | closed => (true, cb)
  | half_open =>
      let cb := set_halfOpenAttempts (halfOpenAttempts cb + 1) cb in
      ((halfOpenAttempts cb <=? 1)%nat, cb)
  | open => (false, cb)
  end.

(** [recordSuccess()] *)
Definition recordSuccess (cb : CircuitBreaker) : CircuitBreaker :=
  let cb := set_failures (failures cb ++ [false]) cb in
  let cb := trimWindow cb in
  if CircuitState_eqb (state cb) half_open then
    set_failures [] (transition closed cb)
  else cb.

(** [getFailureRate()] *)
Definition getFailureRate (cb : CircuitBreaker) : Q :=
  if (length (failures cb) =? 0)%nat then 0
  else
    let failureCount := length (List.filter (fun f : bool => f) (failures cb)) in
    inject_Z (Z.of_nat failureCount) / inject_Z (Z.of_nat (length (failures cb))).

(** [recordFailure()], with [now] the value of [Date.now()] *)
Definition recordFailure (now : Q) (cb : CircuitBreaker) : CircuitBreaker :=
  let cb := set_failures (failures cb ++ [true]) cb in
  let cb := trimWindow cb in
  let cb := set_lastFailureTime now cb in
  if CircuitState_eqb (state cb) half_open then
    transition open cb
  else if CircuitState_eqb (state cb) closed
          && (windowSize cb <=? length (failures cb))%nat then
    let failureRate := getFailureRate cb in
    if leb (failureThreshold cb) failureRate
    then transition open cb
    else cb
  else cb.

(** [reset()] *)
Definition reset (cb : CircuitBreaker) : CircuitBreaker :=
  let cb := set_failures [] cb in
  let cb := set_halfOpenAttempts 0 cb in
  transition closed cb.

(** The time-based transition that [getState] resolves is pending. *)
Definition resetDue (now : Q) (cb : CircuitBreaker) : bool :=
  CircuitState_eqb (state cb) open
  && leb (resetTimeoutMs cb) (now - lastFailureTime cb).

(** Successive calls of [isAllowed()], one at each of the given times:
    the answers, and the breaker afterwards. *)
Fixpoint isAllowed_calls (times : list Q) (cb : CircuitBreaker)
  : list bool * CircuitBreaker :=
  match times with
  | [] => ([], cb)
  | now :: times =>
      let '(answer, cb) := isAllowed now cb in
      let '(answers, cb) := isAllowed_calls times cb in
      (answer :: answers, cb)
  end.

(** [new CircuitOpenError(message = 'Circuit breaker is open')] *)
Definition CircuitOpenError (message : option string) : Error :=
  mkError "CircuitOpenError" (default "Circuit breaker is open" message).

(** What stays as it was when only the state, the counter of half-open
    calls and the log of the observer may change. *)
Definition sameWindow (cb cb' : CircuitBreaker) : Prop :=
  failures cb' = failures cb
  /\ windowSize cb' = windowSize cb
  /\ failureThreshold cb' = failureThreshold cb
  /\ resetTimeoutMs cb' = resetTimeoutMs cb
  /\ lastFailureTime cb' = lastFailureTime cb.

(** The public methods that can change a breaker. *)
Inductive Operation :=
| RecordSuccess
| RecordFailure (now : Q)
| IsAllowed (now : Q)
| GetState (now : Q)
| Reset.

Definition perform (cb : CircuitBreaker) (op : Operation) : CircuitBreaker :=
  match op with
  | RecordSuccess => recordSuccess cb
  | RecordFailure now => recordFailure now cb
  | IsAllowed now => snd (isAllowed now cb)
  | GetState now => snd (getState now cb)
  | Reset => reset cb
  end.

(** The outcomes recorded by a sequence of operations. *)
Definition recordedOutcomes (ops : list Operation) : nat :=
  length (List.filter (fun op => match op with
                                 | RecordSuccess | RecordFailure _ => true
                                 | _ => false
                                 end) ops).

End Breaker.

(** ** adaptive-budget.ts *)

Module Budget.
Import Js.

(** The fields of [AdaptiveRetryOptions] the constructor reads.  The
    observer [onBudgetChange] is the log [budgetChanges]; the answer of
    [checkBackpressure] is passed to [shouldRetry]. *)
Record AdaptiveRetryOptions := {
  opt_initialBudget : option Q;
  opt_budgetIncreaseRate : option Q;
  opt_budgetDecreaseRate : option Q;
  opt_highFailureThreshold : option Q;
  opt_lowFailureThreshold : option Q;
  opt_adjustmentIntervalMs : option Q
}.

(** The private fields of [class AdaptiveRetryBudget].  [adjustmentTimer]
    holds the time at which the interval timer fires next, [None] once the
    timer is cleared. *)
Record AdaptiveRetryBudget := {
  budget : Q;
  failureRate : Q;
  totalRequests : nat;
  successfulRequests : nat;
  failedRequests : nat;
  totalRetries : nat;
  initialBudget : Q;
  budgetIncreaseRate : Q;
  budgetDecreaseRate : Q;
  highFailureThreshold : Q;
  lowFailureThreshold : Q;
  adjustmentIntervalMs : Q;
  emaAlpha : Q;
  adjustmentTimer : option Q;
  budgetChanges : list (Q * Q)
}.

Definition set_budget (v : Q) (b : AdaptiveRetryBudget) :=
  {| budget := v; failureRate := failureRate b; totalRequests := totalRequests b;
     successfulRequests := successfulRequests b; failedRequests := failedRequests b;
     totalRetries := totalRetries b; initialBudget := initialBudget b;
     budgetIncreaseRate := budgetIncreaseRate b; budgetDecreaseRate := budgetDecreaseRate b;
     highFailureThreshold := highFailureThreshold b;
     lowFailureThreshold := lowFailureThreshold b;
     adjustmentIntervalMs := adjustmentIntervalMs b; emaAlpha := emaAlpha b;
     adjustmentTimer := adjustmentTimer b; budgetChanges := budgetChanges b |}.

Definition set_failureRate (v : Q) (b : AdaptiveRetryBudget) :=
  {| budget := budget b; failureRate := v; totalRequests := totalRequests b;
     successfulRequests := successfulRequests b; failedRequests := failedRequests b;
     totalRetries := totalRetries b; initialBudget := initialBudget b;
     budgetIncreaseRate := budgetIncreaseRate b; budgetDecreaseRate := budgetDecreaseRate b;
     highFailureThreshold := highFailureThreshold b;
     lowFailureThreshold := lowFailureThreshold b;
     adjustmentIntervalMs := adjustmentIntervalMs b; emaAlpha := emaAlpha b;
     adjustmentTimer := adjustmentTimer b; budgetChanges := budgetChanges b |}.

(** The four counters at once. *)
Definition set_counters (total ok failed retries : nat) (b : AdaptiveRetryBudget) :=
  {| budget := budget b; failureRate := failureRate b; totalRequests := total;
     successfulRequests := ok; failedRequests := failed;
     totalRetries := retries; initialBudget := initialBudget b;
     budgetIncreaseRate := budgetIncreaseRate b; budgetDecreaseRate := budgetDecreaseRate b;
     highFailureThreshold := highFailureThreshold b;
     lowFailureThreshold := lowFailureThreshold b;
     adjustmentIntervalMs := adjustmentIntervalMs b; emaAlpha := emaAlpha b;
     adjustmentTimer := adjustmentTimer b; budgetChanges := budgetChanges b |}.

Definition set_adjustmentTimer (v : option Q) (b : AdaptiveRetryBudget) :=
  {| budget := budget b; failureRate := failureRate b; totalRequests := totalRequests b;
     successfulRequests := successfulRequests b; failedRequests := failedRequests b;
     totalRetries := totalRetries b; initialBudget := initialBudget b;
     budgetIncreaseRate := budgetIncreaseRate b; budgetDecreaseRate := budgetDecreaseRate b;
     highFailureThreshold := highFailureThreshold b;
     lowFailureThreshold := lowFailureThreshold b;
     adjustmentIntervalMs := adjustmentIntervalMs b; emaAlpha := emaAlpha b;
     adjustmentTimer := v; budgetChanges := budgetChanges b |}.

Definition notify_onBudgetChange (v : Q * Q) (b : AdaptiveRetryBudget) :=
  {| budget := budget b; failureRate := failureRate b; totalRequests := totalRequests b;
     successfulRequests := successfulRequests b; failedRequests := failedRequests b;
     totalRetries := totalRetries b; initialBudget := initialBudget b;
     budgetIncreaseRate := budgetIncreaseRate b; budgetDecreaseRate := budgetDecreaseRate b;
     highFailureThreshold := highFailureThreshold b;
     lowFailureThreshold := lowFailureThreshold b;
     adjustmentIntervalMs := adjustmentIntervalMs b; emaAlpha := emaAlpha b;
     adjustmentTimer := adjustmentTimer b; budgetChanges := budgetChanges b ++ [v] |}.

(** The delay [setInterval] uses: a delay below 1 ms is taken as 1 ms. *)
Definition timerInterval (b : AdaptiveRetryBudget) : Q :=
  if ltb (adjustmentIntervalMs b) 1 then 1 else adjustmentIntervalMs b.

(** [private startBudgetAdjustment()], at time [now] *)
Definition startBudgetAdjustment (now : Q) (b : AdaptiveRetryBudget) :=
  set_adjustmentTimer (Some (now + timerInterval b)) b.

(** [constructor(options = {})], at time [now] *)
Definition new (now : Q) (options : AdaptiveRetryOptions) : AdaptiveRetryBudget :=
  let initialBudget := default (2 # 10) (opt_initialBudget options) in
  startBudgetAdjustment now
    {| budget := initialBudget; failureRate := 0;
       totalRequests := 0; successfulRequests := 0; failedRequests := 0;
       totalRetries := 0;
       initialBudget := initialBudget;
       budgetIncreaseRate := default (1 # 10) (opt_budgetIncreaseRate options);
       budgetDecreaseRate := default (5 # 10) (opt_budgetDecreaseRate options);
       highFailureThreshold := default (3 # 10) (opt_highFailureThreshold options);
       lowFailureThreshold := default (5 # 100) (opt_lowFailureThreshold options);
       adjustmentIntervalMs := default 1000 (opt_adjustmentIntervalMs options);
       emaAlpha := 1 # 10;
       adjustmentTimer := None; budgetChanges := [] |}.

(** [async shouldRetry()].  [isBackpressured] is [None] when no
    [checkBackpressure] is configured and [Some v] when the configured
    check answers [v]. *)
Definition shouldRetry (isBackpressured : option bool) (g : Rng)
    (b : AdaptiveRetryBudget) : bool * AdaptiveRetryBudget * Rng :=
  match isBackpressured with
  | Some true => (false, b, g)
  | _ =>
      if leb (budget b) 0 then (false, b, g)
      else
        let retryProbability := Qmin (budget b) (1 - failureRate b) in
        let '(r, g) := mathRandom g in
        if ltb r retryProbability then
          let b := set_budget (Qmax 0 (budget b - (1 # 100))) b in
          let b := set_counters (totalRequests b) (successfulRequests b)
                                (failedRequests b) (totalRetries b + 1) b in
          (true, b, g)
        else (false, b, g)
  end.

(** [shouldRetrySync()] *)
Definition shouldRetrySync (g : Rng) (b : AdaptiveRetryBudget)
  : bool * AdaptiveRetryBudget * Rng :=
  if leb (budget b) 0 then (false, b, g)
  else
    let retryProbability := Qmin (budget b) (1 - failureRate b) in
    let '(r, g) := mathRandom g in
    if ltb r retryProbability then
      let b := set_budget (Qmax 0 (budget b - (1 # 100))) b in
      let b := set_counters (totalRequests b) (successfulRequests b)
                            (failedRequests b) (totalRetries b + 1) b in
      (true, b, g)
    else (false, b, g).

(** [recordOutcome(success)] *)
Definition recordOutcome (success : bool) (b : AdaptiveRetryBudget) : AdaptiveRetryBudget :=
  let b :=
    if success
    then set_counters (totalRequests b + 1) (successfulRequests b + 1)
                      (failedRequests b) (totalRetries b) b
    else set_counters (totalRequests b + 1) (successfulRequests b)
                      (failedRequests b + 1) (totalRetries b) b in
  let failed : Q := if success then 0 else 1 in
  set_failureRate ((1 - emaAlpha b) * failureRate b + emaAlpha b * failed) b.

(** [getBudget()], [getFailureRate()] *)
Definition getBudget (b : AdaptiveRetryBudget) : Q := budget b.
Definition getFailureRate (b : AdaptiveRetryBudget) : Q := failureRate b.

(** [RetryMetrics] *)
Record RetryMetrics := {
  m_totalRequests : nat;
  m_successfulRequests : nat;
  m_failedRequests : nat;
  m_totalRetries : nat;
  m_failureRate : Q;
  m_retryAmplificationFactor : Q
}.

(** [getMetrics()] *)
Definition getMetrics (b : AdaptiveRetryBudget) : RetryMetrics :=
  let baseRequests := (Z.of_nat (totalRequests b) - Z.of_nat (totalRetries b))%Z in
  {| m_totalRequests := totalRequests b;
     m_successfulRequests := successfulRequests b;
     m_failedRequests := failedRequests b;
     m_totalRetries := totalRetries b;
     m_failureRate := failureRate b;
     m_retryAmplificationFactor :=
       if (0 <? baseRequests)%Z
       then inject_Z (Z.of_nat (totalRequests b)) / inject_Z baseRequests
       else 1 |}.

(** [reset()] *)
Definition reset (b : AdaptiveRetryBudget) : AdaptiveRetryBudget :=
  let b := set_budget (initialBudget b) b in
  let b := set_failureRate 0 b in
  set_counters 0 0 0 0 b.

(** [dispose()] *)
Definition dispose (b : AdaptiveRetryBudget) : AdaptiveRetryBudget :=
  match adjustmentTimer b with
  | Some _ => set_adjustmentTimer None b
  | None => b
  end.

(** [private adjustBudget()] *)
Definition adjustBudget (b : AdaptiveRetryBudget) : AdaptiveRetryBudget :=
  let previousBudget := budget b in
  let b :=
    if ltb (highFailureThreshold b) (failureRate b) then
      set_budget (budget b * (1 - budgetDecreaseRate b)) b
    else if ltb (failureRate b) (lowFailureThreshold b) then
      set_budget (Qmin (initialBudget b) (budget b + budgetIncreaseRate b)) b
    else b in
  if ltb (1 # 1000) (mathAbs (previousBudget - budget b))
  then notify_onBudgetChange (budget b, failureRate b) b
  else b.

(** One firing of the interval timer set up by [startBudgetAdjustment]. *)
Definition timerFires (b : AdaptiveRetryBudget) : AdaptiveRetryBudget :=
  match adjustmentTimer b with
  | Some due => set_adjustmentTimer (Some (due + timerInterval b)) (adjustBudget b)
  | None => b
  end.

(** The timer firings that are due when the clock reaches [now]. *)
Definition dueFirings (now : Q) (b : AdaptiveRetryBudget) : nat :=
  match adjustmentTimer b with
  | Some due =>
      if leb due now
      then Z.to_nat (Qfloor ((now - due) / timerInterval b) + 1)
      else 0%nat
  | None => 0%nat
  end.

Definition runTimers (now : Q) (b : AdaptiveRetryBudget) : AdaptiveRetryBudget :=
  Nat.iter (dueFirings now b) timerFires b.

(** The operations on a budget after its construction: the public
    methods that change it, and a firing of its timer. *)
Inductive Operation :=
| ShouldRetry (isBackpressured : option bool) (g : Rng)
| ShouldRetrySync (g : Rng)
| RecordOutcome (success : bool)
| Reset
| Dispose
| TimerFires.

Definition perform (b : AdaptiveRetryBudget) (op : Operation) : AdaptiveRetryBudget :=
  match op with
  | ShouldRetry isBackpressured g => snd (fst (shouldRetry isBackpressured g b))
  | ShouldRetrySync g => snd (fst (shouldRetrySync g b))
  | RecordOutcome success => recordOutcome success b
  | Reset => reset b
  | Dispose => dispose b
  | TimerFires => timerFires b
  end.

(** The ranges the options are documented with: the initial budget is a
    fraction of the base load, the increase rate is an amount added, the
    decrease rate is the fraction removed. *)
Definition documentedRanges (b : AdaptiveRetryBudget) : Prop :=
  0 <= initialBudget b /\ 0 <= budgetIncreaseRate b
  /\ 0 <= budgetDecreaseRate b /\ budgetDecreaseRate b <= 1.

Definition budgetInRange (b : AdaptiveRetryBudget) : Prop :=
  0 <= budget b /\ budget b <= initialBudget b.


(** The retries a list of answers admits. *)
Definition admitted (answers : list bool) : nat :=
  length (List.filter (fun answer : bool => answer) answers).

End Budget.

(** ** backpressure.ts *)

Module Backpressure.
Import Js.

(** A JavaScript number as [parseFloat] can return it. *)
Inductive number := Num (q : Q) | Infinity (negative : bool) | NaN.

(** [x * 1000] *)
Definition times1000 (x : number) : number :=
  match x with
  | Num q => Num (q * 1000)
  | Infinity s => Infinity s
  | NaN => NaN
  end.

(** [x >= y] for a finite [y]; a comparison with [NaN] is false. *)
Definition number_ge (x : number) (y : Q) : bool :=
  match x with
  | Num q => leb y q
  | Infinity negative => negb negative
  | NaN => false
  end.

(** [interface BackpressureSignal] *)
Record BackpressureSignal := {
  isOverloaded : bool;
  loadLevel : option number;
  retryAfterMs : option number;
  timestamp : Q
}.

(** [BACKPRESSURE_HEADERS] *)
Definition LOAD_LEVEL : string := "X-Backpressure".
Definition RETRY_AFTER : string := "Retry-After".
Definition SHEDDING : string := "X-Load-Shedding".

(** [String.prototype.toLowerCase] on the ASCII letters. *)
Definition lowerAscii (c : ascii) : ascii :=
  let n := nat_of_ascii c in
  if ((65 <=? n) && (n <=? 90))%nat then ascii_of_nat (n + 32) else c.

Fixpoint toLowerCase (s : string) : string :=
  match s with
  | EmptyString => EmptyString
  | String c rest => String (lowerAscii c) (toLowerCase rest)
  end.

(** The argument [headers : Headers | Record<string, string>].  A
    [Headers] object keeps its names in lower case and looks a name up
    without regard to case; a plain record is looked up as it is. *)
Inductive HeaderBag :=
| HeadersObject (entries : gmap string string)
| PlainRecord (entries : gmap string string).

(** [private signals], [signalTtlMs], [overloadThreshold] *)
Record BackpressureManager := {
  signals : gmap string BackpressureSignal;
  signalTtlMs : Q;
  overloadThreshold : Q
}.

Definition set_signals (v : gmap string BackpressureSignal) (m : BackpressureManager) :=
  {| signals := v; signalTtlMs := signalTtlMs m;
     overloadThreshold := overloadThreshold m |}.

(** [constructor(options = {})] *)
Definition new (opt_signalTtlMs opt_overloadThreshold : option Q) : BackpressureManager :=
  {| signals := ∅;
     signalTtlMs := default 30000 opt_signalTtlMs;
     overloadThreshold := default (8 # 10) opt_overloadThreshold |}.

(** [recordSignal(serviceId, signal)], at time [now]; [signal] has the
    three fields other than [timestamp]. *)
Definition recordSignal (now : Q) (serviceId : string)
    (sig_isOverloaded : bool) (sig_loadLevel sig_retryAfterMs : option number)
    (m : BackpressureManager) : BackpressureManager :=
  set_signals
    (<[serviceId := {| isOverloaded := sig_isOverloaded;
                       loadLevel := sig_loadLevel;
                       retryAfterMs := sig_retryAfterMs;
                       timestamp := now |}]> (signals m)) m.

(** A string in a condition: the empty string is false. *)
Definition truthy (s : option string) : bool :=
  match s with
  | Some EmptyString | None => false
  | Some _ => true
  end.

Section WithParseFloat.

(** The built-in [parseFloat]. *)
Variable parseFloat : string -> number.

(** The local [get] of [recordFromHeaders] *)
Definition get (headers : HeaderBag) (name : string) : option string :=
  match headers with
  | HeadersObject entries => entries !! toLowerCase name
  | PlainRecord entries =>
      match entries !! name with
      | Some v => Some v
      | None => entries !! toLowerCase name
      end
  end.

(** [recordFromHeaders(serviceId, headers)], at time [now] *)
Definition recordFromHeaders (now : Q) (serviceId : string) (headers : HeaderBag)
    (m : BackpressureManager) : BackpressureManager :=
  let loadLevelStr := get headers LOAD_LEVEL in
  let retryAfterStr := get headers RETRY_AFTER in
  let sheddingStr := get headers SHEDDING in
  let loadLevel :=
    if truthy loadLevelStr then parseFloat <$> loadLevelStr else None in
  let retryAfterMs :=
    if truthy retryAfterStr
    then (fun s => times1000 (parseFloat s)) <$> retryAfterStr
    else None in
  let isShedding :=
    bool_decide (sheddingStr = Some "true") || bool_decide (sheddingStr = Some "1") in
  if defined loadLevel || defined retryAfterMs || isShedding then
    recordSignal now serviceId
      (isShedding ||
       match loadLevel with
       | Some l => number_ge l (overloadThreshold m)
       | None => false
       end)
      loadLevel retryAfterMs m
  else m.

End WithParseFloat.

(** [getSignal(serviceId)], at time [now] *)
Definition getSignal (now : Q) (serviceId : string) (m : BackpressureManager)
  : option BackpressureSignal * BackpressureManager :=
  match signals m !! serviceId with
  | None => (None, m)
  | Some signal =>
      let age := now - timestamp signal in
      if ltb (signalTtlMs m) age
      then (None, set_signals (delete serviceId (signals m)) m)
      else (Some signal, m)
  end.

(** [isOverloaded(serviceId)] (the method) *)
Definition isOverloadedFor (now : Q) (serviceId : string) (m : BackpressureManager)
  : bool * BackpressureManager :=
  let '(signal, m) := getSignal now serviceId m in
  match signal with
  | None => (false, m)
  | Some signal => (isOverloaded signal, m)
  end.

(** [getLoadLevel(serviceId)] *)
Definition getLoadLevel (now : Q) (serviceId : string) (m : BackpressureManager)
  : option number * BackpressureManager :=
  let '(signal, m) := getSignal now serviceId m in
  (signal ≫= loadLevel, m).

(** [getRetryAfterMs(serviceId)] *)
Definition getRetryAfterMs (now : Q) (serviceId : string) (m : BackpressureManager)
  : option number * BackpressureManager :=
  let '(signal, m) := getSignal now serviceId m in
  (signal ≫= retryAfterMs, m).

(** [clear()] *)
Definition clear (m : BackpressureManager) : BackpressureManager :=
  set_signals ∅ m.

(** A reader of plain decimal literals ([digits] or [digits.digits]), on
    which [parseFloat] returns the same number; used in the examples. *)
Definition digitValue (c : ascii) : option Z :=
  let n := nat_of_ascii c in
  if ((48 <=? n) && (n <=? 57))%nat then Some (Z.of_nat (n - 48)) else None.

Fixpoint readDigits (s : string) (acc : Z) (count : nat) : Z * nat * string :=
  match s with
  | EmptyString => (acc, count, s)
  | String c rest =>
      match digitValue c with
      | Some d => readDigits rest (10 * acc + d)%Z (S count)
      | None => (acc, count, s)
      end
  end.

Definition readDecimal (s : string) : number :=
  let '(whole, wholeDigits, rest) := readDigits s 0%Z 0%nat in
  match wholeDigits, rest with
  | O, _ => NaN
  | _, String "." fraction =>
      let '(part, partDigits, _) := readDigits fraction 0%Z 0%nat in
      Num (inject_Z whole + inject_Z part / inject_Z (10 ^ Z.of_nat partDigits))
  | _, _ => Num (inject_Z whole)
  end.

(** A mapping that holds the three recognised fields, those that are
    given, under the names [rename] makes of the standard ones. *)
Definition recognisedFields (rename : string -> string)
    (loadLevelStr retryAfterStr sheddingStr : option string) : gmap string string :=
  let put name value (entries : gmap string string) :=
    match value with
    | Some v => <[rename name := v]> entries
    | None => entries
    end in
  put LOAD_LEVEL loadLevelStr (put RETRY_AFTER retryAfterStr (put SHEDDING sheddingStr ∅)).

(** [res.setHeader(name, value)] on the headers of a response. *)
Definition setHeader (name value : string) (res : gmap string string)
  : gmap string string :=
  <[name := value]> res.

Section WithNumberFormat.

(** The built-ins [Number.prototype.toFixed] (with 2 digits) and
    [Number.prototype.toString]. *)
Variables (toFixed2 numberToString : Q -> string).

(** The handler returned by [createBackpressureMiddleware(options)], run
    on a response with the load level that [getLoadLevel()] gave: the
    headers of the response when [next()] is called. *)
Definition createBackpressureMiddleware
    (overloadThreshold retryAfterSeconds : option Q)
    (loadLevel : Q) (res : gmap string string) : gmap string string :=
  let overloadThreshold := default (8 # 10) overloadThreshold in
  let retryAfterSeconds := default 5 retryAfterSeconds in
  let res := setHeader LOAD_LEVEL (toFixed2 loadLevel) res in
  if leb overloadThreshold loadLevel then
    let res := setHeader SHEDDING "true" res in
    setHeader RETRY_AFTER (numberToString retryAfterSeconds) res
  else res.

End WithNumberFormat.

(** [Math.max(...levels)] for a list that is not empty. *)
Definition mathMax (levels : list Q) : Q :=
  match levels with
  | [] => 0
  | level :: levels => fold_left Qmax levels level
  end.

(** A number in a condition: set and not zero. *)
Definition truthyNumber (x : option Q) : option Q :=
  match x with
  | Some v => if Qeq_bool v 0 then None else Some v
  | None => None
  end.

(** The options of [createLoadLevelCalculator].  For the two functions
    the value is what the function returns when it is given. *)
Record LoadLevelOptions := {
  maxConcurrentRequests : option Q;
  getCurrentRequests : option Q;
  maxMemoryMb : option Q;
  maxCpuPercent : option Q;
  getCpuPercent : option Q
}.

(** The function returned by [createLoadLevelCalculator(options)], with
    [heapUsed] the value of [process.memoryUsage().heapUsed]: the levels it
    collects, and its result. *)
Definition loadLevels (options : LoadLevelOptions) (heapUsed : Q) : list Q :=
  let levels := [] in
  let levels :=
    match truthyNumber (maxConcurrentRequests options), getCurrentRequests options with
    | Some maxRequests, Some currentRequests =>
        let requestLoad := currentRequests / maxRequests in
        levels ++ [Qmin 1 requestLoad]
    | _, _ => levels
    end in
  let levels :=
    match truthyNumber (maxMemoryMb options) with
    | Some maxMemory =>
        let memoryMb := heapUsed / (1024 * 1024) in
        let memoryLoad := memoryMb / maxMemory in
        levels ++ [Qmin 1 memoryLoad]
    | None => levels
    end in
  match truthyNumber (maxCpuPercent options), getCpuPercent options with
  | Some maxCpu, Some cpuPercent =>
      let cpuLoad := cpuPercent / maxCpu in
      levels ++ [Qmin 1 cpuLoad]
  | _, _ => levels
  end.

Definition createLoadLevelCalculator (options : LoadLevelOptions) (heapUsed : Q) : Q :=
  let levels := loadLevels options heapUsed in
  if (0 <? length levels)%nat then mathMax levels else 0.

End Backpressure.

(** ** backpressure.ts: [class RequestCounter] *)

Module Counter.

Record RequestCounter := {
  count : Z;
  maxObserved : Z
}.

Definition new : RequestCounter := {| count := 0; maxObserved := 0 |}.

(** [getCount()], [getMaxObserved()] *)
Definition getCount (c : RequestCounter) : Z := count c.
Definition getMaxObserved (c : RequestCounter) : Z := maxObserved c.

(** [increment()] *)
Definition increment (c : RequestCounter) : RequestCounter :=
  let c := {| count := count c + 1; maxObserved := maxObserved c |} in
  if (maxObserved c <? count c)%Z
  then {| count := count c; maxObserved := count c |}
  else c.

(** [decrement()] *)
Definition decrement (c : RequestCounter) : RequestCounter :=
  {| count := Z.max 0 (count c - 1); maxObserved := maxObserved c |}.

(** [reset()] *)
Definition reset (c : RequestCounter) : RequestCounter :=
  {| count := 0; maxObserved := 0 |}.

(** The handler returned by [middleware()], for one request: it counts
    the request and registers [onFinish] for the events [finish] and
    [close]; [decremented] is the local variable [onFinish] closes over. *)
Definition middleware (c : RequestCounter) : RequestCounter * bool :=
  (increment c, false).

(** [onFinish()], run when [finish] or [close] is emitted *)
Definition onFinish (st : RequestCounter * bool) : RequestCounter * bool :=
  let '(c, decremented) := st in
  if negb decremented then (decrement c, true) else (c, decremented).

(** The operations on a counter. *)
Inductive Operation := Increment | Decrement | Reset.

Definition perform (c : RequestCounter) (op : Operation) : RequestCounter :=
  match op with
  | Increment => increment c
  | Decrement => decrement c
  | Reset => reset c
  end.

End Counter.

(** ** retry.ts *)

Module Retry.
Import Js Backoff.

(** *** The world an orchestrated call runs in *)

(** What the call does to its collaborators, in order. *)
Inductive Event :=
| FnInvoked
| BreakerIsAllowed (answer : bool)
| BreakerRecordSuccess
| BreakerRecordFailure
| BudgetRecordOutcome (success : bool)
| BudgetShouldRetry (answer : bool)
| OnRetry (error : Error) (attempt : Z) (delayMs : Q)
| Slept (ms : Q).

(** [now] is the clock behind [Date.now()], [rng] the source of
    [Math.random()], [fnCalls] the number of invocations of the operation
    so far, [circuitBreaker] and [budget] the two shared objects,
    [checkBackpressure] the successive answers of the check configured on
    the budget (if any) and [backpressureChecks] how many were given,
    [attempts] the local variable of [retryWithResult]. *)
Record World := {
  now : Q;
  rng : Rng;
  fnCalls : nat;
  circuitBreaker : Breaker.CircuitBreaker;
  budget : Budget.AdaptiveRetryBudget;
  checkBackpressure : option (nat -> bool);
  backpressureChecks : nat;
  attempts : nat;
  trace : list Event
}.

Definition set_now (v : Q) (w : World) :=
  {| now := v; rng := rng w; fnCalls := fnCalls w; circuitBreaker := circuitBreaker w;
     budget := budget w; checkBackpressure := checkBackpressure w;
     backpressureChecks := backpressureChecks w; attempts := attempts w;
     trace := trace w |}.

Definition set_rng (v : Rng) (w : World) :=
  {| now := now w; rng := v; fnCalls := fnCalls w; circuitBreaker := circuitBreaker w;
     budget := budget w; checkBackpressure := checkBackpressure w;
     backpressureChecks := backpressureChecks w; attempts := attempts w;
     trace := trace w |}.

Definition set_fnCalls (v : nat) (w : World) :=
  {| now := now w; rng := rng w; fnCalls := v; circuitBreaker := circuitBreaker w;
     budget := budget w; checkBackpressure := checkBackpressure w;
     backpressureChecks := backpressureChecks w; attempts := attempts w;
     trace := trace w |}.

Definition set_circuitBreaker (v : Breaker.CircuitBreaker) (w : World) :=
  {| now := now w; rng := rng w; fnCalls := fnCalls w; circuitBreaker := v;
     budget := budget w; checkBackpressure := checkBackpressure w;
     backpressureChecks := backpressureChecks w; attempts := attempts w;
     trace := trace w |}.

Definition set_budget (v : Budget.AdaptiveRetryBudget) (w : World) :=
  {| now := now w; rng := rng w; fnCalls := fnCalls w; circuitBreaker := circuitBreaker w;
     budget := v; checkBackpressure := checkBackpressure w;
     backpressureChecks := backpressureChecks w; attempts := attempts w;
     trace := trace w |}.

Definition set_backpressureChecks (v : nat) (w : World) :=
  {| now := now w; rng := rng w; fnCalls := fnCalls w; circuitBreaker := circuitBreaker w;
     budget := budget w; checkBackpressure := checkBackpressure w;
     backpressureChecks := v; attempts := attempts w;
     trace := trace w |}.

Definition set_attempts (v : nat) (w : World) :=
  {| now := now w; rng := rng w; fnCalls := fnCalls w; circuitBreaker := circuitBreaker w;
     budget := budget w; checkBackpressure := checkBackpressure w;
     backpressureChecks := backpressureChecks w; attempts := v;
     trace := trace w |}.

Definition log (e : Event) (w : World) :=
  {| now := now w; rng := rng w; fnCalls := fnCalls w; circuitBreaker := circuitBreaker w;
     budget := budget w; checkBackpressure := checkBackpressure w;
     backpressureChecks := backpressureChecks w; attempts := attempts w;
     trace := trace w ++ [e] |}.

(** *** Computations that return or throw *)

Inductive Completion (A : Type) :=
| Returns (a : A)
| Throws (error : Thrown).
Arguments Returns {A} a.
Arguments Throws {A} error.

Definition M (A : Type) : Type := World -> Completion A * World.

Definition ret {A : Type} (a : A) : M A := fun w => (Returns a, w).

Definition throw {A : Type} (e : Error) : M A := fun w => (Throws (ThrownError e), w).

Definition bind {A B : Type} (c : M A) (k : A -> M B) : M B :=
  fun w =>
    match c w with
    | (Returns a, w) => k a w
    | (Throws error, w) => (Throws error, w)
    end.

(** [try { body } catch (error) { handler }] *)
Definition tryCatch {A : Type} (body : M A) (handler : Thrown -> M A) : M A :=
  fun w =>
    match body w with
    | (Returns a, w) => (Returns a, w)
    | (Throws error, w) => handler error w
    end.

Notation "'do' x <~ c ;; k" := (bind c (fun x => k))
  (at level 10, x name, c at level 99, k at level 200).
Notation "'exec' c ;; k" := (bind c (fun _ => k))
  (at level 10, c at level 99, k at level 200).

(** A promise, by the time it takes to settle and what it settles to. *)
Record Promise (A : Type) := {
  settlesAfter : Q;
  settled : Completion A
}.
Arguments settlesAfter {A} _.
Arguments settled {A} _.

(** [Date.now()] *)
Definition dateNow : M Q := fun w => (Returns (now w), w).

(** The clock advances by [ms]; the budget's interval timer fires as
    often as it is due. *)
Definition elapse (ms : Q) (w : World) : World :=
  let w := set_now (now w + Qmax 0 ms) w in
  set_budget (Budget.runTimers (now w) (budget w)) w.

(** [await promise] *)
Definition await {A : Type} (promise : Promise A) : M A :=
  fun w => (settled promise, elapse (settlesAfter promise) w).

(** [await sleep(ms)] (backoff.ts) *)
Definition sleep (ms : Q) : M unit :=
  fun w => (Returns tt, elapse ms (log (Slept ms) w)).

(** [withTimeout(promise, timeoutMs)]: the promise wins the race when it
    settles before the timer fires. *)
Definition withTimeout {A : Type} (promise : Promise A) (timeoutMs : Q) : Promise A :=
  if ltb (settlesAfter promise) timeoutMs then promise
  else {| settlesAfter := timeoutMs;
          settled := Throws (ThrownError (timeoutError timeoutMs)) |}.

(** [calculateBackoff], drawing from the world's [rng] *)
Definition backoff (attempt : Z) (initialDelayMs maxDelayMs multiplier : Q)
    (jitter : JitterStrategy) (previousDelay : Q) : M Q :=
  fun w =>
    let '(delay, g) :=
      calculateBackoff attempt initialDelayMs maxDelayMs (Some multiplier)
        (Some jitter) (Some previousDelay) (rng w) in
    (Returns delay, set_rng g w).

(** [interface RetryOptions].  The two callbacks are computations: they
    may change the world and may throw. *)
Record RetryOptions := {
  maxRetries : option Z;
  initialDelayMs : option Q;
  maxDelayMs : option Q;
  backoffMultiplier : option Q;
  jitter : option JitterStrategy;
  retryIf : option (Error -> M bool);
  onRetry : option (Error -> Z -> Q -> M unit);
  timeoutMs : option Q
}.

(** [options = {}] *)
Definition noOptions : RetryOptions :=
  {| maxRetries := None; initialDelayMs := None; maxDelayMs := None;
     backoffMultiplier := None; jitter := None; retryIf := None;
     onRetry := None; timeoutMs := None |}.

(** [{ ...options, retryIf: v }] and [{ ...options, onRetry: v }] *)
Definition with_retryIf (v : option (Error -> M bool)) (o : RetryOptions) :=
  {| maxRetries := maxRetries o; initialDelayMs := initialDelayMs o;
     maxDelayMs := maxDelayMs o; backoffMultiplier := backoffMultiplier o;
     jitter := jitter o; retryIf := v; onRetry := onRetry o;
     timeoutMs := timeoutMs o |}.

Definition with_onRetry (v : option (Error -> Z -> Q -> M unit)) (o : RetryOptions) :=
  {| maxRetries := maxRetries o; initialDelayMs := initialDelayMs o;
     maxDelayMs := maxDelayMs o; backoffMultiplier := backoffMultiplier o;
     jitter := jitter o; retryIf := retryIf o; onRetry := v;
     timeoutMs := timeoutMs o |}.

(** [const defaultRetryIf = (_error) => true] *)
Definition defaultRetryIf (_error : Error) : M bool := ret true.

(** [onRetry?.(lastError, attempt + 1, delay)] *)
Definition callOnRetry (onRetry : option (Error -> Z -> Q -> M unit))
    (error : Error) (attempt : Z) (delay : Q) : M unit :=
  match onRetry with
  | Some f => f error attempt delay
  | None => ret tt
  end.

(** [if (timeoutMs)]: a number that is set and not zero. *)
Definition timeoutSet (timeoutMs : option Q) : option Q :=
  match timeoutMs with
  | Some t => if Qeq_bool t 0 then None else Some t
  | None => None
  end.

(** [lastError ?? new Error('Retry failed')] *)
Definition lastErrorOr (lastError : option Error) : Error :=
  default (newError "Retry failed") lastError.

(** *** The shared objects, as the orchestrator calls them *)

(** [circuitBreaker.isAllowed()] *)
Definition breakerIsAllowed : M bool :=
  fun w =>
    let '(answer, cb) := Breaker.isAllowed (now w) (circuitBreaker w) in
    (Returns answer, log (BreakerIsAllowed answer) (set_circuitBreaker cb w)).

(** [circuitBreaker.recordSuccess()] *)
Definition breakerRecordSuccess : M unit :=
  fun w =>
    (Returns tt,
     log BreakerRecordSuccess
       (set_circuitBreaker (Breaker.recordSuccess (circuitBreaker w)) w)).

(** [circuitBreaker.recordFailure()] *)
Definition breakerRecordFailure : M unit :=
  fun w =>
    (Returns tt,
     log BreakerRecordFailure
       (set_circuitBreaker (Breaker.recordFailure (now w) (circuitBreaker w)) w)).

(** [budget.recordOutcome(success)] *)
Definition budgetRecordOutcome (success : bool) : M unit :=
  fun w =>
    (Returns tt,
     log (BudgetRecordOutcome success)
       (set_budget (Budget.recordOutcome success (budget w)) w)).

(** [await budget.shouldRetry()]: the configured backpressure check, if
    any, gives its next answer. *)
Definition budgetShouldRetry : M bool :=
  fun w =>
    let isBackpressured :=
      (fun check => check (backpressureChecks w)) <$> checkBackpressure w in
    let w :=
      if defined isBackpressured
      then set_backpressureChecks (backpressureChecks w + 1) w
      else w in
    let '(answer, b, g) := Budget.shouldRetry isBackpressured (rng w) (budget w) in
    (Returns answer, log (BudgetShouldRetry answer) (set_rng g (set_budget b w))).

(** An operation [fn] given by what its successive invocations return:
    invocation number [i] (from 0) returns the promise [script i]. *)
Definition scripted {A : Type} (script : nat -> Promise A) : M (Promise A) :=
  fun w => (Returns (script (fnCalls w)), log FnInvoked (set_fnCalls (fnCalls w + 1) w)).

(** An [onRetry] observer that notes its arguments. *)
Definition noteOnRetry (error : Error) (attempt : Z) (delayMs : Q) : M unit :=
  fun w => (Returns tt, log (OnRetry error attempt delayMs) w).

Section WithResultType.
Context {T : Type}.

(** [timeoutMs ? await withTimeout(fn(), timeoutMs) : await fn()] *)
Definition attemptFn (fn : M (Promise T)) (timeoutMs : option Q) : M T :=
  match timeoutSet timeoutMs with
  | Some t => do promise <~ fn ;; await (withTimeout promise t)
  | None => do promise <~ fn ;; await promise
  end.

(** The [for] loop of [retry].  [fuel] bounds the iterations left; the
    loop condition [attempt <= maxRetries] is tested as in the source. *)
Fixpoint retry_loop (fn : M (Promise T))
    (maxRetries : Z) (initialDelayMs maxDelayMs backoffMultiplier : Q)
    (jitter : JitterStrategy) (retryIf : Error -> M bool)
    (onRetry : option (Error -> Z -> Q -> M unit)) (timeoutMs : option Q)
    (fuel : nat) (attempt : Z) (lastError : option Error) (previousDelay : Q)
  : M T :=
  match fuel with
  | O => throw (lastErrorOr lastError)
  | S fuel =>
      if (attempt <=? maxRetries)%Z then
        tryCatch
          (attemptFn fn timeoutMs)
          (fun error =>
             let lastError := toError error in
             if (attempt >=? maxRetries)%Z then throw lastError
             else
               do again <~ retryIf lastError ;;
               if negb again then throw lastError
               else
                 do delay <~ backoff attempt initialDelayMs maxDelayMs
                            backoffMultiplier jitter previousDelay ;;
                 exec callOnRetry onRetry lastError (attempt + 1) delay ;;
                 exec sleep delay ;;
                 retry_loop fn maxRetries initialDelayMs maxDelayMs
                   backoffMultiplier jitter retryIf onRetry timeoutMs
                   fuel (attempt + 1) (Some lastError) delay)
      else throw (lastErrorOr lastError)
  end.

(** The number of iterations of a loop [for (attempt = 0; attempt <=
    maxRetries; attempt++)]. *)
Definition iterations (maxRetries : Z) : nat := Z.to_nat (maxRetries + 1).

(** [retry(fn, options = {})] *)
Definition retry (fn : M (Promise T)) (options : RetryOptions) : M T :=
  let maxRetries := default 3%Z (maxRetries options) in
  let initialDelayMs := default 100 (initialDelayMs options) in
  let maxDelayMs := default 30000 (maxDelayMs options) in
  let backoffMultiplier := default 2 (backoffMultiplier options) in
  let jitter := default full (jitter options) in
  let retryIf := default defaultRetryIf (retryIf options) in
  retry_loop fn maxRetries initialDelayMs maxDelayMs backoffMultiplier jitter
    retryIf (onRetry options) (timeoutMs options)
    (iterations maxRetries) 0 None initialDelayMs.

(** [interface RetryResult<T>] *)
Record RetryResult := {
  result : option T;
  error : option Error;
  success : bool;
  res_attempts : nat;
  totalTimeMs : Q
}.

(** [retryWithResult(fn, options = {})] *)
Definition retryWithResult (fn : M (Promise T)) (options : RetryOptions)
  : M RetryResult :=
  do startTime <~ dateNow ;;
  exec (fun w => (Returns tt, set_attempts 0 w)) ;;
  tryCatch
    (let wrappedFn : M (Promise T) :=
       (exec (fun w => (Returns tt, set_attempts (attempts w + 1) w)) ;; fn) in
     let modifiedOptions :=
       with_onRetry
         (Some (fun error attempt delayMs =>
                  callOnRetry (onRetry options) error attempt delayMs))
         options in
     do result <~ retry wrappedFn modifiedOptions ;;
     do finish <~ dateNow ;;
     fun w =>
       (Returns {| result := Some result; error := None; success := true;
                   res_attempts := attempts w;
                   totalTimeMs := finish - startTime |}, w))
    (fun error =>
       do finish <~ dateNow ;;
       fun w =>
         (Returns {| result := None; error := Some (toError error);
                     success := false; res_attempts := attempts w;
                     totalTimeMs := finish - startTime |}, w)).

(** [retryWithCircuitBreaker(fn, circuitBreaker, options = {})]; the
    breaker is the one of the world. *)
Definition retryWithCircuitBreaker (fn : M (Promise T)) (options : RetryOptions)
  : M T :=
  let retryIf := default defaultRetryIf (retryIf options) in
  let restOptions := with_retryIf None options in
  do allowed <~ breakerIsAllowed ;;
  if negb allowed then throw (Breaker.CircuitOpenError None)
  else
    tryCatch
      (do result <~ retry fn
         (with_retryIf
            (Some (fun error =>
                     exec breakerRecordFailure ;;
                     do allowed <~ breakerIsAllowed ;;
                     if negb allowed then ret false
                     else retryIf error))
            restOptions) ;;
       exec breakerRecordSuccess ;;
       ret result)
      (fun error =>
         exec breakerRecordFailure ;;
         fun w => (Throws error, w)).

(** The [for] loop of [retryWithBudget]. *)
Fixpoint retryWithBudget_loop (fn : M (Promise T))
    (maxRetries : Z) (initialDelayMs maxDelayMs backoffMultiplier : Q)
    (jitter : JitterStrategy) (retryIf : Error -> M bool)
    (onRetry : option (Error -> Z -> Q -> M unit)) (timeoutMs : option Q)
    (fuel : nat) (attempt : Z) (lastError : option Error) (previousDelay : Q)
  : M T :=
  match fuel with
  | O => throw (lastErrorOr lastError)
  | S fuel =>
      if (attempt <=? maxRetries)%Z then
        tryCatch
          (do result <~ attemptFn fn timeoutMs ;;
           exec budgetRecordOutcome true ;;
           ret result)
          (fun error =>
             let lastError := toError error in
             exec budgetRecordOutcome false ;;
             if (attempt >=? maxRetries)%Z then throw lastError
             else
               do again <~ retryIf lastError ;;
               if negb again then throw lastError
               else
                 do shouldRetry <~ budgetShouldRetry ;;
                 if negb shouldRetry then throw lastError
                 else
                   do delay <~ backoff attempt initialDelayMs maxDelayMs
                                 backoffMultiplier jitter previousDelay ;;
                   exec callOnRetry onRetry lastError (attempt + 1) delay ;;
                   exec sleep delay ;;
                   retryWithBudget_loop fn maxRetries initialDelayMs maxDelayMs
                     backoffMultiplier jitter retryIf onRetry timeoutMs
                     fuel (attempt + 1) (Some lastError) delay)
      else throw (lastErrorOr lastError)
  end.

(** [retryWithBudget(fn, budgetManager, options = {})]; the budget is
    the one of the world. *)
Definition retryWithBudget (fn : M (Promise T)) (options : RetryOptions) : M T :=
  let maxRetries := default 3%Z (maxRetries options) in
  let initialDelayMs := default 100 (initialDelayMs options) in
  let maxDelayMs := default 30000 (maxDelayMs options) in
  let backoffMultiplier := default 2 (backoffMultiplier options) in
  let jitter := default full (jitter options) in
  let retryIf := default defaultRetryIf (retryIf options) in
  retryWithBudget_loop fn maxRetries initialDelayMs maxDelayMs backoffMultiplier
    jitter retryIf (onRetry options) (timeoutMs options)
    (iterations maxRetries) 0 None initialDelayMs.

(** The [for] loop of [retryWithProtection]. *)
Fixpoint retryWithProtection_loop (fn : M (Promise T))
    (maxRetries : Z) (initialDelayMs maxDelayMs backoffMultiplier : Q)
    (jitter : JitterStrategy) (retryIf : Error -> M bool)
    (onRetry : option (Error -> Z -> Q -> M unit)) (timeoutMs : option Q)
    (fuel : nat) (attempt : Z) (lastError : option Error) (previousDelay : Q)
  : M T :=
  match fuel with
  | O => throw (lastErrorOr lastError)
  | S fuel =>
      if (attempt <=? maxRetries)%Z then
        tryCatch
          (do result <~ attemptFn fn timeoutMs ;;
           exec breakerRecordSuccess ;;
           exec budgetRecordOutcome true ;;
           ret result)
          (fun error =>
             let lastError := toError error in
             exec breakerRecordFailure ;;
             exec budgetRecordOutcome false ;;
             if (attempt >=? maxRetries)%Z then throw lastError
             else
               do again <~ retryIf lastError ;;
               if negb again then throw lastError
               else
                 do allowed <~ breakerIsAllowed ;;
                 if negb allowed then
                   throw (Breaker.CircuitOpenError
                            (Some "Circuit opened during retry sequence"))
                 else
                   do shouldRetry <~ budgetShouldRetry ;;
                   if negb shouldRetry then throw lastError
                   else
                     do delay <~ backoff attempt initialDelayMs maxDelayMs
                                   backoffMultiplier jitter previousDelay ;;
                     exec callOnRetry onRetry lastError (attempt + 1) delay ;;
                     exec sleep delay ;;
                     retryWithProtection_loop fn maxRetries initialDelayMs
                       maxDelayMs backoffMultiplier jitter retryIf onRetry
                       timeoutMs fuel (attempt + 1) (Some lastError) delay)
      else throw (lastErrorOr lastError)
  end.

(** [retryWithProtection(fn, { circuitBreaker, budget }, options = {})];
    breaker and budget are those of the world. *)
Definition retryWithProtection (fn : M (Promise T)) (options : RetryOptions)
  : M T :=
  let maxRetries := default 3%Z (maxRetries options) in
  let initialDelayMs := default 100 (initialDelayMs options) in
  let maxDelayMs := default 30000 (maxDelayMs options) in
  let backoffMultiplier := default 2 (backoffMultiplier options) in
  let jitter := default full (jitter options) in
  let retryIf := default defaultRetryIf (retryIf options) in
  do allowed <~ breakerIsAllowed ;;
  if negb allowed then throw (Breaker.CircuitOpenError None)
  else
    retryWithProtection_loop fn maxRetries initialDelayMs maxDelayMs
      backoffMultiplier jitter retryIf (onRetry options) (timeoutMs options)
      (iterations maxRetries) 0 None initialDelayMs.

(** [createRetryable(fn, options = {})] *)
Definition createRetryable {TArgs : Type} (fn : TArgs -> M (Promise T))
    (options : RetryOptions) : TArgs -> M T :=
  fun args => retry (fn args) options.

(** *** Notions used to state what a call does *)

(** The promise an attempt awaits: the one [fn] returned, raced against
    the timeout when one is set. *)
Definition raced (timeoutMs : option Q) (promise : Promise T) : Promise T :=
  match timeoutSet timeoutMs with
  | Some t => withTimeout promise t
  | None => promise
  end.

(** The promise is rejected. *)
Definition fails (promise : Promise T) : Prop :=
  exists error, settled promise = Throws error.

(** [fn] behaves as the script says: its next invocation returns the
    next promise of the script and counts as one invocation; it adds
    [counted] to the local [attempts] (1 for the [wrappedFn] of
    [retryWithResult], 0 for the operation itself). *)
Definition invokes (fn : M (Promise T)) (script : nat -> Promise T)
    (counted : nat) : Prop :=
  forall w, exists w',
    fn w = (Returns (script (fnCalls w)), w')
    /\ fnCalls w' = S (fnCalls w)
    /\ attempts w' = (attempts w + counted)%nat.

(** A computation that returns [a] and neither invokes the operation
    nor touches [attempts]. *)
Definition yields {A : Type} (c : M A) (a : A) : Prop :=
  forall w, exists w',
    c w = (Returns a, w')
    /\ fnCalls w' = fnCalls w /\ attempts w' = attempts w.

(** The retry predicate accepts every error. *)
Definition accepts (retryIf : Error -> M bool) : Prop :=
  forall error, yields (retryIf error) true.

(** The [onRetry] observer, when there is one, returns normally. *)
Definition observes (onRetry : option (Error -> Z -> Q -> M unit)) : Prop :=
  forall error attempt delay, yields (callOnRetry onRetry error attempt delay) tt.

End WithResultType.

(** The value a computation returned, if it returned. *)
Definition returned {A : Type} (c : Completion A) : option A :=
  match c with
  | Returns a => Some a
  | Throws _ => None
  end.

(** The number of [recordFailure()] calls, of [recordSuccess()] calls and of
    invocations of the operation in a trace. *)
Definition recordFailureCalls (events : list Event) : nat :=
  length (List.filter (fun e => match e with BreakerRecordFailure => true | _ => false end)
                      events).

Definition recordSuccessCalls (events : list Event) : nat :=
  length (List.filter (fun e => match e with BreakerRecordSuccess => true | _ => false end)
                      events).

Definition fnInvocations (events : list Event) : nat :=
  length (List.filter (fun e => match e with FnInvoked => true | _ => false end)
                      events).

(** A computation by which the three counts grow by [i], [f] and [s]. *)
Definition adds {A : Type} (c : M A) (i f s : nat) : Prop :=
  forall w,
    fnInvocations (trace (snd (c w))) = (fnInvocations (trace w) + i)%nat
    /\ recordFailureCalls (trace (snd (c w))) = (recordFailureCalls (trace w) + f)%nat
    /\ recordSuccessCalls (trace (snd (c w))) = (recordSuccessCalls (trace w) + s)%nat.

(** A callback that neither invokes the operation nor records an outcome
    on the breaker. *)
Definition silent {A : Type} (c : M A) : Prop := adds c 0 0 0.

(** A run from the world [w] in which every invocation of the operation is
    recorded on the breaker exactly once: the invocations made are as many
    as the calls of [recordFailure()] and [recordSuccess()] made, and
    [recordSuccess()] is called once if the run returns and not at all if
    it throws. *)
Definition recordsOnce {A : Type} (w : World) (run : Completion A * World) : Prop :=
  (fnInvocations (trace (snd run)) + recordFailureCalls (trace w)
   + recordSuccessCalls (trace w)
   = fnInvocations (trace w) + recordFailureCalls (trace (snd run))
     + recordSuccessCalls (trace (snd run)))%nat
  /\ recordSuccessCalls (trace (snd run))
     = (recordSuccessCalls (trace w)
        + if defined (returned (fst run)) then 1 else 0)%nat.

(** A computation that does not invoke the operation. *)
Definition invokesNothing {A : Type} (c : M A) : Prop :=
  forall w, fnInvocations (trace (snd (c w))) = fnInvocations (trace w).

(** [{ maxRetries: n }] *)
Definition onlyMaxRetries (n : Z) : RetryOptions :=
  {| maxRetries := Some n; initialDelayMs := None; maxDelayMs := None;
     backoffMultiplier := None; jitter := None; retryIf := None;
     onRetry := None; timeoutMs := None |}.

End Retry.

(** ** Sample values for the examples *)

Module Samples.
Import Js Retry.
Local Open Scope string_scope.

(** [new CircuitBreaker({ failureThreshold, windowSize, resetTimeoutMs })] *)
Definition breaker (failureThreshold : Q) (windowSize : nat) (resetTimeoutMs : Q)
  : Breaker.CircuitBreaker :=
  Breaker.new {| Breaker.opt_failureThreshold := Some failureThreshold;
                 Breaker.opt_windowSize := Some windowSize;
                 Breaker.opt_resetTimeoutMs := Some resetTimeoutMs |}.

(** A breaker opened by two failures at time 0, with a reset timeout of
    10 ms. *)
Definition openedBreaker : Breaker.CircuitBreaker :=
  Breaker.recordFailure 0 (Breaker.recordFailure 0 (breaker (1 # 2) 2 10)).

(** [new AdaptiveRetryBudget({ initialBudget })] at time 0 *)
Definition budgetOf (initialBudget : Q) : Budget.AdaptiveRetryBudget :=
  Budget.new 0 {| Budget.opt_initialBudget := Some initialBudget;
                  Budget.opt_budgetIncreaseRate := None;
                  Budget.opt_budgetDecreaseRate := None;
                  Budget.opt_highFailureThreshold := None;
                  Budget.opt_lowFailureThreshold := None;
                  Budget.opt_adjustmentIntervalMs := None |}.

(** A budget of 0.005 is used up by one admitted retry. *)
Definition spentBudget : Budget.AdaptiveRetryBudget :=
  Budget.perform (budgetOf (5 # 1000))
    (Budget.ShouldRetrySync {| draws := fun _ => 0; used := 0 |}).

(** [Math.random()] always drawing 1/2 *)
Definition halves : Rng := {| draws := fun _ => 1 # 2; used := 0 |}.

(** The world at time 0, with the given breaker and a default budget. *)
Definition world (cb : Breaker.CircuitBreaker) : World :=
  {| now := 0; rng := halves; fnCalls := 0; circuitBreaker := cb;
     budget := budgetOf (2 # 10); checkBackpressure := None;
     backpressureChecks := 0; attempts := 0; trace := [] |}.

(** An operation that rejects with [new Error('boom')] after 5 ms, every
    time. *)
Definition alwaysFails : nat -> Promise string :=
  fun _ => {| settlesAfter := 5;
              settled := Throws (ThrownError (newError "boom")) |}.

(** An operation that rejects twice and then resolves to ['ok']. *)
Definition failsTwice : nat -> Promise string :=
  fun i =>
    if (i <? 2)%nat
    then {| settlesAfter := 5; settled := Throws (ThrownError (newError "fail")) |}
    else {| settlesAfter := 5; settled := Returns "ok" |}.

(** The options [{ failureThreshold, windowSize, resetTimeoutMs }] of a
    breaker and [{ initialBudget }] of a budget. *)
Definition breakerOptions (failureThreshold : Q) (windowSize : nat) (resetTimeoutMs : Q)
  : Breaker.CircuitBreakerOptions :=
  {| Breaker.opt_failureThreshold := Some failureThreshold;
     Breaker.opt_windowSize := Some windowSize;
     Breaker.opt_resetTimeoutMs := Some resetTimeoutMs |}.



(** The world [w] with a backpressure check on the budget that always
    reports overload. *)
Definition backpressured (w : World) : World :=
  {| now := now w; rng := rng w; fnCalls := fnCalls w;
     circuitBreaker := circuitBreaker w; budget := budget w;
     checkBackpressure := Some (fun _ => true);
     backpressureChecks := backpressureChecks w; attempts := attempts w;
     trace := trace w |}.

(** An operation that resolves to ['late'] after 50 ms, every time. *)
Definition slow : nat -> Promise string :=
  fun _ => {| settlesAfter := 50; settled := Returns "late" |}.

(** [{ maxRetries: n, timeoutMs: t }] and [{ maxRetries: n, retryIf: () => false }] *)
Definition withTimeoutMs (n : Z) (t : Q) : RetryOptions :=
  {| maxRetries := Some n; initialDelayMs := None; maxDelayMs := None;
     backoffMultiplier := None; jitter := None; retryIf := None;
     onRetry := None; timeoutMs := Some t |}.

Definition neverRetry (n : Z) : RetryOptions :=
  {| maxRetries := Some n; initialDelayMs := None; maxDelayMs := None;
     backoffMultiplier := None; jitter := None; retryIf := Some (fun _ => ret false);
     onRetry := None; timeoutMs := None |}.

(** [{ maxMemoryMb }] for a load level calculator *)
Definition memoryLimit (maxMemoryMb : Q) : Backpressure.LoadLevelOptions :=
  {| Backpressure.maxConcurrentRequests := None;
     Backpressure.getCurrentRequests := None;
     Backpressure.maxMemoryMb := Some maxMemoryMb;
     Backpressure.maxCpuPercent := None;
     Backpressure.getCpuPercent := None |}.

End Samples.

(* ===================================================================== *)
(** * Part II: properties                                                 *)
(* ===================================================================== *)

Section JsProperties.
Import Js.

Lemma leb_le x y : leb x y = true <-> x <= y.
Proof. apply Qle_bool_iff. Qed.

Lemma ltb_lt x y : ltb x y = true <-> x < y.
Proof.
  unfold ltb. rewrite negb_true_iff, <- not_true_iff_false, Qle_bool_iff.
  split; [apply Qnot_le_lt | apply Qlt_not_le].
Qed.

End JsProperties.

Section BackoffProperties.
Import Js Backoff.

(** C8.  With [jitter = 'decorrelated'] and a supplied [previousDelay], the
    delay is [min(initialDelay + r * (3 * previousDelay - initialDelay),
    maxDelay)] where [r] is the draw that [Math.random()] returns, and
    exactly one draw is taken.  When [r] is in [0, 1) and
    [3 * previousDelay >= initialDelay], the value under the cap lies
    between [initialDelay] and [3 * previousDelay]. *)
Theorem C8_decorrelated_delay :
  forall (attempt : Z) (initialDelayMs maxDelayMs previousDelay : Q)
         (multiplier : option Q) (g : Rng),
    let r := fst (mathRandom g) in
    let uncapped := initialDelayMs + r * (3 * previousDelay - initialDelayMs) in
    let res := calculateBackoff attempt initialDelayMs maxDelayMs multiplier
                 (Some decorrelated) (Some previousDelay) g in
    fst res == Qmin uncapped maxDelayMs
    /\ snd res = snd (mathRandom g)
    /\ (unitDraw r -> initialDelayMs <= 3 * previousDelay ->
        initialDelayMs <= uncapped /\ uncapped <= 3 * previousDelay).
Proof.
  intros attempt i m p mult g r uncapped res.
  subst res. split; [| split].
  - change (Qmin (r * (p * 3 - i) + i) m == Qmin uncapped m).
    assert (E : r * (p * 3 - i) + i == uncapped) by (subst uncapped; ring).
    now rewrite E.
  - reflexivity.
  - intros [Hr0 Hr1] Hp. subst uncapped.
    assert (0 <= r * (3 * p - i)) by (apply Qmult_le_0_compat; lra).
    assert (r * (3 * p - i) <= 1 * (3 * p - i)).
    { apply Qmult_le_compat_r; lra. }
    split; lra.
Qed.

End BackoffProperties.

Section BreakerProperties.
Import Js Breaker.

Lemma getState_half_open now cb :
  state cb = half_open -> getState now cb = (half_open, cb).
Proof. intros H. unfold getState. rewrite H. simpl. now rewrite H. Qed.

Lemma transition_changes newState cb :
  state cb <> newState ->
  state (transition newState cb) = newState
  /\ halfOpenAttempts (transition newState cb) = 0%nat.
Proof.
  intros H. unfold transition.
  destruct (state cb) eqn:E, newState; simpl; try rewrite E; auto; congruence.
Qed.

Lemma getState_resolves now cb :
  snd (getState now cb) = if resetDue now cb then transition half_open cb else cb.
Proof.
  unfold getState, resetDue.
  destruct (CircuitState_eqb (state cb) open); simpl; [| reflexivity].
  now destruct (leb (resetTimeoutMs cb) (now - lastFailureTime cb)).
Qed.

Lemma getState_fst now cb : fst (getState now cb) = state (snd (getState now cb)).
Proof. reflexivity. Qed.

(** In [half-open] with [n] calls already counted, later calls are
    answered [false] once [n] is at least 1. *)
Lemma isAllowed_calls_half_open times :
  forall cb, state cb = half_open -> (1 <= halfOpenAttempts cb)%nat ->
  fst (isAllowed_calls times cb) = repeat false (length times).
Proof.
  induction times as [| t times IH]; intros cb Hs Hn; [reflexivity |].
  simpl. unfold isAllowed. rewrite (getState_half_open t cb Hs).
  set (cb1 := set_halfOpenAttempts (halfOpenAttempts cb + 1) cb).
  specialize (IH cb1 Hs ltac:(simpl; lia)).
  destruct (isAllowed_calls times cb1) as [answers cb2]. simpl in *.
  rewrite IH. f_equal. apply Nat.leb_gt. lia.
Qed.

Lemma isAllowed_calls_entered t times cb :
  state cb = half_open -> halfOpenAttempts cb = 0%nat ->
  fst (isAllowed_calls (t :: times) cb) = true :: repeat false (length times).
Proof.
  intros Hs Hn. simpl. unfold isAllowed. rewrite (getState_half_open t cb Hs).
  set (cb1 := set_halfOpenAttempts (halfOpenAttempts cb + 1) cb).
  pose proof (isAllowed_calls_half_open times cb1 Hs ltac:(simpl; lia)) as IH.
  destruct (isAllowed_calls times cb1) as [answers cb2]. simpl in *.
  rewrite IH, Hn. reflexivity.
Qed.

(** C6.  [isAllowed()] first resolves the pending time-based transition:
    when the state is [open] and [now - lastFailureTime >= resetTimeoutMs]
    the breaker goes to [half-open].  On the state so reached it answers
    [true] in [closed], [false] in [open], and in [half-open] it counts
    the call and answers [true] exactly when no call was counted before.
    Every transition to a different state sets the counter to 0.  Hence,
    from the moment [half-open] is entered (by [transition], or by the
    call of [isAllowed()] that resolves the pending transition), the first
    call of [isAllowed()] answers [true] and every later one [false]. *)
Theorem C6_isAllowed_by_state :
  forall (now : Q) (cb : CircuitBreaker),
    let resolved := if resetDue now cb then transition half_open cb else cb in
    snd (getState now cb) = resolved
    /\ (state resolved = closed -> isAllowed now cb = (true, resolved))
    /\ (state resolved = open -> isAllowed now cb = (false, resolved))
    /\ (state resolved = half_open ->
        isAllowed now cb
        = ((halfOpenAttempts resolved =? 0)%nat,
           set_halfOpenAttempts (halfOpenAttempts resolved + 1) resolved))
    /\ (forall newState, state cb <> newState ->
        state (transition newState cb) = newState
        /\ halfOpenAttempts (transition newState cb) = 0%nat)
    /\ (forall times, state cb <> half_open ->
        fst (isAllowed_calls (now :: times) (transition half_open cb))
        = true :: repeat false (length times))
    /\ (forall times, resetDue now cb = true ->
        fst (isAllowed_calls (now :: times) cb)
        = true :: repeat false (length times)).
Proof.
  intros now cb resolved.
  assert (Hres : snd (getState now cb) = resolved) by apply getState_resolves.
  assert (Hget : getState now cb = (state resolved, resolved)).
  { rewrite <- Hres. reflexivity. }
  split; [exact Hres |].
  split; [| split; [| split; [| split; [| split]]]].
  - intros H. unfold isAllowed. rewrite Hget, H. reflexivity.
  - intros H. unfold isAllowed. rewrite Hget, H. reflexivity.
  - intros H. unfold isAllowed. rewrite Hget, H. simpl. f_equal.
    destruct (halfOpenAttempts resolved) as [| n]; [reflexivity |].
    transitivity false; [apply Nat.leb_gt; lia | reflexivity].
  - intros newState H. now apply transition_changes.
  - intros times H.
    destruct (transition_changes half_open cb H) as [Hs Hn].
    now apply isAllowed_calls_entered.
  - intros times Hdue.
    assert (Hopen : state cb = open).
    { unfold resetDue in Hdue. apply andb_true_iff in Hdue as [Hdue _].
      now destruct (state cb). }
    assert (Hne : state cb <> half_open) by (rewrite Hopen; discriminate).
    destruct (transition_changes half_open cb Hne) as [Hs Hn].
    rewrite <- (isAllowed_calls_entered now times _ Hs Hn).
    assert (E : isAllowed now cb = isAllowed now (transition half_open cb)).
    { unfold isAllowed. rewrite Hget, (getState_half_open now _ Hs).
      subst resolved. rewrite Hdue, Hs. reflexivity. }
    simpl. now rewrite E.
Qed.

End BreakerProperties.

Section BudgetProperties.
Import Js Budget.

Lemma shouldRetrySync_cases g b :
  shouldRetrySync g b
  = if leb (budget b) 0 then (false, b, g)
    else if ltb (fst (mathRandom g)) (Qmin (budget b) (1 - failureRate b))
         then (true,
               set_counters (totalRequests b) (successfulRequests b)
                 (failedRequests b) (totalRetries b + 1)
                 (set_budget (Qmax 0 (budget b - (1 # 100))) b),
               snd (mathRandom g))
         else (false, b, snd (mathRandom g)).
Proof. reflexivity. Qed.

Lemma shouldRetry_cases isBackpressured g b :
  shouldRetry isBackpressured g b
  = match isBackpressured with
    | Some true => (false, b, g)
    | _ => shouldRetrySync g b
    end.
Proof. destruct isBackpressured as [[|] |]; reflexivity. Qed.

(** C5.  With [budget <= 0], [shouldRetry()] and [shouldRetrySync()]
    answer [false], whatever the backpressure check says, whatever
    [Math.random()] would draw and whatever the failure rate is. *)
Theorem C5_no_retry_without_budget :
  forall (b : AdaptiveRetryBudget) (isBackpressured : option bool) (g : Rng),
    budget b <= 0 ->
    fst (fst (shouldRetry isBackpressured g b)) = false
    /\ fst (fst (shouldRetrySync g b)) = false.
Proof.
  intros b bp g Hb.
  assert (Hsync : fst (fst (shouldRetrySync g b)) = false).
  { rewrite shouldRetrySync_cases.
    apply leb_le in Hb. now rewrite Hb. }
  split; [| exact Hsync].
  rewrite shouldRetry_cases. now destruct bp as [[|] |].
Qed.

(** C10.  A call of [shouldRetry()] or [shouldRetrySync()] that answers
    [false] returns the budget object as it was, field for field.  A call
    that answers [true] has debited 0.01 from [budget] (not below 0) and
    added 1 to [totalRetries], and has changed nothing else. *)
Theorem C10_denied_retry_changes_nothing :
  forall (b : AdaptiveRetryBudget) (isBackpressured : option bool) (g : Rng),
    let admitted :=
      set_counters (totalRequests b) (successfulRequests b)
        (failedRequests b) (totalRetries b + 1)
        (set_budget (Qmax 0 (budget b - (1 # 100))) b) in
    let after (call : bool * AdaptiveRetryBudget * Rng) :=
      snd (fst call) = (if fst (fst call) then admitted else b)
      /\ totalRetries (snd (fst call))
         = (totalRetries b + if fst (fst call) then 1 else 0)%nat in
    after (shouldRetry isBackpressured g b) /\ after (shouldRetrySync g b).
Proof.
  intros b bp g admitted after.
  assert (Hsync : after (shouldRetrySync g b)).
  { unfold after. rewrite shouldRetrySync_cases.
    destruct (leb (budget b) 0); simpl; [split; [reflexivity | lia] |].
    destruct (ltb _ _); simpl; split; try reflexivity; lia. }
  split; [| exact Hsync].
  unfold after. rewrite shouldRetry_cases.
  destruct bp as [[|] |]; try exact Hsync.
  simpl. split; [reflexivity | lia].
Qed.

(** Case analysis on the tests of a method body. *)
Ltac split_tests :=
  repeat match goal with
         | |- context [if ?c then _ else _] => destruct c
         | |- context [match ?o with Some _ => _ | None => _ end] => destruct o
         end.

Lemma perform_keeps_configuration b op :
  initialBudget (perform b op) = initialBudget b
  /\ budgetIncreaseRate (perform b op) = budgetIncreaseRate b
  /\ budgetDecreaseRate (perform b op) = budgetDecreaseRate b.
Proof.
  destruct op as [bp g | g | success | | |]; simpl;
    rewrite ?shouldRetry_cases, ?shouldRetrySync_cases;
    unfold recordOutcome, dispose, timerFires, adjustBudget;
    split_tests; simpl; auto.
Qed.

Lemma debit_in_range b :
  budgetInRange b ->
  0 <= Qmax 0 (budget b - (1 # 100))
  /\ Qmax 0 (budget b - (1 # 100)) <= initialBudget b.
Proof.
  intros [H0 H1]. split.
  - apply Q.le_max_l.
  - apply Q.max_lub; lra.
Qed.

Lemma adjustBudget_in_range b :
  documentedRanges b -> budgetInRange b -> budgetInRange (adjustBudget b).
Proof.
  intros (Hi & Hinc & Hd0 & Hd1) [H0 H1].
  unfold adjustBudget, budgetInRange.
  destruct (ltb (highFailureThreshold b) (failureRate b)).
  - assert (0 <= budget b * (1 - budgetDecreaseRate b))
      by (apply Qmult_le_0_compat; lra).
    assert (budget b * (1 - budgetDecreaseRate b) <= budget b * 1).
    { rewrite !(Qmult_comm (budget b)). apply Qmult_le_compat_r; lra. }
    destruct (ltb _ _); simpl; split; lra.
  - destruct (ltb (failureRate b) (lowFailureThreshold b)).
    + assert (0 <= Qmin (initialBudget b) (budget b + budgetIncreaseRate b))
        by (apply Q.min_glb; lra).
      assert (Qmin (initialBudget b) (budget b + budgetIncreaseRate b)
              <= initialBudget b) by apply Q.le_min_l.
      destruct (ltb _ _); simpl; split; assumption.
    + destruct (ltb _ _); simpl; split; assumption.
Qed.

Lemma perform_in_range b op :
  documentedRanges b -> budgetInRange b -> budgetInRange (perform b op).
Proof.
  intros Hdoc Hin.
  pose proof (debit_in_range b Hin) as Hdebit.
  assert (Hsync : forall g, budgetInRange (snd (fst (shouldRetrySync g b)))).
  { intros g. rewrite shouldRetrySync_cases.
    destruct (leb _ _); [exact Hin |]. destruct (ltb _ _); [| exact Hin].
    exact Hdebit. }
  destruct op as [bp g | g | success | | |]; simpl.
  - rewrite shouldRetry_cases. destruct bp as [[|] |]; auto.
  - apply Hsync.
  - unfold recordOutcome. destruct success; exact Hin.
  - destruct Hdoc as (Hi & _). split; simpl; lra.
  - unfold dispose. destruct (adjustmentTimer b); exact Hin.
  - unfold timerFires. destruct (adjustmentTimer b); [| exact Hin].
    apply (adjustBudget_in_range b Hdoc Hin).
Qed.

Lemma perform_documentedRanges b op :
  documentedRanges b -> documentedRanges (perform b op).
Proof.
  unfold documentedRanges.
  destruct (perform_keeps_configuration b op) as (-> & -> & ->). auto.
Qed.

Lemma operations_in_range ops :
  forall b, documentedRanges b -> budgetInRange b ->
  documentedRanges (fold_left perform ops b)
  /\ budgetInRange (fold_left perform ops b).
Proof.
  induction ops as [| op ops IH]; intros b Hdoc Hin; simpl; [now split |].
  apply IH; [now apply perform_documentedRanges | now apply perform_in_range].
Qed.

(** C4.  For options in the documented ranges ([initialBudget >= 0],
    [budgetIncreaseRate >= 0], [0 <= budgetDecreaseRate <= 1]): the
    constructor sets [budget] to [initialBudget]; after any sequence of
    operations on the object (calls of [shouldRetry], [shouldRetrySync],
    [recordOutcome], [reset], [dispose] and firings of the adjustment
    timer) [budget] is in [0, initialBudget], and [initialBudget] is the
    one configured; a debit is floored at 0; [adjustBudget] keeps the
    range; [reset] puts [budget] back to [initialBudget]. *)
Theorem C4_budget_stays_in_range :
  forall (now : Q) (options : AdaptiveRetryOptions) (ops : list Operation),
    documentedRanges (new now options) ->
    let b := fold_left perform ops (new now options) in
    budget (new now options) = initialBudget (new now options)
    /\ initialBudget b = initialBudget (new now options)
    /\ 0 <= budget b /\ budget b <= initialBudget b
    /\ (forall isBackpressured g,
          0 <= budget (perform b (ShouldRetry isBackpressured g))
          /\ budget (perform b (ShouldRetry isBackpressured g)) <= budget b)
    /\ (forall g,
          0 <= budget (perform b (ShouldRetrySync g))
          /\ budget (perform b (ShouldRetrySync g)) <= budget b)
    /\ budgetInRange (adjustBudget b)
    /\ budget (reset b) = initialBudget b.
Proof.
  intros now options ops Hdoc b.
  assert (Hnew : budgetInRange (new now options)).
  { destruct Hdoc as (Hi & _). split; simpl in *; lra. }
  destruct (operations_in_range ops _ Hdoc Hnew) as [Hdocb Hinb].
  fold b in Hdocb, Hinb.
  assert (Hconf : initialBudget b = initialBudget (new now options)).
  { subst b. clear. induction ops as [| op ops IH] using rev_ind; [reflexivity |].
    rewrite fold_left_app. simpl.
    destruct (perform_keeps_configuration (fold_left perform ops (new now options)) op)
      as (-> & _). exact IH. }
  assert (Hsync : forall g,
            0 <= budget (perform b (ShouldRetrySync g))
            /\ budget (perform b (ShouldRetrySync g)) <= budget b).
  { intros g. simpl. rewrite shouldRetrySync_cases.
    destruct Hinb as [H0 H1].
    destruct (leb _ _); simpl; [lra |].
    destruct (ltb _ _); simpl; [| lra].
    split; [apply Q.le_max_l | apply Q.max_lub; lra]. }
  split; [reflexivity |].
  split; [exact Hconf |].
  split; [apply Hinb |]. split; [apply Hinb |].
  split; [| split; [exact Hsync | split]].
  - intros bp g. simpl. rewrite shouldRetry_cases.
    destruct bp as [[|] |]; try apply (Hsync g).
    simpl. destruct Hinb. lra.
  - now apply adjustBudget_in_range.
  - reflexivity.
Qed.

End BudgetProperties.

Section BackpressureProperties.
Import Js Backpressure.
Local Open Scope string_scope.

Variable parseFloat : string -> number.

(** C9 (amended).  [recordFromHeaders] stores a signal exactly when the
    load-level header is present with a non-empty value, or the
    retry-after header is present with a non-empty value, or the shedding
    header is the string [true] or [1].  The signal stored for the id has
    [isOverloaded = shedding OR (loadLevel present AND loadLevel >=
    overloadThreshold)], carries the parsed values and the time of the
    call, and the signals of other ids are kept.  Otherwise the manager is
    unchanged, so a signal recorded earlier for the id stays. *)
Theorem C9_recordFromHeaders_meaningful :
  forall (now : Q) (serviceId : string) (headers : HeaderBag)
         (m : BackpressureManager),
    let loadLevelStr := get headers LOAD_LEVEL in
    let retryAfterStr := get headers RETRY_AFTER in
    let sheddingStr := get headers SHEDDING in
    let shedding :=
      bool_decide (sheddingStr = Some "true") || bool_decide (sheddingStr = Some "1") in
    let meaningful := truthy loadLevelStr || truthy retryAfterStr || shedding in
    let m' := recordFromHeaders parseFloat now serviceId headers m in
    (meaningful = true ->
       (exists signal,
          signals m' !! serviceId = Some signal
          /\ timestamp signal = now
          /\ loadLevel signal
             = (if truthy loadLevelStr then parseFloat <$> loadLevelStr else None)
          /\ retryAfterMs signal
             = (if truthy retryAfterStr
                then (fun v => times1000 (parseFloat v)) <$> retryAfterStr
                else None)
          /\ isOverloaded signal
             = (shedding
                || match loadLevel signal with
                   | Some level => number_ge level (overloadThreshold m)
                   | None => false
                   end))
       /\ (forall other, other <> serviceId ->
           signals m' !! other = signals m !! other)
       /\ signalTtlMs m' = signalTtlMs m
       /\ overloadThreshold m' = overloadThreshold m)
    /\ (meaningful = false -> m' = m).
Proof.
  intros now serviceId headers m loadLevelStr retryAfterStr sheddingStr
         shedding meaningful m'.
  assert (Hdef : forall (B : Type) (f : string -> B) (o : option string),
             defined (if truthy o then f <$> o else None) = truthy o).
  { intros B f [[| c rest] |]; reflexivity. }
  assert (Htest :
    defined (if truthy loadLevelStr then parseFloat <$> loadLevelStr else None)
    || defined (if truthy retryAfterStr
                then (fun v => times1000 (parseFloat v)) <$> retryAfterStr
                else None)
    || shedding = meaningful).
  { unfold meaningful.
    now rewrite (Hdef _ parseFloat),
                (Hdef _ (fun v => times1000 (parseFloat v))). }
  assert (Hm' : m' =
    if meaningful then
      recordSignal now serviceId
        (shedding ||
         match (if truthy loadLevelStr then parseFloat <$> loadLevelStr else None) with
         | Some l => number_ge l (overloadThreshold m)
         | None => false
         end)
        (if truthy loadLevelStr then parseFloat <$> loadLevelStr else None)
        (if truthy retryAfterStr
         then (fun v => times1000 (parseFloat v)) <$> retryAfterStr
         else None) m
    else m).
  { rewrite <- Htest. reflexivity. }
  split; intros Hmeaning; rewrite Hmeaning in Hm'; [| exact Hm'].
  rewrite Hm'. unfold recordSignal. simpl. split; [| split; [| split]].
  - eexists. split; [apply lookup_insert_eq |]. simpl. repeat split.
  - intros other Hother. now apply lookup_insert_ne.
  - reflexivity.
  - reflexivity.
Qed.

End BackpressureProperties.

Section RetryLoop.
Import Js Backoff Retry.

Context {T : Type}.
Variables (fn : M (Promise T)) (script : nat -> Promise T) (counted : nat).
Variables (maxRetries : Z) (initialDelayMs maxDelayMs backoffMultiplier : Q).
Variables (jitter : JitterStrategy) (retryIf : Error -> M bool).
Variables (onRetry : option (Error -> Z -> Q -> M unit)) (timeoutMs : option Q).

Hypothesis fn_invokes : invokes fn script counted.
Hypothesis retryIf_accepts : accepts retryIf.
Hypothesis onRetry_observes : observes onRetry.

Let loop := retry_loop fn maxRetries initialDelayMs maxDelayMs backoffMultiplier
              jitter retryIf onRetry timeoutMs.

(** One attempt: [fn] is invoked once and its promise, raced against the
    timeout, is awaited. *)
Lemma attemptFn_runs w :
  exists w',
    attemptFn fn timeoutMs w = (settled (raced timeoutMs (script (fnCalls w))), w')
    /\ fnCalls w' = S (fnCalls w)
    /\ attempts w' = (attempts w + counted)%nat.
Proof.
  destruct (fn_invokes w) as (w1 & Hfn & Hcalls & Hattempts).
  unfold attemptFn, raced.
  destruct (timeoutSet timeoutMs) as [t |]; unfold bind, await; rewrite Hfn;
    eexists; (split; [reflexivity |]); simpl; auto.
Qed.

Lemma backoff_runs attempt previousDelay w :
  exists delay w',
    backoff attempt initialDelayMs maxDelayMs backoffMultiplier jitter
      previousDelay w = (Returns delay, w')
    /\ fnCalls w' = fnCalls w /\ attempts w' = attempts w.
Proof.
  unfold backoff. destruct (calculateBackoff _ _ _ _ _ _ _) as [delay g].
  now exists delay, (set_rng g w).
Qed.

(** A failed attempt that is not the last one leads to the next
    iteration, with the error remembered. *)
Lemma retry_loop_retries fuel attempt lastError previousDelay w error :
  (attempt < maxRetries)%Z ->
  settled (raced timeoutMs (script (fnCalls w))) = Throws error ->
  exists delay w',
    loop (S fuel) attempt lastError previousDelay w
    = loop fuel (attempt + 1)%Z (Some (toError error)) delay w'
    /\ fnCalls w' = S (fnCalls w)
    /\ attempts w' = (attempts w + counted)%nat.
Proof.
  intros Hlt Hsettled.
  destruct (attemptFn_runs w) as (w1 & Hrun & Hc1 & Ha1).
  destruct (retryIf_accepts (toError error) w1) as (w2 & Hif & Hc2 & Ha2).
  destruct (backoff_runs attempt previousDelay w2) as (delay & w3 & Hb & Hc3 & Ha3).
  destruct (onRetry_observes (toError error) (attempt + 1)%Z delay w3)
    as (w4 & Hon & Hc4 & Ha4).
  exists delay, (elapse delay (log (Slept delay) w4)).
  split; [| split; simpl; congruence].
  subst loop. cbn [retry_loop].
  replace (attempt <=? maxRetries)%Z with true by (symmetry; apply Z.leb_le; lia).
  unfold tryCatch at 1. rewrite Hrun, Hsettled.
  replace (attempt >=? maxRetries)%Z with false by (symmetry; rewrite Z.geb_leb; apply Z.leb_gt; lia).
  unfold bind at 1. rewrite Hif. cbn [negb].
  unfold bind at 1. rewrite Hb.
  unfold bind at 1. rewrite Hon.
  unfold bind at 1. unfold sleep at 1. reflexivity.
Qed.

(** The last attempt, when it fails, ends the call with its error. *)
Lemma retry_loop_gives_up fuel lastError previousDelay w error :
  (0 <= maxRetries)%Z ->
  settled (raced timeoutMs (script (fnCalls w))) = Throws error ->
  exists w',
    loop (S fuel) maxRetries lastError previousDelay w
    = (Throws (ThrownError (toError error)), w')
    /\ fnCalls w' = S (fnCalls w)
    /\ attempts w' = (attempts w + counted)%nat.
Proof.
  intros Hm Hsettled.
  destruct (attemptFn_runs w) as (w1 & Hrun & Hc1 & Ha1).
  exists w1. split; [| now split].
  subst loop. cbn [retry_loop].
  rewrite Z.leb_refl.
  unfold tryCatch. rewrite Hrun, Hsettled.
  replace (maxRetries >=? maxRetries)%Z with true
    by (symmetry; rewrite Z.geb_leb; apply Z.leb_refl).
  reflexivity.
Qed.

(** A successful attempt ends the call with its value. *)
Lemma retry_loop_returns fuel attempt lastError previousDelay w value :
  (attempt <= maxRetries)%Z ->
  settled (raced timeoutMs (script (fnCalls w))) = Returns value ->
  exists w',
    loop (S fuel) attempt lastError previousDelay w = (Returns value, w')
    /\ fnCalls w' = S (fnCalls w)
    /\ attempts w' = (attempts w + counted)%nat.
Proof.
  intros Hle Hsettled.
  destruct (attemptFn_runs w) as (w1 & Hrun & Hc1 & Ha1).
  exists w1. split; [| now split].
  subst loop. cbn [retry_loop].
  replace (attempt <=? maxRetries)%Z with true by (symmetry; apply Z.leb_le; lia).
  unfold tryCatch. now rewrite Hrun, Hsettled.
Qed.

(** [k] failures followed by a success, with enough attempts left. *)
Lemma retry_loop_succeeds_after k :
  forall fuel attempt lastError previousDelay w value,
    (attempt + Z.of_nat k <= maxRetries)%Z ->
    (k < fuel)%nat ->
    (forall i, (i < k)%nat ->
               fails (raced timeoutMs (script (fnCalls w + i)))) ->
    settled (raced timeoutMs (script (fnCalls w + k))) = Returns value ->
    exists w',
      loop fuel attempt lastError previousDelay w = (Returns value, w')
      /\ fnCalls w' = (fnCalls w + k + 1)%nat
      /\ attempts w' = (attempts w + counted * (k + 1))%nat.
Proof.
  induction k as [| k IH]; intros fuel attempt lastError previousDelay w value
                                  Hle Hfuel Hfails Hok.
  - destruct fuel as [| fuel]; [lia |].
    rewrite Nat.add_0_r in Hok.
    destruct (retry_loop_returns fuel attempt lastError previousDelay w value
                ltac:(lia) Hok) as (w' & Hrun & Hc & Ha).
    exists w'. split; [exact Hrun | split; lia].
  - destruct fuel as [| fuel]; [lia |].
    destruct (Hfails 0%nat ltac:(lia)) as [error Herror].
    rewrite Nat.add_0_r in Herror.
    destruct (retry_loop_retries fuel attempt lastError previousDelay w error
                ltac:(lia) Herror) as (delay & w1 & Hstep & Hc1 & Ha1).
    destruct (IH fuel (attempt + 1)%Z (Some (toError error)) delay w1 value)
      as (w' & Hrun & Hc & Ha).
    + lia.
    + lia.
    + intros i Hi. rewrite Hc1.
      replace (S (fnCalls w) + i)%nat with (fnCalls w + S i)%nat by lia.
      apply Hfails. lia.
    + rewrite Hc1.
      now replace (S (fnCalls w) + k)%nat with (fnCalls w + S k)%nat by lia.
    + exists w'. rewrite Hstep. split; [exact Hrun | split; lia].
Qed.

(** Failures only: the call makes every attempt it has and ends with the
    error of the last one. *)
Lemma retry_loop_exhausts n :
  forall fuel attempt lastError previousDelay w,
    (0 <= attempt)%Z ->
    (attempt + Z.of_nat n = maxRetries)%Z ->
    (n < fuel)%nat ->
    (forall i, (i <= n)%nat ->
               fails (raced timeoutMs (script (fnCalls w + i)))) ->
    exists w' error,
      loop fuel attempt lastError previousDelay w
      = (Throws (ThrownError (toError error)), w')
      /\ settled (raced timeoutMs (script (fnCalls w + n))) = Throws error
      /\ fnCalls w' = (fnCalls w + n + 1)%nat
      /\ attempts w' = (attempts w + counted * (n + 1))%nat.
Proof.
  induction n as [| n IH]; intros fuel attempt lastError previousDelay w
                                  H0 Hlast Hfuel Hfails.
  - destruct fuel as [| fuel]; [lia |].
    destruct (Hfails 0%nat ltac:(lia)) as [error Herror].
    assert (attempt = maxRetries) as -> by lia.
    pose proof Herror as Herror'. rewrite Nat.add_0_r in Herror'.
    destruct (retry_loop_gives_up fuel lastError previousDelay w error
                ltac:(lia) Herror') as (w' & Hrun & Hc & Ha).
    exists w', error. split; [exact Hrun | split; [exact Herror | split; lia]].
  - destruct fuel as [| fuel]; [lia |].
    destruct (Hfails 0%nat ltac:(lia)) as [error Herror].
    rewrite Nat.add_0_r in Herror.
    destruct (retry_loop_retries fuel attempt lastError previousDelay w error
                ltac:(lia) Herror) as (delay & w1 & Hstep & Hc1 & Ha1).
    destruct (IH fuel (attempt + 1)%Z (Some (toError error)) delay w1)
      as (w' & last & Hrun & Hlasterr & Hc & Ha).
    + lia.
    + lia.
    + lia.
    + intros i Hi. rewrite Hc1.
      replace (S (fnCalls w) + i)%nat with (fnCalls w + S i)%nat by lia.
      apply Hfails. lia.
    + exists w', last. rewrite Hstep. split; [exact Hrun |].
      split; [| split; lia].
      rewrite Hc1 in Hlasterr.
      now replace (S (fnCalls w) + n)%nat with (fnCalls w + S n)%nat in Hlasterr by lia.
Qed.

End RetryLoop.

Section LoopBound.
Import Js Backoff Retry.

Lemma bind_ext {A B : Type} (c : M A) (k1 k2 : A -> M B) w :
  (forall a w', k1 a w' = k2 a w') -> bind c k1 w = bind c k2 w.
Proof.
  intros H. unfold bind. destruct (c w) as [[a | error] w']; [apply H | reflexivity].
Qed.

Lemma tryCatch_ext {A : Type} (body : M A) (h1 h2 : Thrown -> M A) w :
  (forall error w', h1 error w' = h2 error w') ->
  tryCatch body h1 w = tryCatch body h2 w.
Proof.
  intros H. unfold tryCatch.
  destruct (body w) as [[a | error] w']; [reflexivity | apply H].
Qed.

Context {T : Type}.
Variables (fn : M (Promise T)) (maxRetries : Z).
Variables (initialDelayMs maxDelayMs backoffMultiplier : Q) (jitter : JitterStrategy).
Variables (retryIf : Error -> M bool).
Variables (onRetry : option (Error -> Z -> Q -> M unit)) (timeoutMs : option Q).

(** The iterations a loop [for (...; attempt <= maxRetries; attempt++)] has
    left when it is at [attempt]. *)
Let left (attempt : Z) : nat := Z.to_nat (maxRetries + 1 - attempt).

(** Both sides run the same computation first: compare what follows. *)
Ltac same_step :=
  lazymatch goal with
  | |- bind _ _ _ = bind _ _ _ => apply bind_ext; intros ? ?
  | |- tryCatch _ _ _ = tryCatch _ _ _ => apply tryCatch_ext; intros ? ?
  | |- (if ?b then _ else _) _ = (if ?b then _ else _) _ => destruct b
  | |- _ => reflexivity
  end.

(** The bound [fuel] of the loops is the number of iterations the [for]
    statement makes: more fuel than that changes nothing, so the loops end
    on their own condition [attempt <= maxRetries] and never for lack of
    fuel. *)
Lemma retry_loop_bound fuel :
  forall attempt lastError previousDelay w,
    (left attempt <= fuel)%nat ->
    retry_loop fn maxRetries initialDelayMs maxDelayMs backoffMultiplier jitter
      retryIf onRetry timeoutMs fuel attempt lastError previousDelay w
    = retry_loop fn maxRetries initialDelayMs maxDelayMs backoffMultiplier jitter
        retryIf onRetry timeoutMs (left attempt) attempt lastError previousDelay w.
Proof.
  subst left.
  induction fuel as [| fuel IH]; intros attempt lastError previousDelay w Hfuel.
  - now replace (Z.to_nat (maxRetries + 1 - attempt)) with 0%nat by lia.
  - destruct (Z.leb_spec attempt maxRetries) as [Hle | Hgt].
    + replace (Z.to_nat (maxRetries + 1 - attempt))
        with (S (Z.to_nat (maxRetries + 1 - (attempt + 1)))) by lia.
      cbn [retry_loop].
      replace (attempt <=? maxRetries)%Z with true by (symmetry; apply Z.leb_le; lia).
      repeat (same_step; try (apply IH; lia)).
    + replace (Z.to_nat (maxRetries + 1 - attempt)) with 0%nat by lia.
      cbn [retry_loop].
      now replace (attempt <=? maxRetries)%Z with false by (symmetry; apply Z.leb_gt; lia).
Qed.

Lemma retryWithProtection_loop_bound fuel :
  forall attempt lastError previousDelay w,
    (left attempt <= fuel)%nat ->
    retryWithProtection_loop fn maxRetries initialDelayMs maxDelayMs
      backoffMultiplier jitter retryIf onRetry timeoutMs fuel attempt lastError
      previousDelay w
    = retryWithProtection_loop fn maxRetries initialDelayMs maxDelayMs
        backoffMultiplier jitter retryIf onRetry timeoutMs (left attempt) attempt
        lastError previousDelay w.
Proof.
  subst left.
  induction fuel as [| fuel IH]; intros attempt lastError previousDelay w Hfuel.
  - now replace (Z.to_nat (maxRetries + 1 - attempt)) with 0%nat by lia.
  - destruct (Z.leb_spec attempt maxRetries) as [Hle | Hgt].
    + replace (Z.to_nat (maxRetries + 1 - attempt))
        with (S (Z.to_nat (maxRetries + 1 - (attempt + 1)))) by lia.
      cbn [retryWithProtection_loop].
      replace (attempt <=? maxRetries)%Z with true by (symmetry; apply Z.leb_le; lia).
      repeat (same_step; try (apply IH; lia)).
    + replace (Z.to_nat (maxRetries + 1 - attempt)) with 0%nat by lia.
      cbn [retryWithProtection_loop].
      now replace (attempt <=? maxRetries)%Z with false by (symmetry; apply Z.leb_gt; lia).
Qed.

Lemma retryWithBudget_loop_bound fuel :
  forall attempt lastError previousDelay w,
    (left attempt <= fuel)%nat ->
    retryWithBudget_loop fn maxRetries initialDelayMs maxDelayMs
      backoffMultiplier jitter retryIf onRetry timeoutMs fuel attempt lastError
      previousDelay w
    = retryWithBudget_loop fn maxRetries initialDelayMs maxDelayMs
        backoffMultiplier jitter retryIf onRetry timeoutMs (left attempt) attempt
        lastError previousDelay w.
Proof.
  subst left.
  induction fuel as [| fuel IH]; intros attempt lastError previousDelay w Hfuel.
  - now replace (Z.to_nat (maxRetries + 1 - attempt)) with 0%nat by lia.
  - destruct (Z.leb_spec attempt maxRetries) as [Hle | Hgt].
    + replace (Z.to_nat (maxRetries + 1 - attempt))
        with (S (Z.to_nat (maxRetries + 1 - (attempt + 1)))) by lia.
      cbn [retryWithBudget_loop].
      replace (attempt <=? maxRetries)%Z with true by (symmetry; apply Z.leb_le; lia).
      repeat (same_step; try (apply IH; lia)).
    + replace (Z.to_nat (maxRetries + 1 - attempt)) with 0%nat by lia.
      cbn [retryWithBudget_loop].
      now replace (attempt <=? maxRetries)%Z with false by (symmetry; apply Z.leb_gt; lia).
Qed.

End LoopBound.

Section RetryProperties.
Import Js Backoff Retry.

Context {T : Type}.

Lemma scripted_invokes (script : nat -> Promise T) :
  invokes (scripted script) script 0.
Proof.
  intros w. eexists. split; [reflexivity |]. simpl. split; lia.
Qed.

Lemma defaultRetryIf_accepts : accepts defaultRetryIf.
Proof. intros error w. now exists w. Qed.

Lemma no_onRetry_observes : observes None.
Proof. intros error attempt delay w. now exists w. Qed.

(** The [wrappedFn] of [retryWithResult] counts each invocation. *)
Lemma wrappedFn_invokes (script : nat -> Promise T) :
  invokes (exec (fun w => (Returns tt, set_attempts (attempts w + 1)%nat w)) ;;
           scripted script) script 1.
Proof.
  intros w. eexists. split; [reflexivity |]. simpl. split; lia.
Qed.

(** C3.  [retry(fn, { maxRetries })] with [maxRetries >= 0].  If the
    first [k] invocations of [fn] fail, with [k < maxRetries + 1], and the
    next one succeeds, the call returns the value of that invocation and
    has invoked [fn] exactly [k + 1] times.  If every invocation fails,
    the call has invoked [fn] exactly [maxRetries + 1] times and throws
    the error of the last of them (as an [Error] object). *)
Theorem C3_retry_invocations :
  forall (script : nat -> Promise T) (maxRetries : Z) (w : World),
    (0 <= maxRetries)%Z ->
    let run := retry (scripted script) (onlyMaxRetries maxRetries) w in
    (forall (k : nat) (value : T),
        (Z.of_nat k < maxRetries + 1)%Z ->
        (forall i, (i < k)%nat -> fails (script (fnCalls w + i)%nat)) ->
        settled (script (fnCalls w + k)%nat) = Returns value ->
        fst run = Returns value
        /\ fnCalls (snd run) = (fnCalls w + (k + 1))%nat)
    /\ ((forall i, fails (script (fnCalls w + i)%nat)) ->
        exists error,
          settled (script (fnCalls w + Z.to_nat maxRetries)%nat) = Throws error
          /\ fst run = Throws (ThrownError (toError error))
          /\ fnCalls (snd run) = (fnCalls w + Z.to_nat (maxRetries + 1))%nat).
Proof.
  intros script maxRetries w Hm run. subst run.
  unfold retry, onlyMaxRetries; cbn [Retry.maxRetries Retry.initialDelayMs
    Retry.maxDelayMs Retry.backoffMultiplier Retry.jitter Retry.retryIf
    Retry.onRetry Retry.timeoutMs default from_option id].
  split.
  - intros k value Hk Hfails Hok.
    destruct (retry_loop_succeeds_after (scripted script) script 0 maxRetries
                100 30000 2 full defaultRetryIf None None
                (scripted_invokes script) defaultRetryIf_accepts
                no_onRetry_observes k (iterations maxRetries) 0%Z None 100 w value)
      as (w' & Hrun & Hcalls & _).
    + lia.
    + unfold iterations. lia.
    + exact Hfails.
    + exact Hok.
    + rewrite Hrun. simpl. split; [reflexivity | lia].
  - intros Hfails.
    destruct (retry_loop_exhausts (scripted script) script 0 maxRetries
                100 30000 2 full defaultRetryIf None None
                (scripted_invokes script) defaultRetryIf_accepts
                no_onRetry_observes (Z.to_nat maxRetries) (iterations maxRetries)
                0%Z None 100 w)
      as (w' & error & Hrun & Hlast & Hcalls & _).
    + lia.
    + lia.
    + unfold iterations. lia.
    + intros i _. apply Hfails.
    + exists error. rewrite Hrun. simpl.
      split; [exact Hlast | split; [reflexivity |]].
      rewrite Hcalls. lia.
Qed.

(** C7 (amended).  [retryWithResult] never throws: it returns a record,
    whatever [fn] and the options are.  When [fn] fails on every
    invocation, [maxRetries >= 0], the retry predicate accepts every
    error, the [onRetry] observer returns normally and no attempt is cut
    short by the timeout, the record has [success = false],
    [attempts = maxRetries + 1] and as [error] the error of the last
    invocation. *)
Theorem C7_retryWithResult_record :
  forall (options : RetryOptions) (w : World),
    (forall fn : M (Promise T),
        exists record w', retryWithResult fn options w = (Returns record, w'))
    /\ (forall script : nat -> Promise T,
           let maxRetries := default 3%Z (Retry.maxRetries options) in
           (0 <= maxRetries)%Z ->
           accepts (default defaultRetryIf (Retry.retryIf options)) ->
           observes (Retry.onRetry options) ->
           (forall i, raced (Retry.timeoutMs options) (script i) = script i) ->
           (forall i, fails (script (fnCalls w + i)%nat)) ->
           exists record w' error,
             retryWithResult (scripted script) options w = (Returns record, w')
             /\ success record = false
             /\ res_attempts record = Z.to_nat (maxRetries + 1)
             /\ settled (script (fnCalls w + Z.to_nat maxRetries)%nat) = Throws error
             /\ Retry.error record = Some (toError error)
             /\ result record = None
             /\ fnCalls w' = (fnCalls w + Z.to_nat (maxRetries + 1))%nat).
Proof.
  intros options w. split.
  - intros fn. unfold retryWithResult, bind, dateNow, tryCatch.
    match goal with
    | |- context [retry ?f ?o ?v] => destruct (retry f o v) as [[value | thrown] w1]
    end; eauto.
  - intros script maxRetries Hm Hif Hon Hraced Hfails.
    destruct (retry_loop_exhausts
                (exec (fun w => (Returns tt, set_attempts (attempts w + 1)%nat w)) ;;
                 scripted script)
                script 1 maxRetries
                (default 100 (Retry.initialDelayMs options))
                (default 30000 (Retry.maxDelayMs options))
                (default 2 (Retry.backoffMultiplier options))
                (default full (Retry.jitter options))
                (default defaultRetryIf (Retry.retryIf options))
                (Some (fun error attempt delayMs =>
                         callOnRetry (Retry.onRetry options) error attempt delayMs))
                (Retry.timeoutMs options)
                (wrappedFn_invokes script) Hif
                ltac:(intros e a d; apply (Hon e a d))
                (Z.to_nat maxRetries) (iterations maxRetries) 0%Z None
                (default 100 (Retry.initialDelayMs options))
                (set_attempts 0 w))
      as (w' & error & Hrun & Hlast & Hcalls & Hattempts).
    + lia.
    + lia.
    + unfold iterations. lia.
    + intros i _. rewrite Hraced. apply (Hfails i).
    + rewrite Hraced in Hlast. simpl in Hlast, Hcalls, Hattempts.
      eexists _, w', error.
      split.
      * unfold retryWithResult, bind at 1, dateNow at 1. unfold bind at 1.
        unfold tryCatch, bind at 1.
        unfold retry. cbn [Retry.maxRetries Retry.initialDelayMs
          Retry.maxDelayMs Retry.backoffMultiplier Retry.jitter Retry.retryIf
          Retry.onRetry Retry.timeoutMs with_onRetry].
        fold maxRetries. rewrite Hrun. reflexivity.
      * simpl. repeat split; try assumption; lia.
Qed.

End RetryProperties.

Section ProtectionLoop.
Import Js Backoff Retry.

Context {T : Type}.

(** In the loop of [retryWithProtection]: when an attempt fails with
    retries left, the retry predicate accepts the error and the breaker
    then answers [isAllowed() = false], the call throws the
    [CircuitOpenError] of the retry sequence. *)
Lemma retryWithProtection_loop_breaker_denies
    (fn : M (Promise T)) (maxRetries : Z)
    (initialDelayMs maxDelayMs backoffMultiplier : Q) (jitter : JitterStrategy)
    (retryIf : Error -> M bool) (onRetry : option (Error -> Z -> Q -> M unit))
    (timeoutMs : option Q) (fuel : nat) (attempt : Z) (lastError : option Error)
    (previousDelay : Q) (w w1 w2 : World) (error : Thrown) :
  (attempt < maxRetries)%Z ->
  attemptFn fn timeoutMs w = (Throws error, w1) ->
  retryIf (toError error)
    (snd (budgetRecordOutcome false (snd (breakerRecordFailure w1))))
  = (Returns true, w2) ->
  fst (Breaker.isAllowed (now w2) (circuitBreaker w2)) = false ->
  fst (retryWithProtection_loop fn maxRetries initialDelayMs maxDelayMs
         backoffMultiplier jitter retryIf onRetry timeoutMs
         (S fuel) attempt lastError previousDelay w)
  = Throws (ThrownError
              (Breaker.CircuitOpenError (Some "Circuit opened during retry sequence"%string))).
Proof.
  intros Hlt Hrun Hif Hdenied.
  cbn [retryWithProtection_loop].
  replace (attempt <=? maxRetries)%Z with true by (symmetry; apply Z.leb_le; lia).
  unfold tryCatch, bind at 1. rewrite Hrun.
  unfold bind at 1. unfold bind at 1.
  replace (attempt >=? maxRetries)%Z with false
    by (symmetry; rewrite Z.geb_leb; apply Z.leb_gt; lia).
  unfold breakerRecordFailure at 1. unfold budgetRecordOutcome at 1.
  cbv beta iota. unfold bind at 1.
  unfold breakerRecordFailure, budgetRecordOutcome in Hif. cbn [snd] in Hif.
  rewrite Hif. cbn [negb].
  unfold bind at 1, breakerIsAllowed.
  destruct (Breaker.isAllowed (now w2) (circuitBreaker w2)) as [answer cb].
  simpl in Hdenied. subst answer. reflexivity.
Qed.


Variables (script : nat -> Promise T) (maxRetries : Z).
Variables (initialDelayMs maxDelayMs backoffMultiplier : Q) (jitter : JitterStrategy).
Variables (retryIf : Error -> M bool).
Variables (onRetry : option (Error -> Z -> Q -> M unit)) (timeoutMs : option Q).

Hypothesis retryIf_silent : forall error, silent (retryIf error).
Hypothesis onRetry_silent :
  forall error attempt delay, silent (callOnRetry onRetry error attempt delay).

Lemma counts_log e w :
  fnInvocations (trace (log e w))
  = (fnInvocations (trace w) + match e with FnInvoked => 1 | _ => 0 end)%nat
  /\ recordFailureCalls (trace (log e w))
     = (recordFailureCalls (trace w)
        + match e with BreakerRecordFailure => 1 | _ => 0 end)%nat
  /\ recordSuccessCalls (trace (log e w))
     = (recordSuccessCalls (trace w)
        + match e with BreakerRecordSuccess => 1 | _ => 0 end)%nat.
Proof.
  unfold fnInvocations, recordFailureCalls, recordSuccessCalls. simpl.
  rewrite !List.filter_app, !length_app. destruct e; simpl; repeat split; lia.
Qed.

(** A computation that ends with the world [log e w'], where [w'] has the
    trace of the world it started in. *)
Ltac by_log e :=
  intros w; cbn [snd];
  match goal with
  | |- context [trace (log e ?v)] =>
      destruct (counts_log e v) as (-> & -> & ->); cbn; repeat split; lia
  end.

Lemma attemptFn_adds : adds (attemptFn (scripted script) timeoutMs) 1 0 0.
Proof.
  intros w.
  assert (E : trace (snd (attemptFn (scripted script) timeoutMs w))
              = trace (log FnInvoked w)).
  { unfold attemptFn. destruct (timeoutSet timeoutMs); reflexivity. }
  rewrite E. destruct (counts_log FnInvoked w) as (-> & -> & ->). lia.
Qed.

Lemma breakerRecordSuccess_adds : adds breakerRecordSuccess 0 0 1.
Proof. unfold breakerRecordSuccess. by_log BreakerRecordSuccess. Qed.

Lemma breakerRecordFailure_adds : adds breakerRecordFailure 0 1 0.
Proof. unfold breakerRecordFailure. by_log BreakerRecordFailure. Qed.

Lemma budgetRecordOutcome_adds success : silent (budgetRecordOutcome success).
Proof. unfold budgetRecordOutcome. by_log (BudgetRecordOutcome success). Qed.

Lemma breakerIsAllowed_adds : silent breakerIsAllowed.
Proof.
  intros w. unfold breakerIsAllowed.
  destruct (Breaker.isAllowed (now w) (circuitBreaker w)) as [answer cb]. cbn [snd].
  destruct (counts_log (BreakerIsAllowed answer) (set_circuitBreaker cb w))
    as (-> & -> & ->).
  cbn. repeat split; lia.
Qed.

Lemma budgetShouldRetry_adds : silent budgetShouldRetry.
Proof.
  intros w. unfold budgetShouldRetry.
  match goal with
  | |- context [Budget.shouldRetry ?bp ?g ?b] =>
      destruct (Budget.shouldRetry bp g b) as [[answer b'] g']
  end.
  cbn [snd].
  match goal with
  | |- context [log (BudgetShouldRetry answer) ?v] =>
      destruct (counts_log (BudgetShouldRetry answer) v) as (-> & -> & ->)
  end.
  destruct (defined _); cbn; repeat split; lia.
Qed.

Lemma backoff_adds attempt previousDelay :
  silent (backoff attempt initialDelayMs maxDelayMs backoffMultiplier jitter
            previousDelay).
Proof.
  intros w. unfold backoff.
  destruct (calculateBackoff _ _ _ _ _ _ _) as [delay g].
  cbn [snd trace set_rng]. repeat split; lia.
Qed.

Lemma sleep_adds delay : silent (sleep delay).
Proof.
  intros w. unfold sleep. cbn [snd].
  destruct (counts_log (Slept delay) w) as (Hi & Hf & Hs).
  cbn in *. repeat split; lia.
Qed.

(** The recording calls always return. *)
Lemma bind_breakerRecordSuccess {B : Type} (k : unit -> M B) w :
  bind breakerRecordSuccess k w = k tt (snd (breakerRecordSuccess w)).
Proof. reflexivity. Qed.

Lemma bind_breakerRecordFailure {B : Type} (k : unit -> M B) w :
  bind breakerRecordFailure k w = k tt (snd (breakerRecordFailure w)).
Proof. reflexivity. Qed.

Lemma bind_budgetRecordOutcome {B : Type} success (k : unit -> M B) w :
  bind (budgetRecordOutcome success) k w
  = k tt (snd (budgetRecordOutcome success w)).
Proof. reflexivity. Qed.

(** Run the first computation of the goal, noting what it adds; [x] names
    what it returns and [e] what it throws. *)
Tactic Notation "run_with" constr(L) "as" ident(x) ident(e) :=
  unfold bind at 1;
  match goal with
  | |- context [match ?c ?w with _ => _ end] =>
      let Hi := fresh "Hi" in
      let Hf := fresh "Hf" in
      let Hs := fresh "Hs" in
      pose proof (L w) as (Hi & Hf & Hs);
      destruct (c w) as [[x | e] ?]; cbn [snd] in Hi, Hf, Hs
  end.

(** The same for a recording call, which returns. *)
Ltac record_with E L :=
  rewrite E;
  match goal with
  | |- context [snd (?c ?w)] =>
      let Hi := fresh "Hi" in
      let Hf := fresh "Hf" in
      let Hs := fresh "Hs" in
      let w' := fresh "w" in
      pose proof (L w) as (Hi & Hf & Hs);
      set (w' := snd (c w)) in *; clearbody w'
  end.

Ltac finish := unfold recordsOnce in *; simpl; lia.

(** Every attempt of [retryWithProtection] is recorded on the breaker
    exactly once, whatever the operation does and however the loop ends. *)
Lemma retryWithProtection_loop_records_once fuel :
  forall attempt lastError previousDelay w,
    recordsOnce w
      (retryWithProtection_loop (scripted script) maxRetries initialDelayMs
         maxDelayMs backoffMultiplier jitter retryIf onRetry timeoutMs
         fuel attempt lastError previousDelay w).
Proof.
  induction fuel as [| fuel IH]; intros attempt lastError previousDelay w; [finish |].
  cbn [retryWithProtection_loop].
  destruct (attempt <=? maxRetries)%Z; [| finish].
  unfold tryCatch.
  run_with attemptFn_adds as value error.
  - record_with (@bind_breakerRecordSuccess T) breakerRecordSuccess_adds.
    record_with (@bind_budgetRecordOutcome T) (budgetRecordOutcome_adds true).
    finish.
  - record_with (@bind_breakerRecordFailure T) breakerRecordFailure_adds.
    record_with (@bind_budgetRecordOutcome T) (budgetRecordOutcome_adds false).
    destruct (attempt >=? maxRetries)%Z; [finish |].
    run_with (retryIf_silent (toError error)) as again e1; [| finish].
    destruct again; cbn [negb]; [| finish].
    run_with breakerIsAllowed_adds as allowed e2; [| finish].
    destruct allowed; cbn [negb]; [| finish].
    run_with budgetShouldRetry_adds as shouldRetry e3; [| finish].
    destruct shouldRetry; cbn [negb]; [| finish].
    run_with (backoff_adds attempt previousDelay) as delay e4; [| finish].
    run_with (onRetry_silent (toError error) (attempt + 1)%Z delay) as u5 e5; [| finish].
    run_with (sleep_adds delay) as u6 e6; [| finish].
    match goal with
    | |- recordsOnce _ (retryWithProtection_loop _ _ _ _ _ _ _ _ _ fuel ?at' ?le ?pd ?w') =>
        specialize (IH at' le pd w')
    end.
    unfold recordsOnce in *. destruct IH as [IH1 IH2]. lia.
Qed.

End ProtectionLoop.

Section ProtectionCall.
Import Js Backoff Retry.

Context {T : Type}.

(** The same for a whole call of [retryWithProtection]. *)
Lemma retryWithProtection_records_once
    (script : nat -> Promise T) (options : RetryOptions) (w : World) :
  (forall error, silent (default defaultRetryIf (Retry.retryIf options) error)) ->
  (forall error attempt delay,
      silent (callOnRetry (Retry.onRetry options) error attempt delay)) ->
  recordsOnce w (retryWithProtection (scripted script) options w).
Proof.
  intros Hif Hon. unfold retryWithProtection, bind.
  pose proof (breakerIsAllowed_adds w) as (Hi & Hf & Hs).
  destruct (breakerIsAllowed w) as [[allowed | e] w1]; cbn [snd] in Hi, Hf, Hs;
    [| unfold recordsOnce; simpl; lia].
  destruct allowed; cbn [negb]; [| unfold recordsOnce; simpl; lia].
  match goal with
  | |- recordsOnce _ (retryWithProtection_loop ?f ?m ?i ?x ?b ?j ?r ?o ?t ?n ?a ?l ?p ?v) =>
      pose proof (retryWithProtection_loop_records_once script m i x b j r o t
                    Hif Hon n a l p v) as H
  end.
  unfold recordsOnce in *. destruct H as [H1 H2]. lia.
Qed.

End ProtectionCall.

Section BreakerLoop.
Import Js Backoff Retry.

Context {T : Type}.

(** What [retryWithCircuitBreaker] does when the first attempt fails with
    retries left and the breaker, having recorded the failure, answers
    [isAllowed() = false]: the call throws the error of the operation, and
    [recordFailure()] has run twice, once in the [retryIf] wrapper and once
    in the [catch] block. *)
Lemma retryWithCircuitBreaker_denied_retry
    (fn : M (Promise T)) (options : RetryOptions) (w w0 w1 : World) (error : Thrown) :
  (0 < default 3%Z (Retry.maxRetries options))%Z ->
  breakerIsAllowed w = (Returns true, w0) ->
  attemptFn fn (Retry.timeoutMs options) w0 = (Throws error, w1) ->
  fst (breakerIsAllowed (snd (breakerRecordFailure w1))) = Returns false ->
  retryWithCircuitBreaker fn options w
  = (Throws (ThrownError (toError error)),
     snd (breakerRecordFailure
            (snd (breakerIsAllowed (snd (breakerRecordFailure w1)))))).
Proof.
  intros Hm Hpre Hrun Hdenied.
  unfold retryWithCircuitBreaker, bind at 1. rewrite Hpre. cbn [negb].
  unfold tryCatch at 1, bind at 1, retry.
  cbn [Retry.maxRetries Retry.initialDelayMs Retry.maxDelayMs
       Retry.backoffMultiplier Retry.jitter Retry.retryIf Retry.onRetry
       Retry.timeoutMs with_retryIf default from_option id].
  unfold iterations.
  destruct (Z.to_nat (default 3%Z (Retry.maxRetries options) + 1)) as [| fuel] eqn:Hfuel;
    [lia |].
  cbn [retry_loop].
  replace (0 <=? default 3%Z (Retry.maxRetries options))%Z with true
    by (symmetry; apply Z.leb_le; lia).
  unfold tryCatch at 1. rewrite Hrun.
  replace (0 >=? default 3%Z (Retry.maxRetries options))%Z with false
    by (symmetry; rewrite Z.geb_leb; apply Z.leb_gt; lia).
  unfold bind at 1. rewrite bind_breakerRecordFailure.
  destruct (breakerIsAllowed (snd (breakerRecordFailure w1))) as [[allowed | e] w2] eqn:E;
    simpl in Hdenied; [| discriminate].
  injection Hdenied as ->.
  unfold bind at 1. rewrite E. reflexivity.
Qed.

End BreakerLoop.

Section Scenarios.
Import Js Backoff Retry Samples.
Local Open Scope string_scope.

(** C1.  [retryWithCircuitBreaker] with [maxRetries = 3], an operation
    that always fails and a breaker that opens on the first failure
    ([windowSize = 1]).  The first attempt fails, three retries remain,
    the default predicate accepts, and the breaker answers
    [isAllowed() = false]; the call throws the error of the operation, not
    a [CircuitOpenError]. *)
Theorem C1_breaker_denial_throws_last_error :
  let run :=
    retryWithCircuitBreaker (scripted alwaysFails) (onlyMaxRetries 3)
      (world (breaker (1 # 2) 1 30000)) in
  fst run = Throws (ThrownError (newError "boom"))
  /\ (forall message,
        fst run <> Throws (ThrownError (Breaker.CircuitOpenError message)))
  /\ trace (snd run)
     = [BreakerIsAllowed true; FnInvoked; BreakerRecordFailure;
        BreakerIsAllowed false; BreakerRecordFailure]
  /\ fnCalls (snd run) = 1%nat.
Proof.
  vm_compute. repeat split. intros message H. discriminate H.
Qed.

(** On the same input [retryWithProtection] throws the
    [CircuitOpenError]. *)
Lemma retryWithProtection_same_input :
  let run :=
    retryWithProtection (scripted alwaysFails) (onlyMaxRetries 3)
      (world (breaker (1 # 2) 1 30000)) in
  fst run
  = Throws (ThrownError
              (Breaker.CircuitOpenError (Some "Circuit opened during retry sequence")))
  /\ trace (snd run)
     = [BreakerIsAllowed true; FnInvoked; BreakerRecordFailure;
        BudgetRecordOutcome false; BreakerIsAllowed false]
  /\ recordFailureCalls (trace (snd run)) = 1%nat.
Proof. vm_compute. repeat split. Qed.

(** C2.  [retryWithCircuitBreaker] records a failed attempt twice when
    retries remain and the retry is denied.  With [retryIf: () => false]
    and a default breaker, and with a breaker that opens on the first
    failure: [fn] is invoked once and [recordFailure()] is called twice,
    so the breaker's window holds two failures for one attempt. *)
Theorem C2_denied_retry_recorded_twice :
  let predicateDenies :=
    retryWithCircuitBreaker (scripted alwaysFails)
      (with_retryIf (Some (fun _ => ret false)) (onlyMaxRetries 3))
      (world (breaker (1 # 2) 10 30000)) in
  let breakerDenies :=
    retryWithCircuitBreaker (scripted alwaysFails) (onlyMaxRetries 3)
      (world (breaker (1 # 2) 1 30000)) in
  (fnCalls (snd predicateDenies) = 1%nat
   /\ recordFailureCalls (trace (snd predicateDenies)) = 2%nat
   /\ Breaker.failures (circuitBreaker (snd predicateDenies)) = [true; true])
  /\ (fnCalls (snd breakerDenies) = 1%nat
      /\ recordFailureCalls (trace (snd breakerDenies)) = 2%nat).
Proof. vm_compute. repeat split. Qed.

(** With retries exhausted the last failure is recorded once, and so is
    every failure in [retryWithProtection]. *)
Lemma recordFailure_once_elsewhere :
  let exhausted :=
    retryWithCircuitBreaker (scripted alwaysFails) (onlyMaxRetries 1)
      (world (breaker (1 # 2) 10 30000)) in
  let protectedDenied :=
    retryWithProtection (scripted alwaysFails)
      (with_retryIf (Some (fun _ => ret false)) (onlyMaxRetries 3))
      (world (breaker (1 # 2) 10 30000)) in
  (fnCalls (snd exhausted) = 2%nat
   /\ recordFailureCalls (trace (snd exhausted)) = 2%nat)
  /\ (fnCalls (snd protectedDenied) = 1%nat
      /\ recordFailureCalls (trace (snd protectedDenied)) = 1%nat).
Proof. vm_compute. repeat split. Qed.

(** C7, as stated, fails: with [retryIf: () => false] and
    [maxRetries = 3] an operation that always fails is tried once, and the
    record has [attempts = 1], not 4.  The record also differs from the
    stated one when an attempt runs into the timeout (the error is the
    timeout error, not the one of [fn]), when the [onRetry] observer throws
    (one attempt, and the error is the observer's), and when [maxRetries]
    is negative ([fn] is not invoked). *)
Lemma C7_counterexample :
  let run options :=
    returned (fst (retryWithResult (scripted alwaysFails) options
                     (world (breaker (1 # 2) 10 30000)))) in
  let predicateDenies :=
    run (with_retryIf (Some (fun _ => ret false)) (onlyMaxRetries 3)) in
  let timesOut :=
    run {| maxRetries := Some 1%Z; initialDelayMs := None; maxDelayMs := None;
           backoffMultiplier := None; jitter := None; retryIf := None;
           onRetry := None; timeoutMs := Some 1 |} in
  let observerThrows :=
    run (with_onRetry (Some (fun _ _ _ => throw (newError "observer")))
           (onlyMaxRetries 3)) in
  let negative := run (onlyMaxRetries (-2)) in
  (forall i, fails (alwaysFails i))
  /\ (success <$> predicateDenies = Some false
      /\ res_attempts <$> predicateDenies = Some 1%nat
      /\ res_attempts <$> predicateDenies <> Some (Z.to_nat (3 + 1)))
  /\ (res_attempts <$> timesOut = Some 2%nat
      /\ Retry.error <$> timesOut = Some (Some (timeoutError 1)))
  /\ (res_attempts <$> observerThrows = Some 1%nat
      /\ Retry.error <$> observerThrows = Some (Some (newError "observer")))
  /\ (res_attempts <$> negative = Some 0%nat
      /\ Retry.error <$> negative = Some (Some (newError "Retry failed"))).
Proof.
  split; [intros i; eexists; reflexivity |].
  vm_compute. repeat split. discriminate.
Qed.

(** C9, as stated, fails: a mapping that holds the shedding field with
    the value [false] stores nothing, and neither does one that holds the
    load-level field with an empty value. *)
Lemma C9_counterexample :
  let shedding := Backpressure.PlainRecord {[ "X-Load-Shedding" := "false" ]} in
  let empty := Backpressure.PlainRecord {[ "X-Backpressure" := "" ]} in
  let m := Backpressure.new None None in
  let record headers :=
    Backpressure.recordFromHeaders Backpressure.readDecimal 0 "api" headers m in
  (Backpressure.get shedding Backpressure.SHEDDING = Some "false"
   /\ Backpressure.signals (record shedding) !! "api" = None
   /\ record shedding = m)
  /\ (Backpressure.get empty Backpressure.LOAD_LEVEL = Some ""
      /\ Backpressure.signals (record empty) !! "api" = None
      /\ record empty = m).
Proof. vm_compute. repeat split. Qed.

End Scenarios.

Section Instances.
Import Js Backoff Retry Samples.
Local Open Scope string_scope.

(** C8 at [initialDelay = 100], [previousDelay = 100], draw 1/2. *)
Lemma C8_decorrelated_delay_witness :
  unitDraw (1 # 2) /\ 100 <= 3 * 100
  /\ 100 <= 100 + (1 # 2) * (3 * 100 - 100)
  /\ 100 + (1 # 2) * (3 * 100 - 100) <= 3 * 100.
Proof.
  assert (Hdraw : unitDraw (1 # 2)) by (split; lra).
  assert (Hprev : 100 <= 3 * 100) by lra.
  split; [exact Hdraw | split; [exact Hprev |]].
  destruct (C8_decorrelated_delay 0 100 30000 100 None halves) as (_ & _ & H).
  exact (H Hdraw Hprev).
Defined.

(** C6 on a breaker opened at time 0 with a reset timeout of 10 ms: the
    call at time 15 is allowed, those after it are not. *)
Lemma C6_isAllowed_by_state_witness :
  Breaker.resetDue 15 openedBreaker = true
  /\ fst (Breaker.isAllowed_calls [15; 16; 100] openedBreaker) = [true; false; false].
Proof.
  split; [reflexivity |].
  destruct (C6_isAllowed_by_state 15 openedBreaker) as (_ & _ & _ & _ & _ & _ & H).
  exact (H [16; 100] eq_refl).
Defined.

(** C5 on a budget that one admitted retry has used up. *)
Lemma C5_no_retry_without_budget_witness :
  Budget.budget spentBudget <= 0
  /\ fst (fst (Budget.shouldRetry None halves spentBudget)) = false
  /\ fst (fst (Budget.shouldRetrySync halves spentBudget)) = false.
Proof.
  assert (H : Budget.budget spentBudget <= 0) by (vm_compute; discriminate).
  split; [exact H |].
  exact (C5_no_retry_without_budget spentBudget None halves H).
Defined.

(** C4 on a default budget that sees a failure, a timer firing, an
    admitted retry and a reset. *)
Lemma C4_budget_stays_in_range_witness :
  let b :=
    fold_left Budget.perform
      [Budget.RecordOutcome false; Budget.TimerFires;
       Budget.ShouldRetrySync {| draws := fun _ => 0; used := 0 |}; Budget.Reset]
      (budgetOf (2 # 10)) in
  Budget.documentedRanges (budgetOf (2 # 10))
  /\ 0 <= Budget.budget b /\ Budget.budget b <= Budget.initialBudget b.
Proof.
  assert (H : Budget.documentedRanges (budgetOf (2 # 10))).
  { unfold Budget.documentedRanges. simpl. repeat split; lra. }
  split; [exact H |].
  destruct (C4_budget_stays_in_range 0
              {| Budget.opt_initialBudget := Some (2 # 10);
                 Budget.opt_budgetIncreaseRate := None;
                 Budget.opt_budgetDecreaseRate := None;
                 Budget.opt_highFailureThreshold := None;
                 Budget.opt_lowFailureThreshold := None;
                 Budget.opt_adjustmentIntervalMs := None |}
              [Budget.RecordOutcome false; Budget.TimerFires;
               Budget.ShouldRetrySync {| draws := fun _ => 0; used := 0 |};
               Budget.Reset] H)
    as (_ & _ & Hlow & Hhigh & _).
  split; [exact Hlow | exact Hhigh].
Defined.

(** C9 on the mapping [{ 'X-Backpressure': '0.9' }]: a signal is stored
    and it says overloaded. *)
Lemma C9_recordFromHeaders_meaningful_witness :
  let headers := Backpressure.PlainRecord {[ "X-Backpressure" := "0.9" ]} in
  let m := Backpressure.new None None in
  let m' := Backpressure.recordFromHeaders Backpressure.readDecimal 7 "api" headers m in
  exists signal,
    Backpressure.signals m' !! "api" = Some signal
    /\ Backpressure.timestamp signal = 7
    /\ Backpressure.isOverloaded signal = true.
Proof.
  intros headers m m'.
  destruct (C9_recordFromHeaders_meaningful Backpressure.readDecimal 7 "api" headers m)
    as [H _].
  destruct (H eq_refl) as ((signal & Hlookup & Htime & Hload & _ & Hover) & _).
  exists signal. split; [exact Hlookup | split; [exact Htime |]].
  rewrite Hover, Hload. reflexivity.
Defined.

(** C3 on the scenario of the specification: [maxRetries = 2], two
    rejections and then ['ok']. *)
Lemma C3_retry_invocations_witness :
  let run :=
    retry (scripted failsTwice) (onlyMaxRetries 2) (world (breaker (1 # 2) 10 30000)) in
  fst run = Returns "ok" /\ fnCalls (snd run) = 3%nat.
Proof.
  destruct (C3_retry_invocations failsTwice 2 (world (breaker (1 # 2) 10 30000))
              ltac:(lia)) as [H _].
  apply (H 2%nat "ok").
  - lia.
  - intros i Hi. destruct i as [| [| i]]; [eexists; reflexivity .. | lia].
  - reflexivity.
Defined.

(** C7 on an operation that always fails, with [maxRetries = 1]. *)
Lemma C7_retryWithResult_record_witness :
  exists record w',
    retryWithResult (scripted alwaysFails) (onlyMaxRetries 1)
      (world (breaker (1 # 2) 10 30000)) = (Returns record, w')
    /\ success record = false
    /\ res_attempts record = 2%nat
    /\ Retry.error record = Some (newError "boom").
Proof.
  destruct (C7_retryWithResult_record (T := string) (onlyMaxRetries 1)
              (world (breaker (1 # 2) 10 30000))) as [_ H].
  destruct (H alwaysFails) as (record & w' & error & Hrun & Hs & Ha & Hlast & He & _).
  - simpl. lia.
  - intros e w. exists w. repeat split.
  - intros e a d w. exists w. repeat split.
  - intros i. reflexivity.
  - intros i. eexists. reflexivity.
  - exists record, w'. split; [exact Hrun | split; [exact Hs | split; [exact Ha |]]].
    rewrite He. simpl in Hlast. injection Hlast as <-. reflexivity.
Defined.

End Instances.

(* ===================================================================== *)
(** * Part III: further properties of the code                            *)
(* ===================================================================== *)

Section BackoffFurther.
Import Js Backoff.

Lemma scaled_by_draw r c :
  unitDraw r -> (0 <= c -> 0 <= r * c /\ r * c <= c) /\ (c <= 0 -> r * c <= 0).
Proof.
  intros [H0 H1]. split.
  - intros Hc. split; [apply Qmult_le_0_compat; lra |].
    assert (r * c <= 1 * c) by (apply Qmult_le_compat_r; lra). lra.
  - intros Hc.
    assert (0 <= r * - c) by (apply Qmult_le_0_compat; lra).
    assert (r * - c == - (r * c)) by ring. lra.
Qed.



(** X3.  When the base delay [min(initialDelayMs * multiplier ^ attempt,
    maxDelayMs)] is not negative and the draw is in [0, 1): full jitter
    gives a delay between 0 and the base delay, equal jitter one between
    half the base delay and the base delay. *)
Theorem X3_full_and_equal_jitter_ranges :
  forall (attempt : Z) (initialDelayMs maxDelayMs multiplier : Q)
         (previousDelay : option Q) (g : Rng),
    let base := Qmin (initialDelayMs * multiplier ^ attempt) maxDelayMs in
    let delay jitter :=
      fst (calculateBackoff attempt initialDelayMs maxDelayMs (Some multiplier)
             (Some jitter) previousDelay g) in
    0 <= base ->
    unitDraw (fst (mathRandom g)) ->
    (0 <= delay full /\ delay full <= base)
    /\ (base / 2 <= delay equal /\ delay equal <= base).
Proof.
  intros attempt i m mult prev g base delay Hbase Hr. subst delay.
  cbn [calculateBackoff default from_option id fst mathRandom] in *.
  fold base.
  destruct (scaled_by_draw _ base Hr) as [Hpos _]. destruct (Hpos Hbase) as [H0 H1].
  cbn [fst mathRandom] in H0, H1.
  split; [split; assumption |].
  assert (E1 : base / 2 == base * (1 # 2)) by (field; discriminate).
  assert (E2 : base / 2 + draws g (used g) * base / 2
               == (base + draws g (used g) * base) * (1 # 2)) by (field; discriminate).
  rewrite E2, E1. split; lra.
Qed.

Lemma decorrelated_step i m p r :
  0 <= i -> i <= m -> i <= p -> unitDraw r ->
  let d := Qmin (r * (p * 3 - i) + i) m in
  i <= d /\ d <= m /\ d <= 3 * p.
Proof.
  intros Hi Him Hip Hr d.
  destruct (scaled_by_draw r (p * 3 - i) Hr) as [Hpos _].
  destruct (Hpos ltac:(lra)) as [H0 H1].
  subst d. split; [apply Q.min_glb; lra |].
  split; [apply Q.le_min_r |].
  eapply Qle_trans; [apply Q.le_min_l | lra].
Qed.

(** X4.  A calculator made by [createBackoffCalculator] with decorrelated
    jitter, [0 <= initialDelayMs <= maxDelayMs] and draws in [0, 1): every
    delay it returns, over any sequence of calls, lies between
    [initialDelayMs] and [maxDelayMs]. *)
Theorem X4_decorrelated_calculator_stays_in_range :
  forall (initialDelayMs maxDelayMs : Q) (multiplier : option Q)
         (attempts : list Z) (g : Rng),
    0 <= initialDelayMs -> initialDelayMs <= maxDelayMs ->
    (forall n, unitDraw (draws g n)) ->
    Forall (fun delay => initialDelayMs <= delay /\ delay <= maxDelayMs)
      (callCalculator_calls attempts
         (createBackoffCalculator initialDelayMs maxDelayMs multiplier
            (Some decorrelated)) g).
Proof.
  intros i m mult attempts g Hi Him Hdraws.
  assert (Hgen : forall attempts c g',
             calc_initialDelayMs c = i -> calc_maxDelayMs c = m ->
             calc_jitter c = decorrelated -> i <= previousDelay c ->
             draws g' = draws g ->
             Forall (fun delay => i <= delay /\ delay <= m)
               (callCalculator_calls attempts c g')).
  { clear attempts. induction attempts as [| a attempts IH];
      intros c g' Hci Hcm Hcj Hprev Hg'; [constructor |].
    assert (Hr : unitDraw (draws g' (used g'))) by (rewrite Hg'; apply Hdraws).
    destruct (decorrelated_step i m (previousDelay c) _ Hi Him Hprev Hr)
      as (Hlow & Hhigh & _).
    cbn [callCalculator_calls]. unfold callCalculator, calculateBackoff.
    cbn [default from_option id]. rewrite Hcj, Hci, Hcm. cbn [mathRandom].
    constructor; [split; assumption |].
    apply IH; try reflexivity; assumption. }
  apply Hgen; try reflexivity. simpl. lra.
Qed.

End BackoffFurther.

Section BreakerFurther.
Import Js Breaker.

Lemma trimWindow_loop_length ws (l : list bool) :
  (length (trimWindow_loop ws l) <= ws)%nat.
Proof.
  induction l as [| x rest IH]; [simpl; lia |].
  cbn [trimWindow_loop].
  destruct (Nat.ltb_spec ws (length (x :: rest))); [exact IH | lia].
Qed.

Lemma trimWindow_loop_fits ws (l : list bool) :
  (length l <= ws)%nat -> trimWindow_loop ws l = l.
Proof.
  destruct l as [| x rest]; [reflexivity |]. intros H.
  cbn [trimWindow_loop].
  destruct (Nat.ltb_spec ws (length (x :: rest))); [lia | reflexivity].
Qed.

Lemma transition_state newState cb : state (transition newState cb) = newState.
Proof.
  unfold transition.
  destruct (state cb) eqn:E, newState; simpl; auto.
Qed.

Lemma transition_keeps newState cb :
  failures (transition newState cb) = failures cb
  /\ windowSize (transition newState cb) = windowSize cb
  /\ failureThreshold (transition newState cb) = failureThreshold cb
  /\ resetTimeoutMs (transition newState cb) = resetTimeoutMs cb
  /\ lastFailureTime (transition newState cb) = lastFailureTime cb.
Proof.
  unfold transition. destruct (negb _); simpl; auto.
Qed.

Lemma transition_notifies newState cb :
  stateChanges (transition newState cb)
  = stateChanges cb
    ++ (if CircuitState_eqb (state cb) newState then [] else [newState]).
Proof.
  unfold transition.
  destruct (CircuitState_eqb (state cb) newState); simpl;
    [now rewrite app_nil_r | reflexivity].
Qed.

Lemma getState_sameWindow now cb : sameWindow cb (snd (getState now cb)).
Proof.
  rewrite getState_resolves. unfold sameWindow.
  destruct (resetDue now cb); [apply transition_keeps | auto].
Qed.

Lemma isAllowed_snd now cb :
  snd (isAllowed now cb)
  = let resolved := snd (getState now cb) in
    match state resolved with
    | half_open => set_halfOpenAttempts (halfOpenAttempts resolved + 1) resolved
    | _ => resolved
    end.
Proof.
  unfold isAllowed.
  change (getState now cb)
    with (state (snd (getState now cb)), snd (getState now cb)) at 1.
  cbv zeta. destruct (state (snd (getState now cb))); reflexivity.
Qed.

Lemma isAllowed_sameWindow now cb : sameWindow cb (snd (isAllowed now cb)).
Proof.
  rewrite isAllowed_snd. cbv zeta.
  pose proof (getState_sameWindow now cb) as H.
  destruct (state (snd (getState now cb))); exact H.
Qed.

Lemma recordSuccess_window cb :
  windowSize (recordSuccess cb) = windowSize cb
  /\ failures (recordSuccess cb)
     = match state cb with
       | half_open => []
       | _ => trimWindow_loop (windowSize cb) (failures cb ++ [false])
       end.
Proof.
  unfold recordSuccess, trimWindow.
  cbn [state failures windowSize set_failures].
  destruct (state cb) eqn:E; cbn [CircuitState_eqb]; cbn; auto.
  split; [| reflexivity].
  match goal with
  | |- windowSize (transition ?s ?c) = _ =>
      destruct (transition_keeps s c) as (_ & -> & _)
  end.
  reflexivity.
Qed.

Lemma recordFailure_window now cb :
  windowSize (recordFailure now cb) = windowSize cb
  /\ failures (recordFailure now cb)
     = trimWindow_loop (windowSize cb) (failures cb ++ [true])
  /\ lastFailureTime (recordFailure now cb) = now
  /\ failureThreshold (recordFailure now cb) = failureThreshold cb
  /\ resetTimeoutMs (recordFailure now cb) = resetTimeoutMs cb.
Proof.
  unfold recordFailure, trimWindow.
  cbn [state failures windowSize set_failures set_lastFailureTime].
  repeat match goal with
         | |- context [if ?c then _ else _] => destruct c
         end;
    repeat match goal with
           | |- context [transition ?s ?c] =>
               destruct (transition_keeps s c) as (-> & -> & -> & -> & ->)
           end; cbn; auto.
Qed.

Lemma reset_window cb :
  windowSize (reset cb) = windowSize cb /\ failures (reset cb) = [].
Proof.
  unfold reset.
  match goal with
  | |- context [transition ?s ?c] =>
      destruct (transition_keeps s c) as (-> & -> & _)
  end.
  auto.
Qed.

Lemma perform_window cb op :
  windowSize (perform cb op) = windowSize cb
  /\ ((length (failures cb) <= windowSize cb)%nat ->
      (length (failures (perform cb op)) <= windowSize cb)%nat).
Proof.
  destruct op as [| now | now | now |]; cbn [perform].
  - destruct (recordSuccess_window cb) as [-> ->]. split; [reflexivity |].
    intros _. destruct (state cb); try apply trimWindow_loop_length. simpl; lia.
  - destruct (recordFailure_window now cb) as (-> & -> & _). split; [reflexivity |].
    intros _. apply trimWindow_loop_length.
  - destruct (isAllowed_sameWindow now cb) as (-> & -> & _). auto.
  - destruct (getState_sameWindow now cb) as (-> & -> & _). auto.
  - destruct (reset_window cb) as [-> ->]. split; [reflexivity | simpl; lia].
Qed.

(** X5.  The failure window of a breaker never holds more than
    [windowSize] outcomes, whatever is done with the breaker, and
    [windowSize] stays the configured one. *)
Theorem X5_window_is_bounded :
  forall (options : CircuitBreakerOptions) (ops : list Operation),
    let cb := fold_left perform ops (new options) in
    windowSize cb = default 10%nat (opt_windowSize options)
    /\ (length (failures cb) <= windowSize cb)%nat.
Proof.
  intros options ops.
  induction ops as [| op ops IH] using rev_ind; [simpl; split; [reflexivity | lia] |].
  rewrite fold_left_app. cbn [fold_left].
  destruct IH as [Hws Hfit].
  destruct (perform_window (fold_left perform ops (new options)) op) as [Hw H].
  cbv zeta. rewrite Hw. split; [exact Hws | now apply H].
Qed.

Lemma recordSuccess_state cb :
  state (recordSuccess cb)
  = match state cb with half_open => closed | other => other end.
Proof.
  unfold recordSuccess, trimWindow. cbn [state set_failures].
  destruct (state cb) eqn:E; cbn [CircuitState_eqb]; cbn [state set_failures]; auto.
  apply transition_state.
Qed.

Lemma recordFailure_state now cb :
  state (recordFailure now cb)
  = match state cb with
    | closed =>
        let window := trimWindow_loop (windowSize cb) (failures cb ++ [true]) in
        if (windowSize cb <=? length window)%nat
           && leb (failureThreshold cb) (getFailureRate (set_failures window cb))
        then open else closed
    | _ => open
    end.
Proof.
  unfold recordFailure, trimWindow.
  cbn [state failures windowSize failureThreshold set_failures set_lastFailureTime].
  destruct (state cb) eqn:E; cbn [CircuitState_eqb andb]; cbn zeta.
  - destruct (windowSize cb <=? _)%nat; cbn [andb]; [| exact E].
    change (getFailureRate (set_lastFailureTime now (set_failures ?w cb)))
      with (getFailureRate (set_failures w cb)).
    destruct (leb _ _); [apply transition_state | exact E].
  - exact E.
  - apply transition_state.
Qed.

Lemma open_rejects now cb :
  state cb = open -> now - lastFailureTime cb < resetTimeoutMs cb ->
  isAllowed now cb = (false, cb).
Proof.
  intros Hopen Hearly.
  assert (Hget : getState now cb = (open, cb)).
  { unfold getState. rewrite Hopen. cbn [CircuitState_eqb].
    replace (leb (resetTimeoutMs cb) (now - lastFailureTime cb)) with false.
    - cbv zeta. now rewrite Hopen.
    - symmetry. unfold leb. apply not_true_iff_false. rewrite Qle_bool_iff.
      now apply Qlt_not_le. }
  unfold isAllowed. now rewrite Hget.
Qed.

Lemma closed_allows now cb : state cb = closed -> isAllowed now cb = (true, cb).
Proof.
  intros H. unfold isAllowed, getState. rewrite H. cbn [CircuitState_eqb].
  cbv zeta. now rewrite H.
Qed.

Lemma recorded_cons op ops :
  recordedOutcomes (op :: ops)
  = ((match op with RecordSuccess | RecordFailure _ => 1 | _ => 0 end)
     + recordedOutcomes ops)%nat.
Proof. unfold recordedOutcomes. destruct op; reflexivity. Qed.

Lemma stays_closed ops :
  forall cb,
    state cb = closed ->
    (length (failures cb) + recordedOutcomes ops < windowSize cb)%nat ->
    state (fold_left perform ops cb) = closed.
Proof.
  induction ops as [| op ops IH]; intros cb Hclosed Hfew; [exact Hclosed |].
  rewrite recorded_cons in Hfew. cbn [fold_left].
  destruct (perform_window cb op) as [Hws _].
  apply IH; rewrite ?Hws; destruct op as [| now | now | now |]; cbn [perform].
  - now rewrite recordSuccess_state, Hclosed.
  - rewrite recordFailure_state, Hclosed. cbv zeta.
    rewrite trimWindow_loop_fits by (rewrite length_app; simpl; lia).
    replace (windowSize cb <=? length (failures cb ++ [true]))%nat with false;
      [reflexivity |].
    symmetry. apply Nat.leb_gt. rewrite length_app. simpl. lia.
  - now rewrite (closed_allows now cb Hclosed).
  - rewrite getState_resolves. unfold resetDue. now rewrite Hclosed.
  - apply transition_state.
  - destruct (recordSuccess_window cb) as [_ ->]. rewrite Hclosed.
    rewrite trimWindow_loop_fits by (rewrite length_app; simpl; lia).
    rewrite length_app. simpl. lia.
  - destruct (recordFailure_window now cb) as (_ & -> & _).
    rewrite trimWindow_loop_fits by (rewrite length_app; simpl; lia).
    rewrite length_app. simpl. lia.
  - rewrite (closed_allows now cb Hclosed). simpl. lia.
  - destruct (getState_sameWindow now cb) as (-> & _). lia.
  - destruct (reset_window cb) as [_ ->]. simpl. lia.
Qed.

(** X6.  A new breaker stays closed as long as fewer than [windowSize]
    outcomes have been recorded, whatever the outcomes are; and
    [recordSuccess()] never opens a breaker: after it the state is [open]
    only if it was [open] before, also when the window it leaves is full
    of failures at or above the threshold. *)
Theorem X6_no_early_opening :
  forall (options : CircuitBreakerOptions) (ops : list Operation)
         (cb : CircuitBreaker),
    ((recordedOutcomes ops < windowSize (new options))%nat ->
     state (fold_left perform ops (new options)) = closed)
    /\ (state (recordSuccess cb) = open -> state cb = open).
Proof.
  intros options ops cb. split.
  - intros Hfew. apply stays_closed; [reflexivity | exact Hfew].
  - rewrite recordSuccess_state. destruct (state cb); auto; discriminate.
Qed.

Lemma failureCount_le (l : list bool) :
  (length (List.filter (fun f : bool => f) l) <= length l)%nat.
Proof. induction l as [| [|] l IH]; simpl; lia. Qed.

Lemma filter_all_failures k :
  List.filter (fun f : bool => f) (repeat true k) = repeat true k.
Proof. induction k as [| k IH]; simpl; [reflexivity | now rewrite IH]. Qed.

Lemma rate_of_failures_only cb k :
  failures cb = repeat true (S k) -> getFailureRate cb == 1.
Proof.
  intros H. unfold getFailureRate. rewrite H, filter_all_failures, repeat_length.
  cbn [Nat.eqb]. apply Qmult_inv_r.
  unfold Qeq. simpl. lia.
Qed.

Lemma stays_open times :
  forall cb, state cb = open ->
  state (fold_left (fun cb t => recordFailure t cb) times cb) = open.
Proof.
  induction times as [| t times IH]; intros cb H; [exact H |].
  cbn [fold_left]. apply IH. now rewrite recordFailure_state, H.
Qed.

Lemma failures_open times :
  forall cb k,
    state cb = closed -> failures cb = repeat true k ->
    (k < windowSize cb)%nat -> failureThreshold cb <= 1 ->
    (windowSize cb <= k + length times)%nat ->
    state (fold_left (fun cb t => recordFailure t cb) times cb) = open.
Proof.
  induction times as [| t times IH]; intros cb k Hclosed Hwin Hk Hthr Hlen;
    [simpl in Hlen; lia |].
  cbn [fold_left].
  destruct (recordFailure_window t cb) as (Hws & Hfs & _ & Hth & _).
  assert (Hwindow : trimWindow_loop (windowSize cb) (failures cb ++ [true])
                    = repeat true (S k)).
  { rewrite trimWindow_loop_fits.
    - rewrite Hwin. change [true] with (repeat true 1).
      rewrite <- repeat_app. f_equal. lia.
    - rewrite length_app, Hwin, repeat_length. simpl. lia. }
  assert (Hstate : state (recordFailure t cb)
                   = if (windowSize cb <=? S k)%nat then open else closed).
  { rewrite recordFailure_state, Hclosed. cbv zeta. rewrite Hwindow, repeat_length.
    destruct (windowSize cb <=? S k)%nat; [| reflexivity].
    cbn [andb].
    replace (leb (failureThreshold cb)
               (getFailureRate (set_failures (repeat true (S k)) cb))) with true;
      [reflexivity |].
    symmetry. apply leb_le.
    rewrite (rate_of_failures_only (set_failures (repeat true (S k)) cb) k eq_refl).
    exact Hthr. }
  destruct (Nat.leb_spec (windowSize cb) (S k)) as [Hfull | Hmore].
  - apply stays_open. exact Hstate.
  - apply (IH (recordFailure t cb) (S k)); rewrite ?Hws, ?Hth; auto.
    + now rewrite Hfs.
    + cbn [length] in Hlen. lia.
Qed.

(** X7.  A new breaker with [windowSize >= 1] and [failureThreshold <= 1]
    that records at least [windowSize] failures in a row is open, with
    [lastFailureTime] the time of the last of them; and as long as less
    than [resetTimeoutMs] has passed since then, [isAllowed()] answers
    [false] and changes nothing. *)
Theorem X7_failures_open_the_breaker :
  forall (options : CircuitBreakerOptions) (times : list Q) (t now : Q),
    let cb :=
      fold_left (fun cb t => recordFailure t cb) (times ++ [t]) (new options) in
    (1 <= windowSize (new options))%nat ->
    failureThreshold (new options) <= 1 ->
    (windowSize (new options) <= length (times ++ [t]))%nat ->
    state cb = open
    /\ lastFailureTime cb = t
    /\ (now - t < resetTimeoutMs (new options) -> isAllowed now cb = (false, cb)).
Proof.
  intros options times t now cb Hws Hthr Hlen.
  assert (Hopen : state cb = open).
  { subst cb. apply (failures_open (times ++ [t]) (new options) 0%nat); auto. }
  assert (Hlast : lastFailureTime cb = t /\ resetTimeoutMs cb = resetTimeoutMs (new options)).
  { subst cb. rewrite fold_left_app. cbn [fold_left].
    match goal with
    | |- context [recordFailure t ?c] =>
        destruct (recordFailure_window t c) as (_ & _ & -> & _ & ->)
    end.
    split; [reflexivity |].
    clear. induction times as [| x times IH] using rev_ind; [reflexivity |].
    rewrite fold_left_app. cbn [fold_left].
    match goal with
    | |- context [recordFailure x ?c] =>
        destruct (recordFailure_window x c) as (_ & _ & _ & _ & ->)
    end.
    exact IH. }
  destruct Hlast as [Hlast Hreset].
  split; [exact Hopen | split; [exact Hlast |]].
  intros Hearly. apply open_rejects; [exact Hopen |]. now rewrite Hlast, Hreset.
Qed.

(** X8.  The probe of a half-open breaker decides: [recordSuccess()]
    closes the breaker, empties the window, and the next [isAllowed()] is
    [true]; [recordFailure()] opens it again at once, whatever the window
    holds, and [isAllowed()] is [false] until [resetTimeoutMs] has passed
    since that failure. *)
Theorem X8_half_open_probe_decides :
  forall (cb : CircuitBreaker) (t now : Q),
    state cb = half_open ->
    (state (recordSuccess cb) = closed
     /\ failures (recordSuccess cb) = []
     /\ fst (isAllowed now (recordSuccess cb)) = true)
    /\ (state (recordFailure t cb) = open
        /\ lastFailureTime (recordFailure t cb) = t
        /\ (now - t < resetTimeoutMs cb ->
            fst (isAllowed now (recordFailure t cb)) = false)).
Proof.
  intros cb t now Hhalf.
  assert (Hs : state (recordSuccess cb) = closed)
    by now rewrite recordSuccess_state, Hhalf.
  assert (Hf : state (recordFailure t cb) = open)
    by now rewrite recordFailure_state, Hhalf.
  destruct (recordSuccess_window cb) as [_ Hwin]. rewrite Hhalf in Hwin.
  destruct (recordFailure_window t cb) as (_ & _ & Htime & _ & Hreset).
  split; [split; [exact Hs | split; [exact Hwin |]] | split; [exact Hf | split; [exact Htime |]]].
  - now rewrite (closed_allows now _ Hs).
  - intros Hearly. rewrite open_rejects; [reflexivity | exact Hf |].
    now rewrite Htime, Hreset.
Qed.

(** X9.  The failure rate of the window is a fraction: it lies between 0
    and 1, it is 0 for an empty window, and it is 1 for a window that holds
    failures only. *)
Theorem X9_failure_rate_is_a_fraction :
  forall (cb : CircuitBreaker),
    (0 <= getFailureRate cb /\ getFailureRate cb <= 1)
    /\ (failures cb = [] -> getFailureRate cb = 0)
    /\ (forall k, failures cb = repeat true (S k) -> getFailureRate cb == 1).
Proof.
  intros cb. split; [| split].
  - unfold getFailureRate.
    destruct (failures cb) as [| f l] eqn:E; [simpl; split; lra |].
    cbn [length Nat.eqb].
    pose proof (failureCount_le (f :: l)) as Hle.
    set (n := length (List.filter (fun f0 : bool => f0) (f :: l))) in *.
    cbn [length] in Hle.
    assert (Hpos : 0 < inject_Z (Z.of_nat (S (length l)))).
    { unfold Qlt. simpl. lia. }
    split.
    + apply Qle_shift_div_l; [exact Hpos |]. rewrite Qmult_0_l.
      unfold Qle. simpl. lia.
    + apply Qle_shift_div_r; [exact Hpos |]. rewrite Qmult_1_l.
      unfold Qle. simpl. lia.
  - intros H. unfold getFailureRate. now rewrite H.
  - intros k. apply rate_of_failures_only.
Qed.

(** X10.  The observer [onStateChange] is told of every change of state
    and of nothing else: an operation that leaves the breaker in the state
    it was in notifies nobody, and one that changes the state notifies once,
    with the new state.  (So [reset()] on a closed breaker and a repeated
    [getState()] are silent.) *)
Theorem X10_observer_sees_each_change_once :
  forall (cb : CircuitBreaker) (op : Operation),
    stateChanges (perform cb op)
    = stateChanges cb
      ++ (if CircuitState_eqb (state cb) (state (perform cb op))
          then []
          else [state (perform cb op)]).
Proof.
  intros cb op.
  assert (Hrefl : forall s, CircuitState_eqb s s = true) by (now intros []).
  assert (Hget : forall now,
             stateChanges (snd (getState now cb))
             = stateChanges cb
               ++ (if CircuitState_eqb (state cb) (state (snd (getState now cb)))
                   then [] else [state (snd (getState now cb))])).
  { intros now. rewrite getState_resolves.
    destruct (resetDue now cb) eqn:Hdue.
    - rewrite transition_notifies, transition_state. reflexivity.
    - now rewrite Hrefl, app_nil_r. }
  destruct op as [| now | now | now |]; cbn [perform].
  - rewrite recordSuccess_state.
    unfold recordSuccess, trimWindow. cbn [state set_failures].
    destruct (state cb) eqn:E; cbn [CircuitState_eqb]; cbn [stateChanges set_failures];
      rewrite ?app_nil_r; try reflexivity.
    rewrite transition_notifies. cbn [state set_failures]. now rewrite E.
  - rewrite recordFailure_state.
    unfold recordFailure, trimWindow.
    cbn [state failures windowSize failureThreshold set_failures set_lastFailureTime].
    destruct (state cb) eqn:E; cbn [CircuitState_eqb andb]; cbv zeta.
    + destruct (windowSize cb <=? _)%nat; cbn [andb];
        [| cbn; now rewrite app_nil_r].
      match goal with
      | |- context [leb ?t (getFailureRate (set_lastFailureTime ?n ?c))] =>
          change (leb t (getFailureRate (set_lastFailureTime n c)))
            with (leb t (getFailureRate
                           (set_failures
                              (trimWindow_loop (windowSize cb) (failures cb ++ [true]))
                              cb)))
      end.
      destruct (leb _ _).
      * rewrite transition_notifies.
        cbn [state stateChanges set_failures set_lastFailureTime]. now rewrite E.
      * cbn. now rewrite app_nil_r.
    + cbn. now rewrite app_nil_r.
    + rewrite transition_notifies.
      cbn [state stateChanges set_failures set_lastFailureTime]. now rewrite E.
  - rewrite isAllowed_snd. cbv zeta. specialize (Hget now).
    destruct (state (snd (getState now cb))) eqn:E; cbn [state stateChanges set_halfOpenAttempts];
      rewrite ?E; exact Hget.
  - apply Hget.
  - unfold reset. rewrite transition_notifies, transition_state.
    reflexivity.
Qed.

End BreakerFurther.

Section BudgetFurther.
Import Js Budget.

(** What the methods other than the two [shouldRetry] do to the fields. *)
Lemma recordOutcome_fields success b :
  budget (recordOutcome success b) = budget b
  /\ failureRate (recordOutcome success b)
     = (1 - emaAlpha b) * failureRate b + emaAlpha b * (if success then 0 else 1)
  /\ totalRequests (recordOutcome success b) = (totalRequests b + 1)%nat
  /\ successfulRequests (recordOutcome success b)
     = (successfulRequests b + if success then 1 else 0)%nat
  /\ failedRequests (recordOutcome success b)
     = (failedRequests b + if success then 0 else 1)%nat
  /\ totalRetries (recordOutcome success b) = totalRetries b
  /\ emaAlpha (recordOutcome success b) = emaAlpha b.
Proof. destruct success; cbn; repeat split; lia. Qed.

Lemma adjustBudget_fields b :
  failureRate (adjustBudget b) = failureRate b
  /\ totalRequests (adjustBudget b) = totalRequests b
  /\ successfulRequests (adjustBudget b) = successfulRequests b
  /\ failedRequests (adjustBudget b) = failedRequests b
  /\ totalRetries (adjustBudget b) = totalRetries b
  /\ emaAlpha (adjustBudget b) = emaAlpha b
  /\ budget (adjustBudget b)
     = (if ltb (highFailureThreshold b) (failureRate b)
        then budget b * (1 - budgetDecreaseRate b)
        else if ltb (failureRate b) (lowFailureThreshold b)
             then Qmin (initialBudget b) (budget b + budgetIncreaseRate b)
             else budget b).
Proof.
  unfold adjustBudget.
  destruct (ltb (highFailureThreshold b) (failureRate b));
    [| destruct (ltb (failureRate b) (lowFailureThreshold b))];
    cbn [budget set_budget]; destruct (ltb _ _); cbn; repeat split.
Qed.

(** The counters and the failure rate after an operation. *)
Lemma perform_counters b op :
  (failedRequests b + successfulRequests b = totalRequests b)%nat ->
  (failedRequests (perform b op) + successfulRequests (perform b op)
   = totalRequests (perform b op))%nat.
Proof.
  intros H. destruct op as [bp g | g | success | | |]; cbn [perform].
  - rewrite shouldRetry_cases.
    destruct bp as [[|] |]; try exact H; rewrite shouldRetrySync_cases;
      destruct (leb _ _); try exact H; destruct (ltb _ _); exact H.
  - rewrite shouldRetrySync_cases.
    destruct (leb _ _); try exact H; destruct (ltb _ _); exact H.
  - destruct (recordOutcome_fields success b) as (_ & _ & -> & -> & -> & _).
    destruct success; lia.
  - reflexivity.
  - unfold dispose. destruct (adjustmentTimer b); exact H.
  - unfold timerFires. destruct (adjustmentTimer b); [| exact H].
    cbn [failedRequests successfulRequests totalRequests set_adjustmentTimer].
    destruct (adjustBudget_fields b) as (_ & -> & -> & -> & _). exact H.
Qed.

(** X11.  The counters of a budget add up: after any sequence of
    operations, the metrics report as many requests in total as failed and
    successful ones together. *)
Theorem X11_metrics_add_up :
  forall (now : Q) (options : AdaptiveRetryOptions) (ops : list Operation),
    let metrics := getMetrics (fold_left perform ops (new now options)) in
    (m_failedRequests metrics + m_successfulRequests metrics
     = m_totalRequests metrics)%nat.
Proof.
  intros now options ops. cbn [getMetrics m_failedRequests m_successfulRequests
                               m_totalRequests].
  induction ops as [| op ops IH] using rev_ind; [reflexivity |].
  rewrite fold_left_app. cbn [fold_left]. now apply perform_counters.
Qed.

Lemma perform_rate b op :
  emaAlpha b = 1 # 10 ->
  0 <= failureRate b /\ failureRate b <= 1 ->
  emaAlpha (perform b op) = 1 # 10
  /\ 0 <= failureRate (perform b op) /\ failureRate (perform b op) <= 1.
Proof.
  intros Halpha Hrate. destruct op as [bp g | g | success | | |]; cbn [perform].
  - rewrite shouldRetry_cases.
    destruct bp as [[|] |]; try (now split); rewrite shouldRetrySync_cases;
      destruct (leb _ _); try (now split); destruct (ltb _ _); now split.
  - rewrite shouldRetrySync_cases.
    destruct (leb _ _); try (now split); destruct (ltb _ _); now split.
  - destruct (recordOutcome_fields success b) as (_ & -> & _ & _ & _ & _ & ->).
    rewrite Halpha. split; [reflexivity |]. destruct success; lra.
  - cbn. split; [exact Halpha | lra].
  - unfold dispose. destruct (adjustmentTimer b); now split.
  - unfold timerFires. destruct (adjustmentTimer b); [| now split].
    cbn [emaAlpha failureRate set_adjustmentTimer].
    destruct (adjustBudget_fields b) as (-> & _ & _ & _ & _ & -> & _). now split.
Qed.

(** X12.  The observed failure rate is a fraction: after any sequence of
    operations it lies between 0 and 1. *)
Theorem X12_failure_rate_stays_a_fraction :
  forall (now : Q) (options : AdaptiveRetryOptions) (ops : list Operation),
    let b := fold_left perform ops (new now options) in
    0 <= getFailureRate b /\ getFailureRate b <= 1.
Proof.
  intros now options ops. cbv zeta. unfold getFailureRate.
  assert (H : emaAlpha (fold_left perform ops (new now options)) = 1 # 10
              /\ 0 <= failureRate (fold_left perform ops (new now options))
              /\ failureRate (fold_left perform ops (new now options)) <= 1).
  { induction ops as [| op ops IH] using rev_ind.
    - cbn. repeat split; lra.
    - rewrite fold_left_app. cbn [fold_left].
      destruct IH as (Ha & Hr). now apply perform_rate. }
  tauto.
Qed.




Lemma ltb_false x y : y <= x -> ltb x y = false.
Proof.
  intros H. unfold ltb. apply negb_false_iff. now apply Qle_bool_iff.
Qed.









(** X17.  A retry is admitted only on a draw that is below both the
    budget and the observed success rate [1 - failureRate]: on every other
    draw [shouldRetry()] and [shouldRetrySync()] answer [false].  So the
    share of retries admitted for a failing service shrinks with its
    failure rate, however large the budget is. *)
Theorem X17_retry_needs_a_low_draw :
  forall (b : AdaptiveRetryBudget) (isBackpressured : option bool) (g : Rng),
    budget b <= fst (mathRandom g) \/ 1 - failureRate b <= fst (mathRandom g) ->
    fst (fst (shouldRetry isBackpressured g b)) = false
    /\ fst (fst (shouldRetrySync g b)) = false.
Proof.
  intros b bp g Hdraw.
  assert (Hsync : fst (fst (shouldRetrySync g b)) = false).
  { rewrite shouldRetrySync_cases.
    destruct (leb (budget b) 0); [reflexivity |].
    rewrite ltb_false; [reflexivity |].
    destruct Hdraw as [Hdraw | Hdraw];
      (eapply Qle_trans; [| exact Hdraw]);
      [apply Q.le_min_l | apply Q.le_min_r]. }
  split; [| exact Hsync].
  rewrite shouldRetry_cases. now destruct bp as [[|] |].
Qed.

(** X18.  The retry amplification factor that [getMetrics()] reports is
    never below 1, and it is exactly 1 when no request has been recorded
    beyond the retries counted. *)
Theorem X18_amplification_is_at_least_one :
  forall (b : AdaptiveRetryBudget),
    1 <= m_retryAmplificationFactor (getMetrics b)
    /\ ((totalRequests b <= totalRetries b)%nat ->
        m_retryAmplificationFactor (getMetrics b) = 1).
Proof.
  intros b. cbn [getMetrics m_retryAmplificationFactor].
  set (base := (Z.of_nat (totalRequests b) - Z.of_nat (totalRetries b))%Z).
  destruct (Z.ltb_spec 0 base) as [Hpos | Hneg].
  - split; [| intros; lia].
    apply Qle_shift_div_l; [unfold Qlt; simpl; lia |].
    rewrite Qmult_1_l. unfold Qle. simpl. lia.
  - split; [lra | reflexivity].
Qed.

End BudgetFurther.

Section BackpressureFurther.
Import Js Backpressure.
Local Open Scope string_scope.

Lemma getSignal_cases now serviceId m :
  getSignal now serviceId m
  = match signals m !! serviceId with
    | None => (None, m)
    | Some signal =>
        if ltb (signalTtlMs m) (now - timestamp signal)
        then (None, set_signals (delete serviceId (signals m)) m)
        else (Some signal, m)
    end.
Proof. reflexivity. Qed.

(** X19.  A recorded signal is read back as it was recorded, with the time
    of recording, for as long as its age is at most [signalTtlMs]; once it
    is older, reading it gives nothing, [isOverloaded()] is [false], and
    the signal is gone for good. *)
Theorem X19_signal_round_trip_and_expiry :
  forall (recorded read : Q) (serviceId : string) (overloaded : bool)
         (level retryAfter : option number) (m : BackpressureManager),
    let m1 := recordSignal recorded serviceId overloaded level retryAfter m in
    let signal :=
      {| isOverloaded := overloaded; loadLevel := level;
         retryAfterMs := retryAfter; timestamp := recorded |} in
    (read - recorded <= signalTtlMs m ->
     getSignal read serviceId m1 = (Some signal, m1)
     /\ isOverloadedFor read serviceId m1 = (overloaded, m1)
     /\ getLoadLevel read serviceId m1 = (level, m1)
     /\ getRetryAfterMs read serviceId m1 = (retryAfter, m1))
    /\ (signalTtlMs m < read - recorded ->
        fst (getSignal read serviceId m1) = None
        /\ fst (isOverloadedFor read serviceId m1) = false
        /\ forall later,
             fst (getSignal later serviceId (snd (getSignal read serviceId m1))) = None).
Proof.
  intros recorded read serviceId overloaded level retryAfter m m1 signal.
  assert (Hlookup : signals m1 !! serviceId = Some signal) by apply lookup_insert_eq.
  assert (Hget : getSignal read serviceId m1
                 = if ltb (signalTtlMs m) (read - recorded)
                   then (None, set_signals (delete serviceId (signals m1)) m1)
                   else (Some signal, m1)).
  { rewrite getSignal_cases, Hlookup. reflexivity. }
  split.
  - intros Hfresh.
    assert (Hltb : ltb (signalTtlMs m) (read - recorded) = false).
    { unfold ltb. apply negb_false_iff. now apply Qle_bool_iff. }
    rewrite Hltb in Hget.
    unfold isOverloadedFor, getLoadLevel, getRetryAfterMs. rewrite Hget. auto.
  - intros Hold.
    assert (Hltb : ltb (signalTtlMs m) (read - recorded) = true) by now apply ltb_lt.
    rewrite Hltb in Hget.
    unfold isOverloadedFor. rewrite Hget. cbn [fst snd].
    split; [reflexivity | split; [reflexivity |]].
    intros later. rewrite getSignal_cases. cbn [signals set_signals].
    now rewrite lookup_delete_eq.
Qed.

(** X20.  Services are kept apart: recording a signal for one service, or
    reading (and so possibly evicting) the signal of one service, does not
    change what is read for another; a service that was never recorded
    reads as nothing and as not overloaded, and so does every service
    after [clear()]. *)
Theorem X20_services_are_independent :
  forall (t t' : Q) (serviceId other : string) (overloaded : bool)
         (level retryAfter : option number) (m : BackpressureManager),
    (other <> serviceId ->
     fst (getSignal t other (recordSignal t' serviceId overloaded level retryAfter m))
     = fst (getSignal t other m)
     /\ fst (getSignal t other (snd (getSignal t' serviceId m)))
        = fst (getSignal t other m))
    /\ (signals m !! serviceId = None ->
        getSignal t serviceId m = (None, m)
        /\ isOverloadedFor t serviceId m = (false, m))
    /\ getSignal t serviceId (clear m) = (None, clear m).
Proof.
  intros t t' serviceId other overloaded level retryAfter m.
  split; [| split].
  - intros Hother. split.
    + rewrite !getSignal_cases. cbn [signals recordSignal set_signals signalTtlMs].
      rewrite lookup_insert_ne by congruence.
      destruct (signals m !! other) as [signal |]; [| reflexivity].
      now destruct (ltb _ _).
    + rewrite (getSignal_cases t' serviceId m).
      destruct (signals m !! serviceId) as [signal |]; [| reflexivity].
      destruct (ltb _ _); [| reflexivity].
      cbn [snd]. rewrite !getSignal_cases. cbn [signals set_signals signalTtlMs].
      rewrite lookup_delete_ne by congruence.
      destruct (signals m !! other) as [signal' |]; [| reflexivity].
      now destruct (ltb _ _).
  - intros Hnone. unfold isOverloadedFor. rewrite getSignal_cases, Hnone. auto.
  - rewrite getSignal_cases. cbn [signals clear set_signals]. now rewrite lookup_empty.
Qed.

Lemma get_recognisedFields (lower : bool) (plain : bool)
    (loadLevelStr retryAfterStr sheddingStr : option string) :
  let entries :=
    recognisedFields (if lower then toLowerCase else fun name => name)
                     loadLevelStr retryAfterStr sheddingStr in
  let headers := if plain then PlainRecord entries else HeadersObject entries in
  (plain = false -> lower = true) ->
  get headers LOAD_LEVEL = loadLevelStr
  /\ get headers RETRY_AFTER = retryAfterStr
  /\ get headers SHEDDING = sheddingStr.
Proof.
  destruct lower, plain; intros entries headers Hcase;
    try (specialize (Hcase eq_refl); discriminate);
    subst headers entries;
    destruct loadLevelStr, retryAfterStr, sheddingStr;
    repeat split; vm_compute; reflexivity.
Qed.

(** X21.  The names of the three fields are recognised in their standard
    spelling and in lower case alike: a plain record with the standard
    names, a plain record with the lower-case names and a [Headers] object
    (which keeps lower-case names) with the same values leave the manager
    in the same state. *)
Theorem X21_header_names_ignore_case :
  forall (parseFloat : string -> number) (now : Q) (serviceId : string)
         (loadLevelStr retryAfterStr sheddingStr : option string)
         (m : BackpressureManager),
    let standard :=
      recognisedFields (fun name => name) loadLevelStr retryAfterStr sheddingStr in
    let lower :=
      recognisedFields toLowerCase loadLevelStr retryAfterStr sheddingStr in
    recordFromHeaders parseFloat now serviceId (PlainRecord lower) m
    = recordFromHeaders parseFloat now serviceId (PlainRecord standard) m
    /\ recordFromHeaders parseFloat now serviceId (HeadersObject lower) m
       = recordFromHeaders parseFloat now serviceId (PlainRecord standard) m.
Proof.
  intros parseFloat now serviceId loadLevelStr retryAfterStr sheddingStr m standard lower.
  destruct (get_recognisedFields false true loadLevelStr retryAfterStr sheddingStr)
    as (Hs1 & Hs2 & Hs3); [discriminate |].
  destruct (get_recognisedFields true true loadLevelStr retryAfterStr sheddingStr)
    as (Hl1 & Hl2 & Hl3); [discriminate |].
  destruct (get_recognisedFields true false loadLevelStr retryAfterStr sheddingStr)
    as (Hh1 & Hh2 & Hh3); [reflexivity |].
  cbv zeta in Hs1, Hs2, Hs3, Hl1, Hl2, Hl3, Hh1, Hh2, Hh3.
  unfold recordFromHeaders. subst standard lower.
  rewrite Hs1, Hs2, Hs3, Hl1, Hl2, Hl3, Hh1, Hh2, Hh3. split; reflexivity.
Qed.

(** X22.  What the server middleware writes is what the client manager
    reads.  The load level is always sent.  At or above the threshold the
    middleware also sends the shedding flag and the retry delay, and a
    client that records these headers holds a signal that says overloaded,
    whatever the numbers parse to.  Below the threshold a response that had
    no such headers gets neither of the two. *)
Theorem X22_middleware_signals_overload :
  forall (toFixed2 numberToString : Q -> string) (parseFloat : string -> number)
         (threshold retryAfterSeconds : option Q) (load : Q)
         (now : Q) (serviceId : string) (m : BackpressureManager),
    let res :=
      createBackpressureMiddleware toFixed2 numberToString
        threshold retryAfterSeconds load ∅ in
    res !! LOAD_LEVEL = Some (toFixed2 load)
    /\ (default (8 # 10) threshold <= load ->
        res !! SHEDDING = Some "true"
        /\ res !! RETRY_AFTER = Some (numberToString (default 5 retryAfterSeconds))
        /\ exists signal,
             signals (recordFromHeaders parseFloat now serviceId (PlainRecord res) m)
               !! serviceId = Some signal
             /\ isOverloaded signal = true
             /\ timestamp signal = now)
    /\ (load < default (8 # 10) threshold ->
        res !! SHEDDING = None /\ res !! RETRY_AFTER = None).
Proof.
  intros toFixed2 numberToString parseFloat threshold retryAfterSeconds load
         now serviceId m res.
  subst res. unfold createBackpressureMiddleware, setHeader.
  split; [| split].
  - destruct (leb _ load); vm_compute; reflexivity.
  - intros Hhigh.
    assert (Hleb : leb (default (8 # 10) threshold) load = true) by now apply leb_le.
    rewrite Hleb.
    set (res := <[RETRY_AFTER := _]> _).
    assert (Hshed : res !! SHEDDING = Some "true") by (vm_compute; reflexivity).
    split; [exact Hshed | split; [vm_compute; reflexivity |]].
    unfold recordFromHeaders.
    assert (Hget : get (PlainRecord res) SHEDDING = Some "true").
    { unfold get. now rewrite Hshed. }
    rewrite Hget.
    replace (bool_decide (Some "true" = Some "true")) with true by reflexivity.
    cbn [orb]. rewrite !orb_true_r.
    eexists. split; [apply lookup_insert_eq | split; reflexivity].
  - intros Hlow.
    assert (Hleb : leb (default (8 # 10) threshold) load = false).
    { unfold leb. apply not_true_is_false. rewrite Qle_bool_iff. lra. }
    rewrite Hleb. split; vm_compute; reflexivity.
Qed.

End BackpressureFurther.

Section CounterFurther.
Import Counter.
Local Open Scope Z_scope.

Lemma perform_bounds c op :
  0 <= count c <= maxObserved c ->
  0 <= count (perform c op) <= maxObserved (perform c op).
Proof.
  intros Hc. destruct op; cbn [perform].
  - unfold increment. cbn [count maxObserved].
    destruct (maxObserved c <? count c + 1) eqn:E; cbn [count maxObserved].
    + lia.
    + apply Z.ltb_ge in E. lia.
  - unfold decrement. cbn [count maxObserved]. lia.
  - cbn. lia.
Qed.

(** X23.  Whatever is done to a counter, the number of active requests
    is never negative and never above the maximum observed; and the
    maximum observed never goes down except by [reset()]. *)
Theorem X23_counter_stays_in_range :
  forall ops : list Operation,
    let c := fold_left perform ops new in
    (0 <= getCount c <= getMaxObserved c)
    /\ forall op, op <> Reset -> getMaxObserved c <= getMaxObserved (perform c op).
Proof.
  intros ops c. split.
  - subst c. unfold getCount, getMaxObserved.
    assert (Hgen : forall c0, 0 <= count c0 <= maxObserved c0 ->
              0 <= count (fold_left perform ops c0) <= maxObserved (fold_left perform ops c0)).
    { induction ops as [| op ops IH]; intros c0 H0; [exact H0 |].
      cbn [fold_left]. apply IH. now apply perform_bounds. }
    apply Hgen. cbn. lia.
  - intros op Hop. unfold getMaxObserved. destruct op; cbn [perform].
    + unfold increment. cbn [count maxObserved].
      destruct (maxObserved c <? count c + 1) eqn:E; cbn [maxObserved].
      * apply Z.ltb_lt in E. lia.
      * lia.
    + cbn. lia.
    + congruence.
Qed.

(** X24.  A request that went through the counter's middleware is counted
    while it is in flight and given back exactly once, however many of the
    events [finish] and [close] the response emits. *)
Theorem X24_request_is_given_back_once :
  forall (c : RequestCounter) (events : nat),
    0 <= count c ->
    (1 <= events)%nat ->
    getCount (fst (middleware c)) = count c + 1
    /\ getMaxObserved (fst (middleware c)) = Z.max (maxObserved c) (count c + 1)
    /\ getCount (fst (Nat.iter events onFinish (middleware c))) = count c
    /\ getMaxObserved (fst (Nat.iter events onFinish (middleware c)))
       = Z.max (maxObserved c) (count c + 1).
Proof.
  intros c events Hc Hevents.
  assert (Hinc : count (increment c) = count c + 1
                 /\ maxObserved (increment c) = Z.max (maxObserved c) (count c + 1)).
  { unfold increment. cbn [count maxObserved].
    destruct (maxObserved c <? count c + 1) eqn:E; cbn [count maxObserved].
    - apply Z.ltb_lt in E. lia.
    - apply Z.ltb_ge in E. lia. }
  destruct Hinc as [Hcount Hmax].
  assert (Hiter : forall n,
            Nat.iter (S n) onFinish (middleware c) = (decrement (increment c), true)).
  { induction n as [| n IH].
    - reflexivity.
    - rewrite Nat.iter_succ, IH. reflexivity. }
  destruct events as [| n]; [lia |].
  rewrite Hiter. unfold middleware, getCount, getMaxObserved. cbn [fst].
  unfold decrement. cbn [count maxObserved]. rewrite Hcount, Hmax.
  repeat split; lia.
Qed.

End CounterFurther.

Section LoadLevelFurther.
Import Js Backpressure.

Lemma fold_max_ge levels : forall level, level <= fold_left Qmax levels level.
Proof.
  induction levels as [| l levels IH]; intros level; cbn [fold_left].
  - lra.
  - eapply Qle_trans; [apply Q.le_max_l | apply IH].
Qed.

Lemma fold_max_bounds levels :
  forall level,
    Forall (fun l => l <= fold_left Qmax levels level) levels.
Proof.
  induction levels as [| l levels IH]; intros level; cbn [fold_left]; constructor.
  - eapply Qle_trans; [apply Q.le_max_r | apply fold_max_ge].
  - apply IH.
Qed.

Lemma fold_max_le bound levels :
  forall level,
    level <= bound -> Forall (fun l => l <= bound) levels ->
    fold_left Qmax levels level <= bound.
Proof.
  induction levels as [| l levels IH]; intros level Hlevel Hall; cbn [fold_left].
  - exact Hlevel.
  - inversion Hall; subst. apply IH; [| assumption]. now apply Q.max_lub.
Qed.

Lemma mathMax_bounds levels : Forall (fun l => l <= mathMax levels) levels.
Proof.
  destruct levels as [| level levels]; constructor.
  - apply fold_max_ge.
  - apply fold_max_bounds.
Qed.

Lemma loadLevels_le_1 options heapUsed :
  Forall (fun l => l <= 1) (loadLevels options heapUsed).
Proof.
  unfold loadLevels.
  destruct (truthyNumber (maxConcurrentRequests options)) as [maxRequests |],
           (getCurrentRequests options) as [currentRequests |],
           (truthyNumber (maxMemoryMb options)) as [maxMemory |],
           (truthyNumber (maxCpuPercent options)) as [maxCpu |],
           (getCpuPercent options) as [cpuPercent |];
    cbn [app]; repeat constructor; apply Q.le_min_l.
Qed.

(** X25.  The load level a calculator returns is at most 1 and at least
    every indicator it collected; with no limit configured it is 0; and as
    soon as the heap in use reaches a configured memory limit it is 1,
    whatever the other indicators say. *)
Theorem X25_load_level_is_the_largest_indicator :
  forall (options : LoadLevelOptions) (heapUsed : Q),
    let level := createLoadLevelCalculator options heapUsed in
    level <= 1
    /\ Forall (fun indicator => indicator <= level) (loadLevels options heapUsed)
    /\ (maxConcurrentRequests options = None ->
        maxMemoryMb options = None ->
        maxCpuPercent options = None ->
        level = 0)
    /\ (forall maxMemory,
          maxMemoryMb options = Some maxMemory ->
          0 < maxMemory ->
          maxMemory * (1024 * 1024) <= heapUsed ->
          level == 1).
Proof.
  intros options heapUsed level. subst level. unfold createLoadLevelCalculator.
  pose proof (loadLevels_le_1 options heapUsed) as Hle.
  pose proof (mathMax_bounds (loadLevels options heapUsed)) as Hmax.
  assert (Hupper : (if (0 <? length (loadLevels options heapUsed))%nat
                    then mathMax (loadLevels options heapUsed) else 0) <= 1).
  { destruct (loadLevels options heapUsed) as [| l levels]; cbn [length Nat.ltb Nat.leb].
    - lra.
    - inversion Hle; subst. now apply fold_max_le. }
  split; [exact Hupper | split; [| split]].
  - destruct (loadLevels options heapUsed) as [| l levels]; [constructor |]. exact Hmax.
  - intros H1 H2 H3. unfold loadLevels. rewrite H1, H2, H3. reflexivity.
  - intros maxMemory Hmem Hpos Hheap.
    apply Qle_antisym; [exact Hupper |].
    assert (Hin : exists indicator,
              In indicator (loadLevels options heapUsed) /\ indicator == 1).
    { assert (Htruthy : truthyNumber (Some maxMemory) = Some maxMemory).
      { unfold truthyNumber.
        destruct (Qeq_bool maxMemory 0) eqn:E; [| reflexivity].
        apply Qeq_bool_iff in E. lra. }
      unfold loadLevels. rewrite Hmem, Htruthy.
      exists (Qmin 1 (heapUsed / (1024 * 1024) / maxMemory)). split.
      - destruct (truthyNumber (maxConcurrentRequests options)),
                 (getCurrentRequests options),
                 (truthyNumber (maxCpuPercent options)),
                 (getCpuPercent options);
          cbn [app In]; auto 6.
      - apply Q.min_l. apply Qle_shift_div_l; [exact Hpos |].
        apply Qle_shift_div_l; [reflexivity |]. lra. }
    destruct Hin as (indicator & Hin & Hone).
    rewrite List.Forall_forall in Hmax. specialize (Hmax indicator Hin).
    destruct (loadLevels options heapUsed) as [| l levels]; [contradiction |].
    cbn [length Nat.ltb Nat.leb]. rewrite <- Hone. exact Hmax.
Qed.

End LoadLevelFurther.

Section InvocationCeiling.
Import Js Backoff Retry.

Lemma silent_invokesNothing {A : Type} (c : M A) f s :
  adds c 0 f s -> invokesNothing c.
Proof. intros H w. destruct (H w) as (Hi & _). lia. Qed.

Lemma bind_invokesNothing {A B : Type} (c : M A) (k : A -> M B) :
  invokesNothing c -> (forall a, invokesNothing (k a)) -> invokesNothing (bind c k).
Proof.
  intros Hc Hk w. unfold bind. specialize (Hc w).
  destruct (c w) as [[a | e] w1]; cbn [snd] in *; [| exact Hc].
  rewrite (Hk a w1). exact Hc.
Qed.

Lemma ret_invokesNothing {A : Type} (a : A) : invokesNothing (ret a).
Proof. intros w. reflexivity. Qed.

Context {T : Type}.
Variables (fn : M (Promise T)) (maxRetries : Z).
Variables (initialDelayMs maxDelayMs backoffMultiplier : Q) (jitter : JitterStrategy).
Variables (retryIf : Error -> M bool).
Variables (onRetry : option (Error -> Z -> Q -> M unit)) (timeoutMs : option Q).

Hypothesis fn_once :
  forall w, fnInvocations (trace (snd (fn w))) = S (fnInvocations (trace w)).
Hypothesis retryIf_quiet : forall error, invokesNothing (retryIf error).
Hypothesis onRetry_quiet :
  forall error attempt delay, invokesNothing (callOnRetry onRetry error attempt delay).

Lemma attemptFn_once w :
  fnInvocations (trace (snd (attemptFn fn timeoutMs w))) = S (fnInvocations (trace w)).
Proof.
  specialize (fn_once w). unfold attemptFn.
  destruct (timeoutSet timeoutMs) as [t |]; unfold bind;
    destruct (fn w) as [[promise | e] w1]; exact fn_once.
Qed.

(** Run the computation [c] that comes first in the goal, noting by [L]
    that it invokes nothing. *)
Tactic Notation "quiet" constr(c) "by" constr(L) "as" ident(x) ident(e) :=
  unfold bind at 1;
  match goal with
  | |- context [c ?w] =>
      let Hq := fresh "Hq" in
      pose proof (L w) as Hq;
      destruct (c w) as [[x | e] ?]; cbn [snd] in Hq
  end.

(** The same for a recording call, which returns. *)
Ltac recorded E c L :=
  rewrite E;
  match goal with
  | |- context [snd (c ?w)] =>
      let Hq := fresh "Hq" in
      let w' := fresh "w" in
      pose proof (silent_invokesNothing _ _ _ L w) as Hq;
      set (w' := snd (c w)) in *; clearbody w'
  end.

Ltac ended := simpl; lia.

Lemma retry_loop_ceiling fuel :
  forall attempt lastError previousDelay w,
    (fnInvocations
       (trace (snd (retry_loop fn maxRetries initialDelayMs maxDelayMs
                      backoffMultiplier jitter retryIf onRetry timeoutMs
                      fuel attempt lastError previousDelay w)))
     <= fnInvocations (trace w) + fuel)%nat.
Proof.
  induction fuel as [| fuel IH]; intros attempt lastError previousDelay w; [ended |].
  cbn [retry_loop].
  destruct (attempt <=? maxRetries)%Z; [| ended].
  unfold tryCatch. pose proof (attemptFn_once w) as H0.
  destruct (attemptFn fn timeoutMs w) as [[value | error] w1]; cbn [snd] in H0; [ended |].
  destruct (attempt >=? maxRetries)%Z; [ended |].
  quiet (retryIf (toError error)) by (retryIf_quiet (toError error)) as again e1;
    [| ended].
  destruct again; cbn [negb]; [| ended].
  quiet (backoff attempt initialDelayMs maxDelayMs backoffMultiplier jitter previousDelay)
    by (silent_invokesNothing _ _ _
          (backoff_adds initialDelayMs maxDelayMs backoffMultiplier jitter
             attempt previousDelay))
    as delay e2; [| ended].
  quiet (callOnRetry onRetry (toError error) (attempt + 1)%Z delay)
    by (onRetry_quiet (toError error) (attempt + 1)%Z delay) as u3 e3; [| ended].
  quiet (sleep delay) by (silent_invokesNothing _ _ _ (sleep_adds delay)) as u4 e4;
    [| ended].
  match goal with
  | |- context [retry_loop _ _ _ _ _ _ _ _ _ fuel ?at' ?le ?pd ?w'] =>
      specialize (IH at' le pd w')
  end.
  lia.
Qed.

Lemma retryWithBudget_loop_ceiling fuel :
  forall attempt lastError previousDelay w,
    (fnInvocations
       (trace (snd (retryWithBudget_loop fn maxRetries initialDelayMs maxDelayMs
                      backoffMultiplier jitter retryIf onRetry timeoutMs
                      fuel attempt lastError previousDelay w)))
     <= fnInvocations (trace w) + fuel)%nat.
Proof.
  induction fuel as [| fuel IH]; intros attempt lastError previousDelay w; [ended |].
  cbn [retryWithBudget_loop].
  destruct (attempt <=? maxRetries)%Z; [| ended].
  unfold tryCatch. unfold bind at 1. pose proof (attemptFn_once w) as H0.
  destruct (attemptFn fn timeoutMs w) as [[value | error] w1]; cbn [snd] in H0.
  - recorded (@bind_budgetRecordOutcome T) (budgetRecordOutcome true) (budgetRecordOutcome_adds true). ended.
  - recorded (@bind_budgetRecordOutcome T) (budgetRecordOutcome false) (budgetRecordOutcome_adds false).
    destruct (attempt >=? maxRetries)%Z; [ended |].
    quiet (retryIf (toError error)) by (retryIf_quiet (toError error)) as again e1;
      [| ended].
    destruct again; cbn [negb]; [| ended].
    quiet budgetShouldRetry by (silent_invokesNothing _ _ _ budgetShouldRetry_adds)
      as shouldRetry e5; [| ended].
    destruct shouldRetry; cbn [negb]; [| ended].
    quiet (backoff attempt initialDelayMs maxDelayMs backoffMultiplier jitter previousDelay)
      by (silent_invokesNothing _ _ _
            (backoff_adds initialDelayMs maxDelayMs backoffMultiplier jitter
               attempt previousDelay))
      as delay e2; [| ended].
    quiet (callOnRetry onRetry (toError error) (attempt + 1)%Z delay)
      by (onRetry_quiet (toError error) (attempt + 1)%Z delay) as u3 e3; [| ended].
    quiet (sleep delay) by (silent_invokesNothing _ _ _ (sleep_adds delay)) as u4 e4;
      [| ended].
    match goal with
    | |- context [retryWithBudget_loop _ _ _ _ _ _ _ _ _ fuel ?at' ?le ?pd ?w'] =>
        specialize (IH at' le pd w')
    end.
    lia.
Qed.

Lemma retryWithProtection_loop_ceiling fuel :
  forall attempt lastError previousDelay w,
    (fnInvocations
       (trace (snd (retryWithProtection_loop fn maxRetries initialDelayMs maxDelayMs
                      backoffMultiplier jitter retryIf onRetry timeoutMs
                      fuel attempt lastError previousDelay w)))
     <= fnInvocations (trace w) + fuel)%nat.
Proof.
  induction fuel as [| fuel IH]; intros attempt lastError previousDelay w; [ended |].
  cbn [retryWithProtection_loop].
  destruct (attempt <=? maxRetries)%Z; [| ended].
  unfold tryCatch. unfold bind at 1. pose proof (attemptFn_once w) as H0.
  destruct (attemptFn fn timeoutMs w) as [[value | error] w1]; cbn [snd] in H0.
  - recorded (@bind_breakerRecordSuccess T) breakerRecordSuccess breakerRecordSuccess_adds.
    recorded (@bind_budgetRecordOutcome T) (budgetRecordOutcome true) (budgetRecordOutcome_adds true). ended.
  - recorded (@bind_breakerRecordFailure T) breakerRecordFailure breakerRecordFailure_adds.
    recorded (@bind_budgetRecordOutcome T) (budgetRecordOutcome false) (budgetRecordOutcome_adds false).
    destruct (attempt >=? maxRetries)%Z; [ended |].
    quiet (retryIf (toError error)) by (retryIf_quiet (toError error)) as again e1;
      [| ended].
    destruct again; cbn [negb]; [| ended].
    quiet breakerIsAllowed by (silent_invokesNothing _ _ _ breakerIsAllowed_adds)
      as allowed e6; [| ended].
    destruct allowed; cbn [negb]; [| ended].
    quiet budgetShouldRetry by (silent_invokesNothing _ _ _ budgetShouldRetry_adds)
      as shouldRetry e5; [| ended].
    destruct shouldRetry; cbn [negb]; [| ended].
    quiet (backoff attempt initialDelayMs maxDelayMs backoffMultiplier jitter previousDelay)
      by (silent_invokesNothing _ _ _
            (backoff_adds initialDelayMs maxDelayMs backoffMultiplier jitter
               attempt previousDelay))
      as delay e2; [| ended].
    quiet (callOnRetry onRetry (toError error) (attempt + 1)%Z delay)
      by (onRetry_quiet (toError error) (attempt + 1)%Z delay) as u3 e3; [| ended].
    quiet (sleep delay) by (silent_invokesNothing _ _ _ (sleep_adds delay)) as u4 e4;
      [| ended].
    match goal with
    | |- context [retryWithProtection_loop _ _ _ _ _ _ _ _ _ fuel ?at' ?le ?pd ?w'] =>
        specialize (IH at' le pd w')
    end.
    lia.
Qed.

End InvocationCeiling.

Section InvocationCeilingCalls.
Import Js Backoff Retry.

Context {T : Type}.

Lemma scripted_once (script : nat -> Promise T) w :
  fnInvocations (trace (snd (scripted script w))) = S (fnInvocations (trace w)).
Proof.
  unfold scripted. cbn [snd].
  destruct (counts_log FnInvoked (set_fnCalls (fnCalls w + 1) w)) as (-> & _).
  cbn [trace set_fnCalls]. lia.
Qed.

Variables (fn : M (Promise T)) (options : RetryOptions).

Hypothesis fn_once :
  forall w, fnInvocations (trace (snd (fn w))) = S (fnInvocations (trace w)).
Hypothesis retryIf_quiet :
  forall error, invokesNothing (default defaultRetryIf (Retry.retryIf options) error).
Hypothesis onRetry_quiet :
  forall error attempt delay,
    invokesNothing (callOnRetry (Retry.onRetry options) error attempt delay).

Let ceiling (w : World) : nat :=
  (fnInvocations (trace w) + iterations (default 3%Z (Retry.maxRetries options)))%nat.

Lemma retry_ceiling w :
  (fnInvocations (trace (snd (retry fn options w))) <= ceiling w)%nat.
Proof. unfold retry. now apply retry_loop_ceiling. Qed.

Lemma retryWithBudget_ceiling w :
  (fnInvocations (trace (snd (retryWithBudget fn options w))) <= ceiling w)%nat.
Proof. unfold retryWithBudget. now apply retryWithBudget_loop_ceiling. Qed.

Lemma retryWithProtection_ceiling w :
  (fnInvocations (trace (snd (retryWithProtection fn options w))) <= ceiling w)%nat.
Proof.
  unfold retryWithProtection, bind.
  pose proof (silent_invokesNothing _ _ _ breakerIsAllowed_adds w) as H0.
  destruct (breakerIsAllowed w) as [[allowed | e] w1]; cbn [snd] in H0;
    [| subst ceiling; simpl; lia].
  destruct allowed; cbn [negb]; [| subst ceiling; simpl; lia].
  subst ceiling. cbv beta. rewrite <- H0.
  now apply retryWithProtection_loop_ceiling.
Qed.

Lemma retryWithCircuitBreaker_ceiling w :
  (fnInvocations (trace (snd (retryWithCircuitBreaker fn options w))) <= ceiling w)%nat.
Proof.
  unfold retryWithCircuitBreaker, bind at 1.
  pose proof (silent_invokesNothing _ _ _ breakerIsAllowed_adds w) as H0.
  destruct (breakerIsAllowed w) as [[allowed | e] w1]; cbn [snd] in H0;
    [| subst ceiling; simpl; lia].
  destruct allowed; cbn [negb]; [| subst ceiling; simpl; lia].
  unfold tryCatch, bind at 1, retry.
  cbn [Retry.maxRetries Retry.initialDelayMs Retry.maxDelayMs
       Retry.backoffMultiplier Retry.jitter Retry.retryIf Retry.onRetry
       Retry.timeoutMs with_retryIf default from_option id].
  match goal with
  | |- context [retry_loop fn ?m ?i ?x ?b ?j ?r ?o ?t ?n ?a ?l ?p w1] =>
      assert (H1 : (fnInvocations
                      (trace (snd (retry_loop fn m i x b j r o t n a l p w1)))
                    <= fnInvocations (trace w1) + n)%nat);
      [ apply retry_loop_ceiling; [exact fn_once | | exact onRetry_quiet] |];
      [| destruct (retry_loop fn m i x b j r o t n a l p w1) as [[value | thrown] w2] ]
  end.
  - intros error.
    apply bind_invokesNothing;
      [exact (silent_invokesNothing _ _ _ breakerRecordFailure_adds) |].
    intros _. apply bind_invokesNothing;
      [exact (silent_invokesNothing _ _ _ breakerIsAllowed_adds) |].
    intros allowed. destruct allowed; cbn [negb];
      [apply retryIf_quiet | apply ret_invokesNothing].
  - cbn [snd] in H1.
    pose proof (silent_invokesNothing _ _ _ breakerRecordSuccess_adds w2) as H2.
    subst ceiling. unfold bind, breakerRecordSuccess in *. cbn [snd ret] in *.
    unfold iterations in *. lia.
  - cbn [snd] in H1.
    pose proof (silent_invokesNothing _ _ _ breakerRecordFailure_adds w2) as H2.
    subst ceiling. unfold bind, breakerRecordFailure in *. cbn [snd] in *.
    unfold iterations in *. lia.
Qed.

End InvocationCeilingCalls.

Section RetryFurther.
Import Js Backoff Retry.
Local Open Scope string_scope.

Context {T : Type}.

(** X26.  No orchestrator invokes the operation more than
    [maxRetries + 1] times (and not at all when [maxRetries] is
    negative), whatever the operation returns, the breaker and the budget
    answer and the random draws are, as long as the two callbacks do not
    invoke the operation themselves. *)
Theorem X26_invocations_never_exceed_the_limit :
  forall (script : nat -> Promise T) (options : RetryOptions) (w : World),
    (forall error,
        invokesNothing (default defaultRetryIf (Retry.retryIf options) error)) ->
    (forall error attempt delay,
        invokesNothing (callOnRetry (Retry.onRetry options) error attempt delay)) ->
    let limit := Z.to_nat (default 3%Z (Retry.maxRetries options) + 1) in
    let invocations (run : World) :=
      (fnInvocations (trace run) - fnInvocations (trace w))%nat in
    (invocations (snd (retry (scripted script) options w)) <= limit)%nat
    /\ (invocations (snd (retryWithResult (scripted script) options w)) <= limit)%nat
    /\ (invocations (snd (retryWithCircuitBreaker (scripted script) options w))
        <= limit)%nat
    /\ (invocations (snd (retryWithBudget (scripted script) options w)) <= limit)%nat
    /\ (invocations (snd (retryWithProtection (scripted script) options w))
        <= limit)%nat.
Proof.
  intros script options w Hif Hon limit invocations. subst limit invocations.
  pose proof (retry_ceiling (scripted script) options (scripted_once script)
                Hif Hon w) as H1.
  pose proof (retryWithCircuitBreaker_ceiling (scripted script) options
                (scripted_once script) Hif Hon w) as H3.
  pose proof (retryWithBudget_ceiling (scripted script) options
                (scripted_once script) Hif Hon w) as H4.
  pose proof (retryWithProtection_ceiling (scripted script) options
                (scripted_once script) Hif Hon w) as H5.
  unfold iterations in *. cbv beta.
  repeat split; try lia.
  unfold retryWithResult, bind, dateNow, tryCatch.
  match goal with
  | |- context [retry ?f ?o ?v] =>
      pose proof (retry_ceiling f o) as H2; specialize (H2 ltac:(
        intros w0; cbn [snd];
        rewrite (scripted_once script (set_attempts (attempts w0 + 1) w0));
        reflexivity) Hif Hon v);
      destruct (retry f o v) as [[value | thrown] w1]
  end; cbn [snd trace set_attempts Retry.maxRetries with_onRetry] in *;
    unfold iterations in *; lia.
Qed.

(** X27.  While the breaker is open and its reset timeout has not
    passed, [retryWithCircuitBreaker] and [retryWithProtection] fail at
    once with the [CircuitOpenError] of the standard message: the operation
    is not invoked, nothing is recorded on the breaker or the budget, no
    time passes, and the outcome does not depend on the operation. *)
Theorem X27_open_breaker_fails_fast :
  forall (fn : M (Promise T)) (options : RetryOptions) (w : World),
    Breaker.state (circuitBreaker w) = Breaker.open ->
    now w - Breaker.lastFailureTime (circuitBreaker w)
    < Breaker.resetTimeoutMs (circuitBreaker w) ->
    let rejected : Completion T * World :=
      (Throws (ThrownError (mkError "CircuitOpenError" "Circuit breaker is open")),
       log (BreakerIsAllowed false) w) in
    retryWithCircuitBreaker fn options w = rejected
    /\ retryWithProtection fn options w = rejected.
Proof.
  intros fn options w Hopen Hearly rejected.
  assert (Hpre : breakerIsAllowed w = (Returns false, log (BreakerIsAllowed false) w)).
  { unfold breakerIsAllowed.
    rewrite (open_rejects (now w) (circuitBreaker w) Hopen Hearly). reflexivity. }
  unfold retryWithCircuitBreaker, retryWithProtection, bind.
  rewrite Hpre. split; reflexivity.
Qed.

Lemma attemptFn_scripted (script : nat -> Promise T) timeoutMs w :
  attemptFn (scripted script) timeoutMs w
  = (settled (raced timeoutMs (script (fnCalls w))),
     elapse (settlesAfter (raced timeoutMs (script (fnCalls w))))
       (log FnInvoked (set_fnCalls (fnCalls w + 1) w))).
Proof. unfold attemptFn, raced. destruct (timeoutSet timeoutMs); reflexivity. Qed.

(** X28.  A retry that is denied ends the call with the error of the
    operation after a single invocation and without sleeping: in [retry]
    when the predicate [retryIf] answers [false], in [retryWithBudget] when
    the backpressure check configured on the budget reports overload.  The
    failed attempt is reported to the budget before it is asked. *)
Theorem X28_denied_retry_surfaces_the_error :
  forall (script : nat -> Promise T) (options : RetryOptions) (w : World)
         (error : Thrown),
    (0 <= default 3%Z (Retry.maxRetries options))%Z ->
    settled (raced (Retry.timeoutMs options) (script (fnCalls w))) = Throws error ->
    (Retry.retryIf options = Some (fun _ => ret false) ->
     let run := retry (scripted script) options w in
     fst run = Throws (ThrownError (toError error))
     /\ trace (snd run) = (trace w ++ [FnInvoked])%list)
    /\ (forall check,
          (0 < default 3%Z (Retry.maxRetries options))%Z ->
          Retry.retryIf options = None ->
          checkBackpressure w = Some check ->
          check (backpressureChecks w) = true ->
          let run := retryWithBudget (scripted script) options w in
          fst run = Throws (ThrownError (toError error))
          /\ trace (snd run)
             = (trace w ++ [FnInvoked; BudgetRecordOutcome false;
                            BudgetShouldRetry false])%list).
Proof.
  intros script options w error Hm Hfail.
  assert (Hfuel : exists fuel,
            iterations (default 3%Z (Retry.maxRetries options)) = S fuel).
  { exists (Z.to_nat (default 3%Z (Retry.maxRetries options))). unfold iterations. lia. }
  destruct Hfuel as [fuel Hfuel].
  split.
  - intros Hif run. subst run. unfold retry. rewrite Hfuel, Hif.
    cbn [retry_loop default from_option id].
    replace (0 <=? default 3%Z (Retry.maxRetries options))%Z with true
      by (symmetry; apply Z.leb_le; lia).
    unfold tryCatch. rewrite attemptFn_scripted, Hfail.
    destruct (0 >=? default 3%Z (Retry.maxRetries options))%Z; split; reflexivity.
  - intros check Hpos Hif Hcheck Hover run. subst run.
    enough (Hrun : exists w',
              retryWithBudget (scripted script) options w
              = (Throws (ThrownError (toError error)), w')
              /\ trace w'
                 = (trace w ++ [FnInvoked; BudgetRecordOutcome false;
                                BudgetShouldRetry false])%list).
    { destruct Hrun as (w' & -> & Htrace). split; [reflexivity | exact Htrace]. }
    eexists. split; [| shelve].
    unfold retryWithBudget. rewrite Hfuel, Hif.
    cbn [retryWithBudget_loop default from_option id].
    replace (0 <=? default 3%Z (Retry.maxRetries options))%Z with true
      by (symmetry; apply Z.leb_le; lia).
    unfold tryCatch, bind at 1. rewrite attemptFn_scripted, Hfail.
    rewrite bind_budgetRecordOutcome.
    replace (0 >=? default 3%Z (Retry.maxRetries options))%Z with false
      by (symmetry; rewrite Z.geb_leb; apply Z.leb_gt; lia).
    unfold bind at 1, defaultRetryIf at 1, ret at 1. cbn [negb].
    unfold bind at 1, budgetShouldRetry at 1.
    cbn [snd budgetRecordOutcome checkBackpressure backpressureChecks log
         Retry.set_budget elapse set_now set_fnCalls].
    rewrite Hcheck. cbn [fmap option_fmap option_map defined]. rewrite Hover.
    cbn [Budget.shouldRetry negb]. unfold throw. reflexivity.
    Unshelve.
    cbn [trace log Retry.set_budget set_rng set_backpressureChecks elapse
         set_now set_fnCalls].
    now rewrite <- !app_assoc.
Qed.

(** X29.  [retryWithResult], when the operation fails [k] times and then
    succeeds within the attempts allowed: the record reports success, the
    value of the successful invocation, no error, and [k + 1] attempts. *)
Theorem X29_retryWithResult_reports_success :
  forall (script : nat -> Promise T) (options : RetryOptions) (w : World)
         (k : nat) (value : T),
    (Z.of_nat k <= default 3%Z (Retry.maxRetries options))%Z ->
    accepts (default defaultRetryIf (Retry.retryIf options)) ->
    observes (Retry.onRetry options) ->
    (forall i, (i < k)%nat ->
               fails (raced (Retry.timeoutMs options) (script (fnCalls w + i)%nat))) ->
    settled (raced (Retry.timeoutMs options) (script (fnCalls w + k)%nat))
    = Returns value ->
    exists record w',
      retryWithResult (scripted script) options w = (Returns record, w')
      /\ success record = true
      /\ result record = Some value
      /\ Retry.error record = None
      /\ res_attempts record = (k + 1)%nat
      /\ fnCalls w' = (fnCalls w + k + 1)%nat.
Proof.
  intros script options w k value Hk Hif Hon Hfails Hok.
  destruct (retry_loop_succeeds_after
              (exec (fun w => (Returns tt, set_attempts (attempts w + 1)%nat w)) ;;
               scripted script)
              script 1 (default 3%Z (Retry.maxRetries options))
              (default 100 (Retry.initialDelayMs options))
              (default 30000 (Retry.maxDelayMs options))
              (default 2 (Retry.backoffMultiplier options))
              (default full (Retry.jitter options))
              (default defaultRetryIf (Retry.retryIf options))
              (Some (fun error attempt delayMs =>
                       callOnRetry (Retry.onRetry options) error attempt delayMs))
              (Retry.timeoutMs options)
              (wrappedFn_invokes script) Hif
              ltac:(intros e a d; apply (Hon e a d))
              k (iterations (default 3%Z (Retry.maxRetries options))) 0%Z None
              (default 100 (Retry.initialDelayMs options))
              (set_attempts 0 w) value)
    as (w' & Hrun & Hcalls & Hattempts).
  - lia.
  - unfold iterations. lia.
  - exact Hfails.
  - exact Hok.
  - simpl in Hcalls, Hattempts.
    eexists _, w'. split.
    + unfold retryWithResult, bind at 1, dateNow at 1. unfold bind at 1.
      unfold tryCatch, bind at 1.
      unfold retry. cbn [Retry.maxRetries Retry.initialDelayMs
        Retry.maxDelayMs Retry.backoffMultiplier Retry.jitter Retry.retryIf
        Retry.onRetry Retry.timeoutMs with_onRetry].
      rewrite Hrun. reflexivity.
    + simpl. repeat split; try assumption; lia.
Qed.

(** X30.  With a timeout set, an operation whose promises all settle
    later than the timeout is given up on every attempt: [retry] makes all
    its [maxRetries + 1] attempts and throws the timeout error, whether
    the promises would have resolved or not. *)
Theorem X30_slow_attempts_time_out :
  forall (script : nat -> Promise T) (options : RetryOptions) (w : World)
         (timeout : Q),
    Retry.timeoutMs options = Some timeout ->
    0 < timeout ->
    (0 <= default 3%Z (Retry.maxRetries options))%Z ->
    accepts (default defaultRetryIf (Retry.retryIf options)) ->
    observes (Retry.onRetry options) ->
    (forall i, timeout < settlesAfter (script i)) ->
    exists w',
      retry (scripted script) options w
      = (Throws (ThrownError (timeoutError timeout)), w')
      /\ fnCalls w'
         = (fnCalls w + Z.to_nat (default 3%Z (Retry.maxRetries options) + 1))%nat.
Proof.
  intros script options w timeout Ht Hpos Hm Hif Hon Hslow.
  assert (Hraced : forall i,
            settled (raced (Retry.timeoutMs options) (script i))
            = Throws (ThrownError (timeoutError timeout))).
  { intros i. unfold raced, timeoutSet. rewrite Ht.
    replace (Qeq_bool timeout 0) with false.
    - unfold withTimeout.
      replace (ltb (settlesAfter (script i)) timeout) with false; [reflexivity |].
      symmetry. apply not_true_is_false. rewrite ltb_lt.
      specialize (Hslow i). lra.
    - symmetry. apply not_true_is_false. intros E. apply Qeq_bool_iff in E. lra. }
  destruct (retry_loop_exhausts (scripted script) script 0
              (default 3%Z (Retry.maxRetries options))
              (default 100 (Retry.initialDelayMs options))
              (default 30000 (Retry.maxDelayMs options))
              (default 2 (Retry.backoffMultiplier options))
              (default full (Retry.jitter options))
              (default defaultRetryIf (Retry.retryIf options))
              (Retry.onRetry options) (Retry.timeoutMs options)
              (scripted_invokes script) Hif Hon
              (Z.to_nat (default 3%Z (Retry.maxRetries options)))
              (iterations (default 3%Z (Retry.maxRetries options)))
              0%Z None (default 100 (Retry.initialDelayMs options)) w)
    as (w' & error & Hrun & Hlast & Hcalls & _).
  - lia.
  - lia.
  - unfold iterations. lia.
  - intros i _. eexists. apply Hraced.
  - rewrite Hraced in Hlast. injection Hlast as <-.
    exists w'. split; [exact Hrun |]. rewrite Hcalls. lia.
Qed.

End RetryFurther.

Section FurtherInstances.
Import Js Backoff Retry Samples.
Local Open Scope string_scope.



(** X3 on the same delays at attempt 1, with the draw 1/2. *)
Lemma X3_full_and_equal_jitter_ranges_witness :
  let base := Qmin (100 * 2 ^ 1) 10000 in
  let delay jitter :=
    fst (calculateBackoff 1 100 10000 (Some 2) (Some jitter) None halves) in
  (0 <= delay full /\ delay full <= base)
  /\ (base / 2 <= delay equal /\ delay equal <= base).
Proof.
  apply (X3_full_and_equal_jitter_ranges 1%Z 100 10000 2 None halves).
  - vm_compute. discriminate.
  - split; simpl; lra.
Defined.

(** X4 on three calls of a calculator between 100 ms and 1000 ms. *)
Lemma X4_decorrelated_calculator_stays_in_range_witness :
  Forall (fun delay => 100 <= delay /\ delay <= 1000)
    (callCalculator_calls [0; 1; 2]%Z
       (createBackoffCalculator 100 1000 None (Some decorrelated)) halves).
Proof.
  apply X4_decorrelated_calculator_stays_in_range.
  - lra.
  - lra.
  - intros n. split; simpl; lra.
Defined.

(** X6 on two failures in a window of ten. *)
Lemma X6_no_early_opening_witness :
  Breaker.state
    (fold_left Breaker.perform
       [Breaker.RecordFailure 0; Breaker.RecordFailure 1; Breaker.IsAllowed 2]
       (Breaker.new (breakerOptions (1 # 2) 10 30000)))
  = Breaker.closed.
Proof.
  destruct (X6_no_early_opening (breakerOptions (1 # 2) 10 30000)
              [Breaker.RecordFailure 0; Breaker.RecordFailure 1; Breaker.IsAllowed 2]
              (Breaker.new (breakerOptions (1 # 2) 10 30000))) as [H _].
  apply H. vm_compute. lia.
Defined.

(** X7 on two failures in a window of two, asked 5 ms later with a reset
    timeout of 10 ms. *)
Lemma X7_failures_open_the_breaker_witness :
  let cb :=
    fold_left (fun cb t => Breaker.recordFailure t cb) ([0] ++ [0])
      (Breaker.new (breakerOptions (1 # 2) 2 10)) in
  Breaker.state cb = Breaker.open
  /\ Breaker.lastFailureTime cb = 0
  /\ Breaker.isAllowed 5 cb = (false, cb).
Proof.
  destruct (X7_failures_open_the_breaker (breakerOptions (1 # 2) 2 10) [0] 0 5)
    as (H1 & H2 & H3).
  - simpl. lia.
  - simpl. lra.
  - simpl. lia.
  - split; [exact H1 | split; [exact H2 |]]. apply H3. simpl. lra.
Defined.

(** X8 on the breaker opened at time 0 and found half-open at time 15. *)
Lemma X8_half_open_probe_decides_witness :
  let cb := snd (Breaker.getState 15 openedBreaker) in
  Breaker.state cb = Breaker.half_open
  /\ Breaker.state (Breaker.recordSuccess cb) = Breaker.closed
  /\ Breaker.state (Breaker.recordFailure 20 cb) = Breaker.open
  /\ fst (Breaker.isAllowed 25 (Breaker.recordFailure 20 cb)) = false.
Proof.
  intros cb.
  assert (Hhalf : Breaker.state cb = Breaker.half_open) by reflexivity.
  destruct (X8_half_open_probe_decides cb 20 25 Hhalf)
    as ((H1 & _) & (H2 & _ & H3)).
  split; [exact Hhalf | split; [exact H1 | split; [exact H2 |]]].
  apply H3. vm_compute. reflexivity.
Defined.

(** X9 on a window that holds two failures. *)
Lemma X9_failure_rate_is_a_fraction_witness :
  Breaker.failures openedBreaker = repeat true 2
  /\ Breaker.getFailureRate openedBreaker == 1.
Proof.
  assert (H : Breaker.failures openedBreaker = repeat true 2) by reflexivity.
  split; [exact H |].
  destruct (X9_failure_rate_is_a_fraction openedBreaker) as (_ & _ & Hall).
  exact (Hall 1%nat H).
Defined.





(** X17 on a budget of 0.2 and the draw 1/2. *)
Lemma X17_retry_needs_a_low_draw_witness :
  Budget.budget (budgetOf (2 # 10)) <= fst (mathRandom halves)
  /\ fst (fst (Budget.shouldRetry None halves (budgetOf (2 # 10)))) = false
  /\ fst (fst (Budget.shouldRetrySync halves (budgetOf (2 # 10)))) = false.
Proof.
  assert (H : Budget.budget (budgetOf (2 # 10)) <= fst (mathRandom halves))
    by (vm_compute; discriminate).
  split; [exact H |].
  exact (X17_retry_needs_a_low_draw (budgetOf (2 # 10)) None halves (or_introl H)).
Defined.

(** X18 on a budget that has seen no request. *)
Lemma X18_amplification_is_at_least_one_witness :
  Budget.m_retryAmplificationFactor (Budget.getMetrics (budgetOf (2 # 10))) = 1.
Proof.
  destruct (X18_amplification_is_at_least_one (budgetOf (2 # 10))) as [_ H].
  apply H. simpl. lia.
Defined.

(** X19 on a signal recorded at time 0 with the default time to live of
    30 s: read at 1 s and at 40 s. *)
Lemma X19_signal_round_trip_and_expiry_witness :
  let m := Backpressure.new None None in
  let m1 := Backpressure.recordSignal 0 "api" true None None m in
  Backpressure.isOverloadedFor 1000 "api" m1 = (true, m1)
  /\ fst (Backpressure.isOverloadedFor 40000 "api" m1) = false.
Proof.
  intros m m1.
  destruct (X19_signal_round_trip_and_expiry 0 1000 "api" true None None m)
    as [Hfresh _].
  destruct (X19_signal_round_trip_and_expiry 0 40000 "api" true None None m)
    as [_ Hold].
  split.
  - destruct Hfresh as (_ & H & _); [vm_compute; discriminate | exact H].
  - destruct Hold as (_ & H & _); [vm_compute; reflexivity | exact H].
Defined.

(** X20 on two services. *)
Lemma X20_services_are_independent_witness :
  let m := Backpressure.recordSignal 0 "db" false None None (Backpressure.new None None) in
  fst (Backpressure.getSignal 5 "db" (Backpressure.recordSignal 1 "api" true None None m))
  = fst (Backpressure.getSignal 5 "db" m).
Proof.
  intros m.
  destruct (X20_services_are_independent 5 1 "api" "db" true None None m) as [H _].
  destruct H as [H _]; [discriminate | exact H].
Defined.

(** X22 at a load of 0.9 with the default threshold of 0.8. *)
Lemma X22_middleware_signals_overload_witness :
  let res :=
    Backpressure.createBackpressureMiddleware (fun _ => "0.90") (fun _ => "5")
      None None (9 # 10) ∅ in
  res !! Backpressure.SHEDDING = Some "true"
  /\ res !! Backpressure.RETRY_AFTER = Some "5".
Proof.
  intros res.
  destruct (X22_middleware_signals_overload (fun _ => "0.90") (fun _ => "5")
              Backpressure.readDecimal None None (9 # 10) 0 "api"
              (Backpressure.new None None)) as (_ & H & _).
  destruct H as (H1 & H2 & _); [vm_compute; discriminate |].
  split; [exact H1 | exact H2].
Defined.

(** X23 on a counter after two requests came in and one ended. *)
Lemma X23_counter_stays_in_range_witness :
  let c :=
    fold_left Counter.perform
      [Counter.Increment; Counter.Increment; Counter.Decrement] Counter.new in
  (Counter.getMaxObserved c
   <= Counter.getMaxObserved (Counter.perform c Counter.Increment))%Z.
Proof.
  intros c.
  destruct (X23_counter_stays_in_range
              [Counter.Increment; Counter.Increment; Counter.Decrement]) as [_ H].
  apply H. discriminate.
Defined.

(** X24 on a fresh counter and a response that emits both events. *)
Lemma X24_request_is_given_back_once_witness :
  Counter.getCount (fst (Counter.middleware Counter.new)) = 1%Z
  /\ Counter.getCount
       (fst (Nat.iter 2 Counter.onFinish (Counter.middleware Counter.new))) = 0%Z.
Proof.
  destruct (X24_request_is_given_back_once Counter.new 2) as (H1 & _ & H2 & _).
  - simpl. lia.
  - lia.
  - split; [exact H1 | exact H2].
Defined.

(** X25 with a memory limit of 512 MB and a heap of that size. *)
Lemma X25_load_level_is_the_largest_indicator_witness :
  Backpressure.createLoadLevelCalculator (memoryLimit 512) (512 * (1024 * 1024)) == 1.
Proof.
  destruct (X25_load_level_is_the_largest_indicator (memoryLimit 512)
              (512 * (1024 * 1024))) as (_ & _ & _ & H).
  apply (H 512); [reflexivity | lra | lra].
Defined.

(** X26 on an operation that always fails, with [maxRetries = 2]. *)
Lemma X26_invocations_never_exceed_the_limit_witness :
  let w := world (breaker (1 # 2) 10 30000) in
  (fnInvocations (trace (snd (retry (scripted alwaysFails) (onlyMaxRetries 2) w)))
   - fnInvocations (trace w) <= 3)%nat
  /\ (fnInvocations
        (trace (snd (retryWithProtection (scripted alwaysFails) (onlyMaxRetries 2) w)))
      - fnInvocations (trace w) <= 3)%nat.
Proof.
  intros w.
  destruct (X26_invocations_never_exceed_the_limit alwaysFails (onlyMaxRetries 2) w)
    as (H1 & _ & _ & _ & H5).
  - intros error w0. reflexivity.
  - intros error attempt delay w0. reflexivity.
  - split; [exact H1 | exact H5].
Defined.

(** X27 on the breaker opened at time 0 with a reset timeout of 10 ms. *)
Lemma X27_open_breaker_fails_fast_witness :
  retryWithProtection (scripted alwaysFails) noOptions (world openedBreaker)
  = (Throws (ThrownError (mkError "CircuitOpenError" "Circuit breaker is open")),
     log (BreakerIsAllowed false) (world openedBreaker)).
Proof.
  destruct (X27_open_breaker_fails_fast (scripted alwaysFails) noOptions
              (world openedBreaker)) as [_ H].
  - reflexivity.
  - vm_compute. reflexivity.
  - exact H.
Defined.

(** X28 on an operation that always fails: with [retryIf: () => false],
    and with a budget under backpressure. *)
Lemma X28_denied_retry_surfaces_the_error_witness :
  let w := world (breaker (1 # 2) 10 30000) in
  fst (retry (scripted alwaysFails) (neverRetry 3) w)
  = Throws (ThrownError (newError "boom"))
  /\ trace (snd (retryWithBudget (scripted alwaysFails) (onlyMaxRetries 3)
                   (backpressured w)))
     = [FnInvoked; BudgetRecordOutcome false; BudgetShouldRetry false].
Proof.
  intros w.
  destruct (X28_denied_retry_surfaces_the_error alwaysFails (neverRetry 3) w
              (ThrownError (newError "boom"))) as [H1 _].
  - simpl. lia.
  - reflexivity.
  - destruct (X28_denied_retry_surfaces_the_error alwaysFails (onlyMaxRetries 3)
                (backpressured w) (ThrownError (newError "boom"))) as [_ H2].
    + simpl. lia.
    + reflexivity.
    + destruct (H1 eq_refl) as [Herror _].
      destruct (H2 (fun _ => true)) as [_ Htrace];
        [simpl; lia | reflexivity | reflexivity | reflexivity |].
      split; [exact Herror | exact Htrace].
Defined.

(** X29 on two rejections and then ['ok'], with [maxRetries = 3]. *)
Lemma X29_retryWithResult_reports_success_witness :
  exists record w',
    retryWithResult (scripted failsTwice) (onlyMaxRetries 3)
      (world (breaker (1 # 2) 10 30000)) = (Returns record, w')
    /\ success record = true
    /\ result record = Some "ok"
    /\ res_attempts record = 3%nat.
Proof.
  destruct (X29_retryWithResult_reports_success failsTwice (onlyMaxRetries 3)
              (world (breaker (1 # 2) 10 30000)) 2 "ok")
    as (record & w' & Hrun & Hs & Hr & _ & Ha & _).
  - simpl. lia.
  - intros e w. exists w. repeat split.
  - intros e a d w. exists w. repeat split.
  - intros i Hi. destruct i as [| [| i]]; [eexists; reflexivity .. | lia].
  - reflexivity.
  - exists record, w'. repeat split; assumption.
Defined.

(** X30 on an operation that resolves after 50 ms, with a timeout of
    10 ms and [maxRetries = 1]. *)
Lemma X30_slow_attempts_time_out_witness :
  exists w',
    retry (scripted slow) (withTimeoutMs 1 10) (world (breaker (1 # 2) 10 30000))
    = (Throws (ThrownError (timeoutError 10)), w')
    /\ fnCalls w' = 2%nat.
Proof.
  destruct (X30_slow_attempts_time_out slow (withTimeoutMs 1 10)
              (world (breaker (1 # 2) 10 30000)) 10) as (w' & Hrun & Hcalls).
  - reflexivity.
  - lra.
  - simpl. lia.
  - intros e w. exists w. repeat split.
  - intros e a d w. exists w. repeat split.
  - intros i. simpl. lra.
  - exists w'. split; [exact Hrun | exact Hcalls].
Defined.

End FurtherInstances.
